(** * light-monitor-kyiv: the schedule core of [main.py]

    A shallow embedding of the normalizers, the period compressor, the
    reconciler, the change detector and the presenter of [src/main.py],
    with the properties of the specification stated over it.

    Conventions of the embedding
    - a Python [int] is a [Z]; [//] and [%] are [Z.div] and [Z.modulo]
      (both floor towards minus infinity, as Python does for a positive
      divisor);
    - a finite Python [float] is the reduced fraction of its exact value
      (a [Q] normalised by [Qred]); every float the program computes is a
      multiple of one half well inside the exact range of binary64, so the
      arithmetic below is exact;
    - a Python [dict] is a [gmap]; [None] for a missing key is [None] of
      [option];
    - a Python list that is mutated in place ([periods.append], [slots[i] =
      v]) is threaded through the loop as an accumulator;
    - a raised exception is [None] of the result of the function that may
      raise. *)

From Stdlib Require Import ZArith QArith Qreduction Ascii String DecimalString.
From stdpp Require Import base option list strings gmap fin_maps sorting.

Set Warnings "-clear-no-such-hyp".

Local Open Scope string_scope.
Local Open Scope Z_scope.
Local Open Scope list_scope.
Local Open Scope stdpp_scope.

(** ** Numbers and their renderings *)

(** A finite float, as the reduced fraction of its value. *)
Definition float := Q.

(** [int * float] of Python: the integer is converted, then the product is
    taken. *)
Definition int_times_float (n : Z) (x : float) : float :=
  Qred (Qmult (inject_Z n) x).

Definition float_add (x y : float) : float := Qred (Qplus x y).

(** The literals [0.5] and [0.0]. *)
Definition float_half : float := Qmake 1 2.
Definition float_zero : float := Qmake 0 1.

(** [str(n)] for an [int]: the decimal digits, with a minus sign when
    negative. *)
Definition str_int (n : Z) : string := NilZero.string_of_int (Z.to_int n).

Fixpoint zeros (k : nat) : string :=
  match k with
  | O => ""
  | S k' => "0" +:+ zeros k'
  end.

(** The format specification [02d]: the sign, then the digits padded with
    zeros on the left up to a total width of two. *)
Definition format_02d (n : Z) : string :=
  let sign := if n <? 0 then "-" else "" in
  let digits := str_int (Z.abs n) in
  sign +:+ zeros (2 - String.length sign - String.length digits) +:+ digits.

(** ** Time rendering (main.py, lines 120-131) *)

Definition format_time (minutes : Z) : string :=
  let hours := minutes / 60 in
  let mins := minutes mod 60 in
  if hours =? 24 then "24:00"
  else format_02d hours +:+ ":" +:+ format_02d mins.

Definition format_slot_time (slot : Z) : string := format_time (slot * 30).

(** ** Period compressor (main.py, lines 309-338) *)

(** One entry of the list returned by [slots_to_periods]: the dict with the
    keys [start], [end], [is_on] and [hours]. *)
Record Period := mkPeriod {
  p_start : string;
  p_end : string;
  p_is_on : bool;
  p_hours : float
}.

(** The body of [for i in range(1, len(slots))]: [rest] is [slots[i:]], and
    the loop state is [(periods, current_status, start_slot)]. *)
Fixpoint periods_loop (rest : list bool) (i : Z)
    (periods : list Period) (current_status : bool) (start_slot : Z)
    : list Period * bool * Z :=
  match rest with
  | [] => (periods, current_status, start_slot)
  | slots_i :: rest' =>
      if negb (Bool.eqb slots_i current_status) then
        let hours := int_times_float (i - start_slot) float_half in
        periods_loop rest' (i + 1)
          (periods ++ [mkPeriod (format_slot_time start_slot)
                                (format_slot_time i)
                                current_status hours])
          slots_i i
      else periods_loop rest' (i + 1) periods current_status start_slot
  end.

Definition slots_to_periods (slots : list bool) : list Period :=
  match slots with
  | [] => []
  | slots_0 :: rest =>
      let '(periods, current_status, start_slot) :=
        periods_loop rest 1 [] slots_0 0 in
      let len := Z.of_nat (length slots) in
      let hours := int_times_float (len - start_slot) float_half in
      periods ++ [mkPeriod (format_slot_time start_slot)
                           (format_slot_time len)
                           current_status hours]
  end.

(** ** The Python runtime the core calls into

    What [main.py] takes from the standard library and does not define:
    dates, the text of a float, and [str.format]. The core never looks
    inside a [datetime]; it only passes it on. *)
Class Runtime := {
  (** [datetime] objects *)
  datetime : Type;
  (** [datetime.fromtimestamp(ts, tz=KYIV_TZ)]; [None] when it raises, as
      it does on a timestamp out of the range of dates *)
  fromtimestamp : Z -> option datetime;
  (** [datetime.fromisoformat(s)]; [None] when it raises [ValueError] *)
  fromisoformat : string -> option datetime;
  (** [d.strftime(fmt)] *)
  strftime : datetime -> string -> string;
  (** [d.weekday()], in 0..6 *)
  weekday : datetime -> Z;
  (** [str(x)] for a float [x], as an f-string renders it *)
  str_float : float -> string;
  (** [template.format] with keyword arguments, given as pairs *)
  str_format : string -> list (string * string) -> string
}.

(** A value that is an [int] or a [float] at run time. *)
Inductive number :=
  | Int (n : Z)
  | Float (x : float).

(** [int(x)]: truncation towards zero. *)
Definition int_of_float (x : float) : Z := Z.quot (Qnum x) (Zpos (Qden x)).

Definition int_of_number (h : number) : Z :=
  match h with
  | Int n => n
  | Float x => int_of_float x
  end.

(** [h == n] for a number [h] and an [int] [n]. *)
Definition number_eq_int (h : number) (n : Z) : bool :=
  match h with
  | Int m => m =? n
  | Float x => Qeq_bool x (inject_Z n)
  end.

(** [x in l] for a list of [int]. *)
Definition int_in (x : Z) (l : list Z) : bool := existsb (Z.eqb x) l.

(** ** Duration text (main.py, lines 104-117) *)

Definition format_hours `{Runtime} (hours : number) : string :=
  let hours :=
    if number_eq_int hours (int_of_number hours)
    then Int (int_of_number hours) else hours in
  match hours with
  | Float x => str_float x +:+ " години"
  | Int hours =>
      if (hours mod 10 =? 1) && negb (hours mod 100 =? 11) then
        str_int hours +:+ " година"
      else if int_in (hours mod 10) [2; 3; 4]
              && negb (int_in (hours mod 100) [12; 13; 14]) then
        str_int hours +:+ " години"
      else
        str_int hours +:+ " годин"
  end.

(** ** GitHub-style normalizer (main.py, lines 178-244) *)

(** [range(a, b)] *)
Definition range (a b : Z) : list Z := seqZ a (b - a).

(** [d.get(k, default)] on a dict of strings. *)
Definition get_default (d : gmap string string) (k : string) (dflt : string)
    : string :=
  default dflt (d !! k).

Definition is_all_yes (day_data : gmap string string) : bool :=
  forallb
    (fun hour => String.eqb (get_default day_data (str_int hour) "yes") "yes")
    (range 1 25).

(** The two halves [(first_half, second_half)] of one hour code. *)
Definition hour_halves (status : string) : bool * bool :=
  if String.eqb status "yes" then (true, true)
  else if String.eqb status "no" then (false, false)
  else if String.eqb status "first" then (false, true)
  else if String.eqb status "second" then (true, false)
  else (true, true).

Definition parse_github_day (day_data : gmap string string) : list bool :=
  foldl
    (fun slots hour =>
       let status := get_default day_data (str_int hour) "yes" in
       let '(first_half, second_half) := hour_halves status in
       slots ++ [first_half; second_half])
    [] (range 1 25).

(** One record of a provider's schedule: the dict with the keys [slots],
    [date] and [status]. *)
Record Entry `{Runtime} := mkEntry {
  e_slots : option (list bool);
  e_date : datetime;
  e_status : string
}.
Arguments mkEntry {_} _ _ _.

(** Inserts [v] under [date_str] in [result[group]]; [result[group]] exists
    whenever the source reaches such an assignment. *)
Definition set_record {V} (result : gmap string (gmap string V))
    (group date_str : string) (v : V) : gmap string (gmap string V) :=
  <[group := <[date_str := v]> (default ∅ (result !! group))]> result.

(** [sorted(keys, key=int)[:2]] over the keys of [fact_data], which the
    embedding holds as the integers [int(x)] reads from them. *)
Definition sorted_days {V} (fact_data : gmap Z V) : list Z :=
  take 2 (merge_sort Z.le (elements (dom fact_data))).

(** A [for] loop whose body may raise: the state is threaded through the
    elements in order and the first exception ends the loop. *)
Fixpoint for_each {A S} (xs : list A) (body : S -> A -> option S) (s : S)
    : option S :=
  match xs with
  | [] => Some s
  | x :: xs' =>
      match body s x with
      | Some s' => for_each xs' body s'
      | None => None
      end
  end.

(** The body of [for day_ts in sorted_days[:2]] for one [group]; nothing
    when [fromtimestamp] raises, which happens before anything is stored
    for the day. *)
Definition github_day_step `{Runtime}
    (fact_data : gmap Z (gmap string (gmap string string)))
    (group : string) (result : gmap string (gmap string Entry)) (day_ts : Z)
    : option (gmap string (gmap string Entry)) :=
  let day_data := default ∅ (fact_data !! day_ts) !! group in
  match day_data with
  | None => Some result
  | Some day_data =>
      if decide (day_data = ∅) then Some result
      else
        date ← fromtimestamp day_ts;
        let date_str := strftime date "%Y-%m-%d" in
        if is_all_yes day_data then
          Some (set_record result group date_str
                  (mkEntry None date "pending"))
        else
          let slots := parse_github_day day_data in
          Some (set_record result group date_str
                  (mkEntry (Some slots) date "normal"))
  end.

(** The body of [for group in groups]. *)
Definition github_group_step `{Runtime}
    (fact_data : gmap Z (gmap string (gmap string string)))
    (result : gmap string (gmap string Entry)) (group : string)
    : option (gmap string (gmap string Entry)) :=
  for_each (sorted_days fact_data) (github_day_step fact_data group)
           (<[group := ∅]> result).

(** [fact_data] is [data.get("fact", {}).get("data", {})]. Returns the
    schedules, or nothing when an exception escapes. *)
Definition extract_github_schedules `{Runtime}
    (fact_data : gmap Z (gmap string (gmap string string)))
    (groups : list string) : option (gmap string (gmap string Entry)) :=
  if decide (fact_data = ∅) then Some ∅
  else for_each groups (github_group_step fact_data) ∅.

(** ** Yasno-style normalizer (main.py, lines 249-304) *)

(** One element of a day's [slots] list: an interval in minutes of the day
    with a type tag. Each key may be missing. *)
Record YasnoInterval := mkInterval {
  iv_start : option Z;
  iv_end : option Z;
  iv_type : option string
}.

(** One day entry ([today] or [tomorrow]) of a group. *)
Record YasnoDay := mkYasnoDay {
  yd_date : option string;
  yd_status : option string;
  yd_slots : option (list YasnoInterval)
}.

(** [l[i] = v] on a Python list: a negative index counts from the end, and
    an index outside [-len(l), len(l)) raises [IndexError]. *)
Definition list_setitem {A} (l : list A) (i : Z) (v : A) : option (list A) :=
  let n := Z.of_nat (length l) in
  if (0 <=? i) && (i <? n) then Some (<[Z.to_nat i := v]> l)
  else if (- n <=? i) && (i <? 0) then Some (<[Z.to_nat (n + i) := v]> l)
  else None.

(** The body of [for slot in day_data["slots"]]. *)
Definition apply_interval (slots : list bool) (slot : YasnoInterval)
    : option (list bool) :=
  let start_idx := default 0 (iv_start slot) / 30 in
  let end_idx := default 0 (iv_end slot) / 30 in
  let is_on := bool_decide (iv_type slot = Some "NotPlanned") in
  for_each (range start_idx (Z.min end_idx 48))
           (fun slots i => list_setitem slots i is_on) slots.

(** Returns [(slots, status)], or nothing when an [IndexError] escapes. *)
Definition parse_yasno_day (day_data : YasnoDay)
    : option (option (list bool) * string) :=
  let status := default "" (yd_status day_data) in
  if String.eqb status "EmergencyShutdowns" then Some (None, "emergency")
  else
    match yd_slots day_data with
    | None | Some [] => Some (None, "pending")
    | Some intervals =>
        match for_each intervals apply_interval (replicate 48 true) with
        | Some slots => Some (Some slots, "normal")
        | None => None
        end
    end.

(** [group.replace("GPV", "")]: every occurrence of the substring, scanned
    from the left, is dropped. *)
Fixpoint replace_GPV (group : string) : string :=
  match group with
  | String "G"%char (String "P"%char (String "V"%char rest)) =>
      replace_GPV rest
  | String c rest => String c (replace_GPV rest)
  | EmptyString => EmptyString
  end.

(** The body of [for day_key in ["today", "tomorrow"]] for one [group]. *)
Definition yasno_day_step `{Runtime} (group_data : gmap string YasnoDay)
    (group : string) (result : gmap string (gmap string Entry))
    (day_key : string) : option (gmap string (gmap string Entry)) :=
  match group_data !! day_key with
  | None => Some result
  | Some day_data =>
      match yd_date day_data with
      | None => Some result
      | Some date_str_full =>
          date ← fromisoformat date_str_full;
          let date_str := strftime date "%Y-%m-%d" in
          '(slots, status) ← parse_yasno_day day_data;
          Some (set_record result group date_str (mkEntry slots date status))
      end
  end.

(** The body of [for group in groups]. *)
Definition yasno_group_step `{Runtime} (data : gmap string (gmap string YasnoDay))
    (result : gmap string (gmap string Entry)) (group : string)
    : option (gmap string (gmap string Entry)) :=
  let group_key := replace_GPV group in
  match data !! group_key with
  | None => Some result
  | Some group_data =>
      for_each ["today"; "tomorrow"]
               (yasno_day_step group_data group) (<[group := ∅]> result)
  end.

(** Returns the schedules, or nothing when an exception escapes. *)
Definition extract_yasno_schedules `{Runtime}
    (data : gmap string (gmap string YasnoDay)) (groups : list string)
    : option (gmap string (gmap string Entry)) :=
  if decide (data = ∅) then Some ∅
  else for_each groups (yasno_group_step data) ∅.

(** ** Schedule comparison and the cache (main.py, lines 341-390) *)

(** Truth value of an optional list: [None] and [[]] are false. *)
Definition truthy {A} (l : option (list A)) : bool :=
  match l with
  | Some (_ :: _) => true
  | _ => false
  end.

Definition schedules_match (slots1 slots2 : option (list bool)) : bool :=
  if negb (truthy slots1) || negb (truthy slots2) then false
  else bool_decide (slots1 = slots2).

(** What the cache keeps of a record: [slots] and [status]. *)
Record CacheEntry := mkCacheEntry {
  c_slots : option (list bool);
  c_status : string
}.

Global Instance CacheEntry_eq_dec : EqDecision CacheEntry.
Proof. solve_decision. Defined.

(** provider -> group -> date -> cached record *)
Abbreviation Cache := (gmap string (gmap string (gmap string CacheEntry))).

Definition to_cache_entry `{Runtime} (data : Entry) : CacheEntry :=
  mkCacheEntry (e_slots data) (e_status data).

Definition schedules_to_cache_format `{Runtime}
    (github_schedules yasno_schedules : gmap string (gmap string Entry))
    : Cache :=
  <["yasno" := fmap (fmap to_cache_entry) yasno_schedules]>
    (<["github" := fmap (fmap to_cache_entry) github_schedules]> ∅).

(** [cache_file] is what [json.load] reads from the cache file, or nothing
    when the file is missing or does not parse. *)
Definition load_cached_schedules (cache_file : option Cache) : Cache :=
  match cache_file with
  | Some cache => cache
  | None => <["yasno" := ∅]> (<["github" := ∅]> ∅)
  end.

Definition schedules_changed (new_cache old_cache : Cache) : bool :=
  negb (bool_decide (new_cache = old_cache)).

(** ** Configuration (main.py, lines 22-96)

    The parts of the global [CONFIG] that the schedule core reads. *)
Record Config := mkConfig {
  github_name : string;
  yasno_name : string;
  display_format : string;
  icon_power_on : string;
  icon_power_off : string;
  icon_calendar : string;
  icon_clock : string;
  icon_emergency : string;
  icon_pending : string;
  label_power_on : string;
  label_power_off : string;
  label_emergency : string;
  label_pending : string;
  label_updated : string;
  separator_source : string;
  separator_day : string;
  separator_table_row : string;
  template_group_header : string;
  template_day_header : string
}.

Definition DEFAULT_CONFIG : Config := {|
  github_name := "outage-data-ua";
  yasno_name := "yasno";
  display_format := "list";
  icon_power_on := "🟩";
  icon_power_off := "🟠";
  icon_calendar := "📆";
  icon_clock := "🕐";
  icon_emergency := "🚨";
  icon_pending := "⏳";
  label_power_on := "Світло є";
  label_power_off := "Світла нема";
  label_emergency := "АВАРІЙНЕ ВІДКЛЮЧЕННЯ!";
  label_pending := "Очікується інформація про графік";
  label_updated := "Оновлено";
  separator_source := "✧ ✧ ✧ ✧ ✧ ✧ ✧ ✧ ✧ ✧ ✧ ✧ ✧ ✧ ✧ ✧ ✧";
  separator_day := "■  ■  ■  ■  ■  ■  ■  ■  ■  ■  ■  ■  ■  ■  ■  ■  ■";
  separator_table_row := "----------------------------------------------";
  template_group_header := "============ ◉ {group} ◉ ============";
  template_day_header := "{icon}  {date} ({weekday}) [{sources}]:"
|}.

(** [DAYS_UA[n]] for a weekday number; the keys are 0..6, which is all
    [weekday()] returns. *)
Definition DAYS_UA (n : Z) : string :=
  match n with
  | 0 => "Понеділок"
  | 1 => "Вівторок"
  | 2 => "Середа"
  | 3 => "Четвер"
  | 4 => "П'ятниця"
  | 5 => "Субота"
  | _ => "Неділя"
  end.

(** ** Presenter (main.py, lines 395-529) *)

(** The newline character. *)
Definition nl : string := String "010"%char EmptyString.

(** [sep.join(lines)] *)
Definition join (sep : string) (lines : list string) : string :=
  String.concat sep lines.

Section Presenter.
Context `{Runtime} (CONFIG : Config).

Definition day_header (date : datetime) (sources : list string) : string :=
  let day_name := DAYS_UA (weekday date) in
  let date_str := strftime date "%d.%m" in
  let sources_str := join ", " sources in
  str_format (template_day_header CONFIG)
    [("icon", icon_calendar CONFIG); ("date", date_str);
     ("weekday", day_name); ("sources", sources_str)].

(** The two closing lines with the hours of power and of outage. *)
Definition totals_lines (total_on total_off : float) : list string :=
  [icon_power_on CONFIG +:+ " " +:+ label_power_on CONFIG +:+ ": "
     +:+ format_hours (Float total_on);
   icon_power_off CONFIG +:+ " " +:+ label_power_off CONFIG +:+ ": "
     +:+ format_hours (Float total_off)].

(** The lines of a special status, shared by both formats. *)
Definition special_lines (special_status : option string)
    : option (list string) :=
  if bool_decide (special_status = Some "emergency") then
    Some [icon_emergency CONFIG +:+ " " +:+ label_emergency CONFIG]
  else if bool_decide (special_status = Some "pending") then
    Some [icon_pending CONFIG +:+ " " +:+ label_pending CONFIG]
  else None.

(** The body of [for period in periods] of the list format; the state is
    [(lines, total_on, total_off)]. *)
Definition list_period_step (st : list string * float * float)
    (period : Period) : list string * float * float :=
  let '(lines, total_on, total_off) := st in
  let icon :=
    if p_is_on period then icon_power_on CONFIG else icon_power_off CONFIG in
  let time_range := p_start period +:+ " - " +:+ p_end period in
  let hours_text := format_hours (Float (p_hours period)) in
  let lines :=
    lines ++ [icon +:+ " " +:+ time_range +:+ " … (" +:+ hours_text +:+ ")"] in
  if p_is_on period
  then (lines, float_add total_on (p_hours period), total_off)
  else (lines, total_on, float_add total_off (p_hours period)).

Definition format_schedule_list (periods : list Period) (date : datetime)
    (sources : list string) (special_status : option string) : string :=
  let lines := [day_header date sources; ""] in
  match special_lines special_status with
  | Some special => join nl (lines ++ special)
  | None =>
      let '(lines, total_on, total_off) :=
        foldl list_period_step (lines, float_zero, float_zero) periods in
      join nl (lines ++ [""] ++ totals_lines total_on total_off)
  end.

(** The body of [for period in periods] of the table format. *)
Definition table_period_step (st : list string * float * float)
    (period : Period) : list string * float * float :=
  let '(lines, total_on, total_off) := st in
  let time_range := p_start period +:+ " - " +:+ p_end period in
  let hours_text := "(" +:+ format_hours (Float (p_hours period)) +:+ ")" in
  if p_is_on period
  then (lines ++ ["              |  " +:+ time_range +:+ "  | " +:+ hours_text],
        float_add total_on (p_hours period), total_off)
  else (lines ++ [time_range +:+ " |              | " +:+ hours_text],
        total_on, float_add total_off (p_hours period)).

Definition format_schedule_table (periods : list Period) (date : datetime)
    (sources : list string) (special_status : option string) : string :=
  let sep := separator_table_row CONFIG in
  let lines := [day_header date sources; ""] in
  match special_lines special_status with
  | Some special => join nl (lines ++ special)
  | None =>
      let lines :=
        lines ++ [sep;
          "   " +:+ icon_power_off CONFIG +:+ " " +:+ label_power_off CONFIG
          +:+ "    |       " +:+ icon_power_on CONFIG +:+ " "
          +:+ label_power_on CONFIG +:+ "      |   Час " +:+ icon_clock CONFIG;
          sep] in
      let '(lines, total_on, total_off) :=
        foldl table_period_step (lines, float_zero, float_zero) periods in
      join nl (lines ++ [sep; ""] ++ totals_lines total_on total_off)
  end.

Definition format_schedule_message (periods : list Period) (date : datetime)
    (sources : list string) (special_status : option string) : string :=
  if String.eqb (display_format CONFIG) "table"
  then format_schedule_table periods date sources special_status
  else format_schedule_list periods date sources special_status.

(** ** Reconciler (main.py, lines 532-635) *)

(** [slots_to_periods] applied to an optional list: [None] is false like
    [[]], and both give no period. *)
Definition periods_of (slots : option (list bool)) : list Period :=
  slots_to_periods (default [] slots).

(** [data] is a record with its three keys, so the opening test [if not
    data] never fires on it. *)
Definition format_single_source_message (data : Entry) (date : datetime)
    (source : string) : option string :=
  let slots := e_slots data in
  let status := e_status data in
  if String.eqb status "normal" && truthy slots then
    Some (format_schedule_message (periods_of slots) date [source] None)
  else if String.eqb status "pending" then
    Some (format_schedule_message [] date [source] (Some "pending"))
  else if String.eqb status "emergency" then
    Some (format_schedule_message [] date [source] (Some "emergency"))
  else None.

(** Truth value of an optional message: [None] and the empty string are
    false. *)
Definition truthy_msg (msg : option string) : list string :=
  match msg with
  | Some (String c s) => [String c s]
  | _ => []
  end.

(** The messages that [if data: msg = ...; if msg: append(msg)] adds for
    one provider. *)
Definition single_source_messages (data : option Entry) (date : datetime)
    (source : string) : list string :=
  match data with
  | Some data => truthy_msg (format_single_source_message data date source)
  | None => []
  end.

(** The body of [for date_str in sorted_dates], up to [source_messages]:
    the display units of one group on one date, from the two providers'
    records for it (nothing when the provider has none). *)
Definition day_source_messages (github_data yasno_data : option Entry)
    : list string :=
  let date :=
    match github_data, yasno_data with
    | Some d, _ => Some (e_date d)
    | None, Some d => Some (e_date d)
    | None, None => None
    end in
  match date with
  | None => []
  | Some date =>
      let github_slots := github_data ≫= e_slots in
      let yasno_slots := yasno_data ≫= e_slots in
      let github_status := e_status <$> github_data in
      let yasno_status := e_status <$> yasno_data in
      let both_normal :=
        bool_decide (github_status = Some "normal")
        && bool_decide (yasno_status = Some "normal")
        && truthy github_slots && truthy yasno_slots in
      if both_normal && schedules_match github_slots yasno_slots then
        [format_schedule_message (periods_of github_slots) date
           [github_name CONFIG; yasno_name CONFIG] None]
      else
        single_source_messages github_data date (github_name CONFIG)
        ++ single_source_messages yasno_data date (yasno_name CONFIG)
  end.

(** [d.get(group, {}).get(date_str)] *)
Definition get_record (schedules : gmap string (gmap string Entry))
    (group date_str : string) : option Entry :=
  default ∅ (schedules !! group) !! date_str.

Definition format_group_message (group : string)
    (github_schedules yasno_schedules : gmap string (gmap string Entry))
    : option string :=
  let group_num := replace_GPV group in
  let header :=
    str_format (template_group_header CONFIG) [("group", group_num)] in
  let all_dates : gset string :=
    dom (default ∅ (github_schedules !! group))
    ∪ dom (default ∅ (yasno_schedules !! group)) in
  if decide (all_dates = ∅) then None
  else
    let sorted_dates := take 2 (merge_sort String.le (elements all_dates)) in
    let day_blocks :=
      foldl
        (fun day_blocks date_str =>
           let source_messages :=
             day_source_messages
               (get_record github_schedules group date_str)
               (get_record yasno_schedules group date_str) in
           match source_messages with
           | [] => day_blocks
           | _ :: _ =>
               day_blocks
               ++ [join (nl +:+ separator_source CONFIG +:+ nl)
                        source_messages]
           end)
        [] sorted_dates in
    match day_blocks with
    | [] => None
    | _ :: _ =>
        let days_text :=
          join (nl +:+ separator_day CONFIG +:+ nl) day_blocks in
        Some (header +:+ nl +:+ days_text)
    end.

End Presenter.

(** ** Vocabulary of the specification

    The notions the specification uses to state its properties and that
    the program does not compute itself. *)

(** The value of a decimal digit. *)
Definition digit_value (c : ascii) : option Z :=
  let n := Z.of_N (N_of_ascii c) in
  if (48 <=? n) && (n <=? 57) then Some (n - 48) else None.

(** The slot boundary a rendered time [HH:MM] stands for: its minute of
    the day divided by thirty. *)
Definition slot_of_time (t : string) : option Z :=
  match t with
  | String h1 (String h2 (String ":"%char (String m1 (String m2 EmptyString)))) =>
      h1 ← digit_value h1;
      h2 ← digit_value h2;
      m1 ← digit_value m1;
      m2 ← digit_value m2;
      Some (((10 * h1 + h2) * 60 + (10 * m1 + m2)) / 30)
  | _ => None
  end.

(** Re-expansion of a period: one copy of [is_on] per slot between the
    boundaries read back from its two rendered times. *)
Definition expand_period (p : Period) : list bool :=
  match slot_of_time (p_start p), slot_of_time (p_end p) with
  | Some a, Some b => replicate (Z.to_nat (b - a)) (p_is_on p)
  | _, _ => []
  end.

Definition periods_to_slots (periods : list Period) : list bool :=
  flat_map expand_period periods.

(** [periods] cover the slots from [a] to [c] without gap or overlap: each
    one runs from a boundary to a strictly later one where the next
    begins, and its [hours] are half the number of its slots. *)
Fixpoint partitions (a : Z) (periods : list Period) (c : Z) : Prop :=
  match periods with
  | [] => a = c
  | p :: periods' =>
      ∃ b, a < b
           ∧ p_start p = format_slot_time a
           ∧ p_end p = format_slot_time b
           ∧ Qeq (p_hours p) (Qmult (inject_Z (b - a)) (Qmake 1 2))
           ∧ partitions b periods' c
  end.

(** Neighbours in the list differ. *)
Fixpoint alternating (l : list bool) : Prop :=
  match l with
  | x :: (y :: _) as l' => x ≠ y ∧ alternating l'
  | _ => True
  end.

(** The invariant of a DaySchedule: status [normal] with a non-empty slot
    array, or [pending] or [emergency] with none. *)
Definition is_day_schedule `{Runtime} (e : Entry) : Prop :=
  (e_status e = "normal" ∧ truthy (e_slots e) = true)
  ∨ ((e_status e = "pending" ∨ e_status e = "emergency") ∧ e_slots e = None).

Definition is_day_schedule_opt `{Runtime} (o : option Entry) : Prop :=
  match o with
  | Some e => is_day_schedule e
  | None => True
  end.

(** A display unit: what one call of the presenter is given. *)
Record DisplayUnit `{Runtime} := mkUnit {
  u_periods : list Period;
  u_date : datetime;
  u_sources : list string;
  u_special : option string
}.
Arguments mkUnit {_} _ _ _ _.

Definition render_unit `{Runtime} (CONFIG : Config) (u : DisplayUnit) : string :=
  format_schedule_message CONFIG
    (u_periods u) (u_date u) (u_sources u) (u_special u).

(** The reconciler's decision as the specification words it: both
    providers [normal] with non-empty, element-wise identical arrays. *)
Definition providers_agree `{Runtime} (github_data yasno_data : option Entry)
    : Prop :=
  ∃ g y s, github_data = Some g ∧ yasno_data = Some y
           ∧ e_status g = "normal" ∧ e_status y = "normal"
           ∧ s ≠ [] ∧ e_slots g = Some s ∧ e_slots y = Some s.

(** The independent unit of one provider's DaySchedule. *)
Definition own_unit `{Runtime} (e : Entry) (date : datetime) (source : string)
    : DisplayUnit :=
  if String.eqb (e_status e) "normal"
  then mkUnit (slots_to_periods (default [] (e_slots e))) date [source] None
  else mkUnit [] date [source] (Some (e_status e)).

(** Every record of a provider's schedules is a DaySchedule, and its slot
    array, when it has one, is a SlotArray of 48 slots. *)
Definition all_day_schedules `{Runtime}
    (schedules : gmap string (gmap string Entry)) : Prop :=
  ∀ group dates date_str e,
    schedules !! group = Some dates → dates !! date_str = Some e →
    is_day_schedule e ∧ ∀ slots, e_slots e = Some slots → length slots = 48%nat.

(** The date the reconciler renders a day with: the GitHub record's when
    there is one, else the Yasno record's. *)
Definition first_date `{Runtime} (github_data yasno_data : option Entry)
    : option datetime :=
  match github_data, yasno_data with
  | Some d, _ => Some (e_date d)
  | None, Some d => Some (e_date d)
  | None, None => None
  end.

(** One unit of its own for each provider that has a record for the date,
    GitHub first; a provider without a record adds nothing. *)
Definition separate_units `{Runtime} (CONFIG : Config)
    (github_data yasno_data : option Entry) : list DisplayUnit :=
  match first_date github_data yasno_data with
  | None => []
  | Some date =>
      option_list ((fun e => own_unit e date (github_name CONFIG)) <$> github_data)
      ++ option_list ((fun e => own_unit e date (yasno_name CONFIG)) <$> yasno_data)
  end.

(** Deep structural equality of two caches: the same keys at every level
    and, under them, the same [status] and the same [slots]. *)
Definition same_entry (e1 e2 : CacheEntry) : Prop :=
  c_status e1 = c_status e2 ∧ c_slots e1 = c_slots e2.

Definition same_dict {V} (same : V → V → Prop) (m1 m2 : gmap string V) : Prop :=
  ∀ k, match m1 !! k, m2 !! k with
       | Some v1, Some v2 => same v1 v2
       | None, None => True
       | _, _ => False
       end.

Definition same_cache (c1 c2 : Cache) : Prop :=
  same_dict (same_dict (same_dict same_entry)) c1 c2.

(** The cached dates of a provider's group, and the cached record under
    a provider, a group and a date. *)
Definition cache_group (c : Cache) (provider group : string)
    : option (gmap string CacheEntry) :=
  groups ← c !! provider; groups !! group.

Definition cache_lookup (c : Cache) (provider group date_str : string)
    : option CacheEntry :=
  dates ← cache_group c provider group; dates !! date_str.

(** Single alterations of a cache: of the record under one path, by
    flipping one slot or by replacing the status; of one group's dates, by
    dropping a date; of one provider's groups, by dropping a group. *)
Definition alter_entry (f : CacheEntry → CacheEntry)
    (provider group date_str : string) (c : Cache) : Cache :=
  alter (alter (alter f date_str) group) provider c.

Definition flip_slot (i : nat) (e : CacheEntry) : CacheEntry :=
  mkCacheEntry (alter negb i <$> c_slots e) (c_status e).

Definition with_status (status : string) (e : CacheEntry) : CacheEntry :=
  mkCacheEntry (c_slots e) status.

Definition remove_date (provider group date_str : string) (c : Cache) : Cache :=
  alter (alter (delete date_str) group) provider c.

Definition remove_group (provider group : string) (c : Cache) : Cache :=
  alter (delete group) provider c.

(** The hour code a day payload resolves to for [hour]. *)
Definition hour_code (day_data : gmap string string) (hour : Z) : string :=
  get_default day_data (str_int hour) "yes".

(** Every hour key 1..24 is absent or maps to [yes]. *)
Definition all_absent_or_yes (day_data : gmap string string) : Prop :=
  ∀ hour, 1 <= hour <= 24 →
    day_data !! str_int hour = None ∨ day_data !! str_int hour = Some "yes".

(** The number [hours] is exactly the integer [n], as an [int] or as a
    float of that value. *)
Definition number_is_int (hours : number) (n : Z) : Prop :=
  match hours with
  | Int m => m = n
  | Float x => Qeq x (inject_Z n)
  end.

(** A bare numeric group suffix such as [12.1]: digits and dots only. *)
Fixpoint numeric_suffix (s : string) : Prop :=
  match s with
  | EmptyString => True
  | String c rest =>
      (is_Some (digit_value c) ∨ c = "."%char) ∧ numeric_suffix rest
  end.

(** ** A small runtime for closed examples

    Dates are kept as their ISO text, a timestamp is kept as its digits and
    gives a date when its time, in UTC and in Kyiv, falls in the years 1 to
    9999, a float prints as its integer part followed by [.5] or [.0] (the
    floats of the program are multiples of one half), and a template is
    returned as it is. *)
Definition example_str_float (x : float) : string :=
  let n := Z.div (Qnum x) (Zpos (Qden x)) in
  if Qeq_bool x (inject_Z n) then str_int n +:+ ".0" else str_int n +:+ ".5".

Definition example_runtime : Runtime := {|
  datetime := string;
  fromtimestamp := fun ts =>
    if (-62135596800 <=? ts) && (253402293599 >=? ts)
    then Some (str_int ts) else None;
  fromisoformat := fun s => Some (String.substring 0 10 s);
  strftime := fun d _ => d;
  weekday := fun _ => 0;
  str_float := example_str_float;
  str_format := fun template _ => template
|}.

(** ** Further vocabulary: counts of slots and sums of hours *)

(** The number of slots of an array that have the value [v]. *)
Definition count_slots (v : bool) (slots : list bool) : Z :=
  Z.of_nat (length (filter (fun b => b = v) slots)).

(** The exact sum of the [hours] of the periods whose [is_on] is [v]. *)
Definition hours_total (v : bool) (periods : list Period) : Q :=
  foldr (fun p acc => if Bool.eqb (p_is_on p) v
                      then Qplus (p_hours p) acc else acc)
        (Qmake 0 1) periods.

(** The minute of the day a rendered time [HH:MM] stands for. *)
Definition minutes_of_time (t : string) : option Z :=
  match t with
  | String h1 (String h2 (String ":"%char (String m1 (String m2 EmptyString)))) =>
      h1 ← digit_value h1;
      h2 ← digit_value h2;
      m1 ← digit_value m1;
      m2 ← digit_value m2;
      Some ((10 * h1 + h2) * 60 + (10 * m1 + m2))
  | _ => None
  end.


(** Where a record of the GitHub-style normalizer comes from: a timestamp
    among the days considered, under which the group has a non-empty
    payload, and whose date is the record's key and date; the record is
    [pending] without slots when the payload is all [yes], and [normal]
    with the slots of [parse_github_day] when not. *)
Definition github_record_origin `{Runtime}
    (fact_data : gmap Z (gmap string (gmap string string)))
    (days : list Z) (group date_str : string) (e : Entry) : Prop :=
  ∃ day_ts day_data date,
    day_ts ∈ days
    ∧ default ∅ (fact_data !! day_ts) !! group = Some day_data
    ∧ day_data ≠ ∅
    ∧ fromtimestamp day_ts = Some date
    ∧ date_str = strftime date "%Y-%m-%d"
    ∧ e_date e = date
    ∧ (e_slots e, e_status e)
      = if is_all_yes day_data then (None, "pending")
        else (Some (parse_github_day day_data), "normal").

(** What the day loop of the GitHub-style normalizer keeps for [group]
    after the days [seen]. *)
Definition github_days_inv `{Runtime}
    (fact_data : gmap Z (gmap string (gmap string string)))
    (group : string) (seen : list Z)
    (result : gmap string (gmap string Entry)) : Prop :=
  ∃ dates,
    result !! group = Some dates
    ∧ (size dates ≤ length seen)%nat
    ∧ ∀ date_str e, dates !! date_str = Some e →
        github_record_origin fact_data seen group date_str e.

(** The slot indices and the value of a Yasno interval, as
    [parse_yasno_day] computes them. *)
Definition interval_start_idx (slot : YasnoInterval) : Z :=
  default 0 (iv_start slot) / 30.

Definition interval_end_idx (slot : YasnoInterval) : Z :=
  default 0 (iv_end slot) / 30.

Definition interval_is_on (slot : YasnoInterval) : bool :=
  bool_decide (iv_type slot = Some "NotPlanned").

(** Slot [j] of a 48-slot array is written by the interval: [j] itself is
    one of the indices from the start up to [min(end, 48)], or the
    negative index [j - 48] is. *)
Definition interval_writes (slot : YasnoInterval) (j : Z) : bool :=
  ((interval_start_idx slot <=? j)
   && (j <? Z.min (interval_end_idx slot) 48))
  || ((interval_start_idx slot <=? j - 48)
      && (j - 48 <? interval_end_idx slot)).

(** The interval has an index to write, and its first one lies before
    [-48]. *)
Definition interval_raises (slot : YasnoInterval) : bool :=
  (interval_start_idx slot <? -48)
  && (interval_start_idx slot <? Z.min (interval_end_idx slot) 48).

(** The value of slot [j] after the intervals are applied in order to a
    slot that held [init]: that of the last interval that writes [j]. *)
Definition last_write (intervals : list YasnoInterval) (init : bool) (j : Z)
    : bool :=
  foldl (fun cur slot =>
           if interval_writes slot j then interval_is_on slot else cur)
        init intervals.

(** The position in a list of length [n] that the index [i] of Python
    stands for. *)
Definition index_position (n : nat) (i : Z) : nat :=
  if 0 <=? i then Z.to_nat i else Z.to_nat (Z.of_nat n + i).

(** The day entry under [day_key] makes the Yasno-style normalizer raise:
    it has a date, and the date does not parse or the day's intervals
    raise. *)
Definition yasno_day_fails `{Runtime} (group_data : gmap string YasnoDay)
    (day_key : string) : Prop :=
  ∃ day_data date_str_full,
    group_data !! day_key = Some day_data
    ∧ yd_date day_data = Some date_str_full
    ∧ (fromisoformat date_str_full = None ∨ parse_yasno_day day_data = None).

(** Where a record of the Yasno-style normalizer comes from: a day entry
    of the group under one of [day_keys], with a date that parses, stored
    under that date with what [parse_yasno_day] returns for the day. *)
Definition yasno_record_origin `{Runtime} (group_data : gmap string YasnoDay)
    (day_keys : list string) (date_str : string) (e : Entry) : Prop :=
  ∃ day_key day_data date_str_full date,
    day_key ∈ day_keys
    ∧ group_data !! day_key = Some day_data
    ∧ yd_date day_data = Some date_str_full
    ∧ fromisoformat date_str_full = Some date
    ∧ date_str = strftime date "%Y-%m-%d"
    ∧ e_date e = date
    ∧ parse_yasno_day day_data = Some (e_slots e, e_status e).

(** What the day loop of the Yasno-style normalizer keeps for [group]
    after the day keys [seen]. *)
Definition yasno_days_inv `{Runtime} (group_data : gmap string YasnoDay)
    (group : string) (seen : list string)
    (result : gmap string (gmap string Entry)) : Prop :=
  ∃ dates,
    result !! group = Some dates
    ∧ (size dates ≤ length seen)%nat
    ∧ ∀ date_str e, dates !! date_str = Some e →
        yasno_record_origin group_data seen date_str e.

(** What holds of every entry of the Yasno-style normalizer's result. *)
Definition yasno_groups_inv `{Runtime}
    (data : gmap string (gmap string YasnoDay))
    (result : gmap string (gmap string Entry)) : Prop :=
  ∀ group dates,
    result !! group = Some dates →
    ∃ group_data,
      data !! replace_GPV group = Some group_data
      ∧ (size dates ≤ 2)%nat
      ∧ ∀ date_str e, dates !! date_str = Some e →
          yasno_record_origin group_data ["today"; "tomorrow"] date_str e.

(** ** The whole message (main.py, lines 638-661) *)

(** [now] is what [get_kyiv_now()] returns when the message is built. *)
Definition format_full_message `{Runtime} (CONFIG : Config) (now : datetime)
    (github_schedules yasno_schedules : gmap string (gmap string Entry))
    (groups : list string) : option string :=
  let all_group_messages :=
    foldl
      (fun all_group_messages group =>
         match format_group_message CONFIG group
                 github_schedules yasno_schedules with
         | Some (String c s) => all_group_messages ++ [String c s]
         | _ => all_group_messages
         end)
      [] groups in
  match all_group_messages with
  | [] => None
  | _ :: _ =>
      let update_time := strftime now "%d.%m.%Y ⠅%H:%M" in
      let footer :=
        nl +:+ nl +:+ icon_clock CONFIG +:+ " " +:+ label_updated CONFIG
        +:+ ": " +:+ update_time +:+ " (Київ)" in
      Some (join (nl +:+ nl +:+ nl) all_group_messages +:+ footer)
  end.

(** Two sets of schedules that the cache cannot tell apart: the same
    groups, and under each group and date the same slots and status. *)
Definition same_schedules `{Runtime}
    (s1 s2 : gmap string (gmap string Entry)) : Prop :=
  ∀ group,
    (is_Some (s1 !! group) ↔ is_Some (s2 !! group))
    ∧ ∀ date_str,
        to_cache_entry <$> get_record s1 group date_str
        = to_cache_entry <$> get_record s2 group date_str.

(** The group has no record in the schedules. *)
Definition no_records `{Runtime}
    (schedules : gmap string (gmap string Entry)) (group : string) : Prop :=
  ∀ date_str, get_record schedules group date_str = None.

(** ** The run: Telegram calls, files and [main] (main.py, lines 136-173
    and 666-850)

    What a run does to the outside is kept as the list of its effects, in
    order; [print] calls only write to the log and are left out, and
    writing one of the two files is taken to succeed. *)
Inductive Effect :=
  | TelegramSend (text : string)
  | TelegramPin (message_id : Z)
  | TelegramDelete (message_id : Z)
  | SaveMessageIds (ids : list Z)
  | SaveCache (cache : Cache).

(** A computation with effects that may raise: the effects made so far,
    and the result unless an exception escaped. *)
Definition Run (A : Type) : Type := list Effect * option A.

Definition run_ret {A} (x : A) : Run A := ([], Some x).

Definition run_bind {A B} (m : Run A) (k : A → Run B) : Run B :=
  match m with
  | (effects, Some x) => let '(effects', r) := k x in (effects ++ effects', r)
  | (effects, None) => (effects, None)
  end.

Definition run_emit (e : Effect) : Run unit := ([e], Some tt).

Definition run_raise {A} : Run A := ([], None).

Notation "'let*' x := m 'in' k" := (run_bind m (fun x => k))
  (at level 10, x name, m at level 100, k at level 200).
Notation "m >>> k" := (run_bind m (fun _ => k))
  (at level 90, right associativity).

(** The parts of the global [CONFIG] that the run reads besides the
    display settings: [groups], the [enabled] flags of the two sources,
    and [telegram.max_messages] and [telegram.pin_messages]. *)
Record Settings := mkSettings {
  cfg_groups : list string;
  github_enabled : bool;
  yasno_enabled : bool;
  max_messages : Z;
  pin_messages : bool
}.

(** What the run finds outside: whether both Telegram credentials are set,
    what the two providers answer ([None] when the request raises; the
    GitHub answer is held as its [fact.data] part, empty when missing),
    the two files ([None] when missing or unreadable), the [message_id] in
    Telegram's reply to a sent text ([None] when the post raises or the
    reply has none), and the clock. *)
Record World `{Runtime} := mkWorld {
  telegram_credentials : bool;
  github_response : option (gmap Z (gmap string (gmap string string)));
  yasno_response : option (gmap string (gmap string YasnoDay));
  cache_file : option Cache;
  message_ids_file : option (list Z);
  telegram_reply : string → option Z;
  clock : datetime
}.
Arguments mkWorld {_} _ _ _ _ _ _ _.

Section Run.
Context `{Runtime} (CONFIG : Config) (SETTINGS : Settings) (world : World).

Definition fetch_github_data
    : option (gmap Z (gmap string (gmap string string))) :=
  if negb (github_enabled SETTINGS) then None else github_response world.

Definition fetch_yasno_data : option (gmap string (gmap string YasnoDay)) :=
  if negb (yasno_enabled SETTINGS) then None else yasno_response world.

Definition load_message_ids : list Z :=
  match message_ids_file world with
  | Some ids => ids
  | None => []
  end.

Definition send_telegram_message (message : string) : Run (option Z) :=
  if negb (telegram_credentials world) then run_ret None
  else run_emit (TelegramSend message)
       >>> run_ret (telegram_reply world message).

(** The result, [True] or [False], is used by no caller and is left out. *)
Definition pin_message (message_id : Z) : Run unit :=
  if negb (pin_messages SETTINGS) then run_ret tt
  else if negb (telegram_credentials world) then run_ret tt
  else run_emit (TelegramPin message_id).

(** As for [pin_message], the result is left out. *)
Definition delete_message (message_id : Z) : Run unit :=
  if negb (telegram_credentials world) then run_ret tt
  else run_emit (TelegramDelete message_id).

(** [while len(message_ids) > max_messages: old_id = message_ids.pop(0);
    delete_message(old_id)]; [pop] raises on an empty list. *)
Fixpoint trim_message_ids (max_messages : Z) (message_ids : list Z)
    : Run (list Z) :=
  match message_ids with
  | [] =>
      if Z.of_nat (length message_ids) >? max_messages
      then run_raise else run_ret message_ids
  | old_id :: rest =>
      if Z.of_nat (length message_ids) >? max_messages
      then delete_message old_id >>> trim_message_ids max_messages rest
      else run_ret message_ids
  end.

Definition manage_messages (new_message_id : Z) : Run unit :=
  let max_messages := max_messages SETTINGS in
  let message_ids := load_message_ids in
  pin_message new_message_id >>>
  (let message_ids := message_ids ++ [new_message_id] in
   let* message_ids := trim_message_ids max_messages message_ids in
   run_emit (SaveMessageIds message_ids)).

(** An exception raised by a normalizer escapes [main]. *)
Definition run_lift {A} (r : option A) : Run A := ([], r).

(** [extract_..._schedules(data, groups) if data else {}]: an answer that
    is an empty object is not passed on, and each normalizer returns [{}]
    for it as well, so the test on [data] is the test for [None].
    Bookkeeping and the saving of the cache follow [if message_id], that
    is, with an id that is neither [None] nor zero. *)
Definition main : Run unit :=
  let groups := cfg_groups SETTINGS in
  if negb (github_enabled SETTINGS) && negb (yasno_enabled SETTINGS)
  then run_ret tt
  else
    let github_data := fetch_github_data in
    let yasno_data := fetch_yasno_data in
    let github_ok := bool_decide (github_data ≠ None) in
    let yasno_ok := bool_decide (yasno_data ≠ None) in
    if negb github_ok && negb yasno_ok then run_ret tt
    else
      let* github_schedules :=
        match github_data with
        | Some data => run_lift (extract_github_schedules data groups)
        | None => run_ret ∅
        end in
      let* yasno_schedules :=
        match yasno_data with
        | Some data => run_lift (extract_yasno_schedules data groups)
        | None => run_ret ∅
        end in
      let new_cache :=
        schedules_to_cache_format github_schedules yasno_schedules in
      let old_cache := load_cached_schedules (cache_file world) in
      if negb (schedules_changed new_cache old_cache) then run_ret tt
      else
        match format_full_message CONFIG (clock world)
                github_schedules yasno_schedules groups with
        | Some (String c s) =>
            let* message_id := send_telegram_message (String c s) in
            match message_id with
            | Some message_id =>
                if message_id =? 0 then run_ret tt
                else
                  manage_messages message_id
                  >>> run_emit (SaveCache new_cache)
            | None => run_ret tt
            end
        | _ => run_ret tt
        end.

End Run.

(** The effects of message bookkeeping: pinning, deleting, and saving the
    list of message ids. *)
Definition is_housekeeping (e : Effect) : Prop :=
  match e with
  | TelegramPin _ | TelegramDelete _ | SaveMessageIds _ => True
  | TelegramSend _ | SaveCache _ => False
  end.

(** ** Configuration merge (main.py, lines 74-82)

    A JSON value is an object, or anything else; only objects are looked
    into. *)
#[local] Set Warnings "-register-all".
Inductive Json (A : Type) : Type :=
  | JAtom (a : A)
  | JDict (d : gmap string (Json A)).
Arguments JAtom {_} _.
Arguments JDict {_} _.

(** The value that the loop of [deep_merge] stores under [key]:
    [deep_merge(result[key], value)] when [key in result] and both
    [result[key]] and [value] are objects, else [value]. The loop visits
    each key of [override] once and only reads and writes [result[key]],
    so the order of [override.items()] plays no part. *)
Fixpoint merge_value {A} (old : option (Json A)) (value : Json A)
    {struct value} : Json A :=
  match old, value with
  | Some (JDict base), JDict override =>
      JDict (map_fold
               (fun key value result =>
                  <[key := merge_value (result !! key) value]> result)
               base override)
  | _, _ => value
  end.

Definition deep_merge {A} (base override : gmap string (Json A))
    : gmap string (Json A) :=
  let result := base in
  map_fold
    (fun key value result =>
       <[key := merge_value (result !! key) value]> result)
    result override.

(** [d[k1][k2]...[kn]], as the program reads its configuration; [None] for
    a [KeyError] or when a value on the way is not an object. *)
Fixpoint get_path {A} (path : list string) (d : gmap string (Json A))
    : option (Json A) :=
  match path with
  | [] => None
  | key :: rest =>
      match d !! key, rest with
      | None, _ => None
      | Some value, [] => Some value
      | Some (JDict d'), _ :: _ => get_path rest d'
      | Some (JAtom _), _ :: _ => None
      end
  end.

(** [override] says nothing about [path]: on the way down it holds objects
    only, and at some key of the path it has no entry. *)
Fixpoint untouched {A} (path : list string) (override : gmap string (Json A))
    : Prop :=
  match path with
  | [] => False
  | key :: rest =>
      match override !! key with
      | None => True
      | Some (JDict d') => untouched rest d'
      | Some (JAtom _) => False
      end
  end.

(** What holds of the state [(periods, current_status, start_slot)] of the
    compressor's loop before it reads [slots[i]]; [prefix] is
    [slots[:i]]. *)
Definition loop_inv (prefix : list bool) (i : Z)
    (periods : list Period) (current_status : bool) (start_slot : Z) : Prop :=
  0 <= start_slot < i
  ∧ i = Z.of_nat (length prefix)
  ∧ partitions 0 periods start_slot
  ∧ periods_to_slots periods
      ++ replicate (Z.to_nat (i - start_slot)) current_status = prefix
  ∧ alternating (map p_is_on periods ++ [current_status]).

(** * Properties *)

(** ** Time rendering *)

Lemma slot_of_time_format (a : Z) :
  0 <= a <= 48 → slot_of_time (format_slot_time a) = Some a.
Proof.
  intros Ha.
  assert (Hall : forallb
            (fun a => bool_decide (slot_of_time (format_slot_time a) = Some a))
            (seqZ 0 49) = true) by (vm_compute; reflexivity).
  rewrite forallb_forall in Hall.
  specialize (Hall a). rewrite bool_decide_eq_true in Hall.
  apply Hall, list_elem_of_In, elem_of_seqZ. lia.
Qed.

(** ** Period compressor *)

Lemma int_times_float_half (n : Z) :
  Qeq (int_times_float n float_half) (Qmult (inject_Z n) (Qmake 1 2)).
Proof. unfold int_times_float, float_half. apply Qred_correct. Qed.

Lemma partitions_snoc (a b c : Z) (periods : list Period) (p : Period) :
  partitions a periods b → b < c →
  p_start p = format_slot_time b → p_end p = format_slot_time c →
  Qeq (p_hours p) (Qmult (inject_Z (c - b)) (Qmake 1 2)) →
  partitions a (periods ++ [p]) c.
Proof.
  revert a. induction periods as [|q periods IH]; simpl; intros a Hp Hbc Hs He Hh.
  - subst a. exists c. done.
  - destruct Hp as (b' & ? & ? & ? & ? & Hp). exists b'. eauto 10.
Qed.

Lemma partitions_le (a c : Z) (periods : list Period) :
  partitions a periods c → a <= c.
Proof.
  revert a. induction periods as [|q periods IH]; simpl; intros a Hp.
  - lia.
  - destruct Hp as (b & ? & _ & _ & _ & Hp). apply IH in Hp. lia.
Qed.

Lemma alternating_snoc (l : list bool) (x y : bool) :
  alternating (l ++ [x]) → x ≠ y → alternating ((l ++ [x]) ++ [y]).
Proof.
  induction l as [|z l IH]; simpl; intros Hl Hxy.
  - done.
  - destruct l as [|w l]; simpl in *.
    + destruct Hl. done.
    + destruct Hl as [? Hl]. split; [done|]. by apply IH.
Qed.

Lemma periods_to_slots_snoc (periods : list Period) (p : Period) :
  periods_to_slots (periods ++ [p]) = periods_to_slots periods ++ expand_period p.
Proof.
  unfold periods_to_slots. rewrite flat_map_app. simpl. by rewrite app_nil_r.
Qed.

Lemma expand_period_rendered (a b : Z) (v : bool) (h : float) :
  0 <= a <= 48 → 0 <= b <= 48 →
  expand_period (mkPeriod (format_slot_time a) (format_slot_time b) v h)
  = replicate (Z.to_nat (b - a)) v.
Proof.
  intros Ha Hb. unfold expand_period. simpl.
  by rewrite !slot_of_time_format.
Qed.

Lemma periods_loop_inv (rest : list bool) :
  ∀ prefix i periods current_status start_slot,
    loop_inv prefix i periods current_status start_slot →
    i + Z.of_nat (length rest) <= 48 →
    ∀ periods' current_status' start_slot',
      periods_loop rest i periods current_status start_slot
      = (periods', current_status', start_slot') →
      loop_inv (prefix ++ rest) (i + Z.of_nat (length rest))
               periods' current_status' start_slot'.
Proof.
  induction rest as [|x rest IH];
    intros prefix i periods cur start Hinv Hlen periods' cur' start' Hloop.
  - simpl in *. injection Hloop as <- <- <-.
    rewrite app_nil_r, Z.add_0_r. done.
  - simpl in Hloop. cbn [length] in *. rewrite Nat2Z.inj_succ in Hlen |- *.
    destruct Hinv as (Hstart & Hi & Hpart & Hexp & Halt).
    replace (prefix ++ x :: rest) with ((prefix ++ [x]) ++ rest)
      by (by rewrite <- app_assoc).
    replace (i + Z.succ (Z.of_nat (length rest)))
      with ((i + 1) + Z.of_nat (length rest)) by lia.
    destruct (Bool.eqb x cur) eqn:Hx; simpl in Hloop.
    + apply Bool.eqb_prop in Hx. subst x.
      eapply IH; [|lia|exact Hloop].
      repeat split; [lia|lia| |done| |done].
      * rewrite length_app. simpl. lia.
      * rewrite <- Hexp, <- app_assoc. f_equal.
        replace (Z.to_nat (i + 1 - start)) with (Z.to_nat (i - start) + 1)%nat
          by lia.
        by rewrite replicate_add.
    + apply Bool.eqb_false_iff in Hx.
      eapply IH; [|lia|exact Hloop].
      repeat split; [lia|lia| | | |].
      * rewrite length_app. simpl. lia.
      * eapply partitions_snoc; [exact Hpart|lia|done|done|].
        apply int_times_float_half.
      * rewrite periods_to_slots_snoc, expand_period_rendered by lia.
        rewrite Hexp. f_equal.
        by replace (Z.to_nat (i + 1 - i)) with 1%nat by lia.
      * rewrite map_app. simpl. apply alternating_snoc; [done|congruence].
Qed.

(** The three facts about the compressor's output that the round-trip law
    and the partition invariant rest on, for any non-empty array of at
    most 48 slots. *)
Lemma slots_to_periods_inv (slots : list bool) :
  slots ≠ [] → Z.of_nat (length slots) <= 48 →
  partitions 0 (slots_to_periods slots) (Z.of_nat (length slots))
  ∧ periods_to_slots (slots_to_periods slots) = slots
  ∧ alternating (map p_is_on (slots_to_periods slots)).
Proof.
  destruct slots as [|s0 rest]; [done|]. intros _ Hlen.
  unfold slots_to_periods.
  destruct (periods_loop rest 1 [] s0 0) as [[periods cur] start] eqn:Hloop.
  assert (Hinv : loop_inv [s0] 1 [] s0 0).
  { repeat split; simpl; try lia; done. }
  eapply periods_loop_inv in Hloop; [|exact Hinv|simpl length in Hlen; lia].
  destruct Hloop as (Hstart & Hi & Hpart & Hexp & Halt).
  simpl app in *. simpl length in *.
  replace (1 + Z.of_nat (length rest)) with (Z.of_nat (S (length rest))) in *
    by lia.
  split; [|split].
  - eapply partitions_snoc; [exact Hpart|lia|done|done|].
    apply int_times_float_half.
  - rewrite periods_to_slots_snoc, expand_period_rendered by lia. exact Hexp.
  - rewrite map_app. exact Halt.
Qed.

(** C1. Round-trip law: expanding the periods of a 48-slot array, one copy
    of [is_on] per slot between the boundaries read back from the rendered
    times, gives the array back. *)
Theorem slots_to_periods_round_trip (slots : list bool) :
  length slots = 48%nat →
  periods_to_slots (slots_to_periods slots) = slots.
Proof.
  intros Hlen. apply slots_to_periods_inv.
  - intros ->. discriminate.
  - lia.
Qed.

Lemma slots_to_periods_round_trip_witness :
  let slots := replicate 14 true ++ replicate 8 false ++ replicate 26 true in
  length slots = 48%nat ∧ periods_to_slots (slots_to_periods slots) = slots.
Proof.
  split; [reflexivity|].
  apply (slots_to_periods_round_trip
           (replicate 14 true ++ replicate 8 false ++ replicate 26 true)).
  reflexivity.
Defined.

(** C2. Partition invariant: the periods of a 48-slot array cover the slots
    0 to 48 in order, each ending at a later boundary where the next one
    starts, with [hours] half the number of slots covered, and neighbouring
    periods have different [is_on] values. *)
Theorem slots_to_periods_partition (slots : list bool) :
  length slots = 48%nat →
  partitions 0 (slots_to_periods slots) 48
  ∧ alternating (map p_is_on (slots_to_periods slots)).
Proof.
  intros Hlen.
  destruct (slots_to_periods_inv slots) as (Hpart & _ & Halt).
  - intros ->. discriminate.
  - lia.
  - rewrite Hlen in Hpart. done.
Qed.

Lemma slots_to_periods_partition_witness :
  let slots := replicate 14 true ++ replicate 8 false ++ replicate 26 true in
  length slots = 48%nat
  ∧ partitions 0 (slots_to_periods slots) 48
  ∧ alternating (map p_is_on (slots_to_periods slots)).
Proof.
  split; [reflexivity|].
  apply (slots_to_periods_partition
           (replicate 14 true ++ replicate 8 false ++ replicate 26 true)).
  reflexivity.
Defined.

(** ** GitHub-style normalizer *)

Lemma range_length (a b : Z) : a <= b → length (range a b) = Z.to_nat (b - a).
Proof. intros. unfold range. by rewrite length_seqZ. Qed.

Lemma elem_of_range (a b x : Z) : x ∈ range a b ↔ a <= x < b.
Proof. unfold range. rewrite elem_of_seqZ. lia. Qed.

Lemma get_default_yes (day_data : gmap string string) (k : string) :
  get_default day_data k "yes" = "yes"
  ↔ day_data !! k = None ∨ day_data !! k = Some "yes".
Proof.
  unfold get_default. destruct (day_data !! k) as [v|]; simpl.
  - split; [intros ->; by right|]. intros [?|?]; congruence.
  - split; [by left|done].
Qed.

Lemma is_all_yes_spec (day_data : gmap string string) :
  is_all_yes day_data = true ↔ all_absent_or_yes day_data.
Proof.
  unfold is_all_yes, all_absent_or_yes. rewrite forallb_forall. split.
  - intros Hall hour Hhour. apply get_default_yes, String.eqb_eq, Hall.
    apply list_elem_of_In, elem_of_range. lia.
  - intros Hall hour Hin. apply list_elem_of_In, elem_of_range in Hin.
    apply String.eqb_eq, get_default_yes, Hall. lia.
Qed.

(** The loop of [parse_github_day] from any list of hours and any slots
    collected so far. *)
Lemma parse_github_day_loop (day_data : gmap string string) (hours : list Z) :
  ∀ slots : list bool,
    foldl
      (fun slots hour =>
         let status := get_default day_data (str_int hour) "yes" in
         let '(first_half, second_half) := hour_halves status in
         slots ++ [first_half; second_half])
      slots hours
    = slots ++ flat_map
                 (fun hour => [(hour_halves (hour_code day_data hour)).1;
                               (hour_halves (hour_code day_data hour)).2])
                 hours.
Proof.
  induction hours as [|hour hours IH]; intros slots; simpl.
  - by rewrite app_nil_r.
  - rewrite IH. unfold hour_code.
    destruct (hour_halves _) as [first_half second_half]; simpl.
    by rewrite <- app_assoc.
Qed.

Lemma parse_github_day_flat_map (day_data : gmap string string) :
  parse_github_day day_data
  = flat_map (fun hour => [(hour_halves (hour_code day_data hour)).1;
                           (hour_halves (hour_code day_data hour)).2])
             (range 1 25).
Proof. unfold parse_github_day. by rewrite parse_github_day_loop. Qed.

Lemma parse_github_day_length (day_data : gmap string string) :
  length (parse_github_day day_data) = 48%nat.
Proof.
  rewrite parse_github_day_flat_map.
  assert (Hlen : ∀ hours : list Z,
    length (flat_map (fun hour =>
              [(hour_halves (hour_code day_data hour)).1;
               (hour_halves (hour_code day_data hour)).2]) hours)
    = (2 * length hours)%nat).
  { induction hours as [|hour hours IH]; simpl; [done|]. rewrite IH. lia. }
  rewrite Hlen, range_length by lia. reflexivity.
Qed.

(** What the loop body does with a non-empty day payload: it raises when
    the timestamp gives no date, and stores one record when it does. *)
Lemma github_day_step_present `{Runtime}
    (fact_data : gmap Z (gmap string (gmap string string)))
    (group : string) (result : gmap string (gmap string Entry)) (day_ts : Z)
    (day_data : gmap string string) :
  default ∅ (fact_data !! day_ts) !! group = Some day_data →
  day_data ≠ ∅ →
  github_day_step fact_data group result day_ts
  = date ← fromtimestamp day_ts;
    Some (set_record result group (strftime date "%Y-%m-%d")
            (if is_all_yes day_data then mkEntry None date "pending"
             else mkEntry (Some (parse_github_day day_data)) date "normal")).
Proof.
  intros Hget Hne. unfold github_day_step. rewrite Hget.
  destruct (decide (day_data = ∅)); [done|].
  destruct (fromtimestamp day_ts) as [date|]; simpl; [|done].
  by destruct (is_all_yes day_data).
Qed.

(** A payload the provider has not filled in contributes no record. *)
Lemma github_day_step_empty `{Runtime}
    (fact_data : gmap Z (gmap string (gmap string string)))
    (group : string) (result : gmap string (gmap string Entry)) (day_ts : Z) :
  default ∅ (fact_data !! day_ts) !! group = None
  ∨ default ∅ (fact_data !! day_ts) !! group = Some ∅ →
  github_day_step fact_data group result day_ts = Some result.
Proof.
  unfold github_day_step. intros [-> | ->]; [done|].
  by destruct (decide _).
Qed.

(** C5, as the code has it. An empty day payload gives no record at all,
    and the loop goes on. For a non-empty one the timestamp is turned into
    a date first, and the loop raises when that fails; with the date at
    hand, when every hour key 1..24 is absent or [yes] the record is
    [pending] without slots, and otherwise it is [normal] with the 48 slots
    made of the two halves of each hour in order. *)
Theorem github_day_classification `{Runtime}
    (fact_data : gmap Z (gmap string (gmap string string)))
    (group : string) (result : gmap string (gmap string Entry)) (day_ts : Z)
    (day_data : gmap string string) :
  default ∅ (fact_data !! day_ts) !! group = Some day_data →
  (day_data = ∅ →
     github_day_step fact_data group result day_ts = Some result)
  ∧ (day_data ≠ ∅ → all_absent_or_yes day_data →
     github_day_step fact_data group result day_ts
     = date ← fromtimestamp day_ts;
       Some (set_record result group (strftime date "%Y-%m-%d")
               (mkEntry None date "pending")))
  ∧ (day_data ≠ ∅ → ¬ all_absent_or_yes day_data →
     ∃ slots,
       github_day_step fact_data group result day_ts
       = (date ← fromtimestamp day_ts;
          Some (set_record result group (strftime date "%Y-%m-%d")
                  (mkEntry (Some slots) date "normal")))
       ∧ length slots = 48%nat
       ∧ slots = flat_map
                   (fun hour => [(hour_halves (hour_code day_data hour)).1;
                                 (hour_halves (hour_code day_data hour)).2])
                   (range 1 25)).
Proof.
  intros Hget. split; [|split].
  - intros ->. apply github_day_step_empty. by right.
  - intros Hne Hall.
    rewrite (github_day_step_present _ _ _ _ _ Hget Hne).
    apply is_all_yes_spec in Hall. by rewrite Hall.
  - intros Hne Hnot.
    rewrite (github_day_step_present _ _ _ _ _ Hget Hne).
    exists (parse_github_day day_data).
    destruct (is_all_yes day_data) eqn:Hall.
    + by apply is_all_yes_spec in Hall.
    + split; [done|]. split.
      * apply parse_github_day_length.
      * apply parse_github_day_flat_map.
Qed.

Lemma github_day_classification_witness :
  let day_data : gmap string string := {[ "1" := "no" ]} in
  let fact_data : gmap Z (gmap string (gmap string string)) :=
    {[ 1700000000 := {[ "GPV12.1" := day_data ]} ]} in
  default ∅ (fact_data !! 1700000000) !! "GPV12.1" = Some day_data
  ∧ ∃ slots,
      github_day_step (H := example_runtime) fact_data "GPV12.1"
        {[ "GPV12.1" := ∅ ]} 1700000000
      = Some (set_record {[ "GPV12.1" := ∅ ]} "GPV12.1" "1700000000"
                (mkEntry (H := example_runtime)
                   (Some slots) "1700000000" "normal"))
      ∧ length slots = 48%nat.
Proof.
  intros day_data fact_data.
  assert (Hget : default ∅ (fact_data !! 1700000000) !! "GPV12.1"
                 = Some day_data) by (vm_compute; reflexivity).
  split; [exact Hget|].
  destruct (github_day_classification (H := example_runtime)
              fact_data "GPV12.1" {[ "GPV12.1" := ∅ ]} 1700000000 day_data Hget)
    as (_ & _ & Hnormal).
  destruct Hnormal as (slots & Hstep & Hlen & _).
  - intros Hempty. assert (Hl : day_data !! "1" = None) by (by rewrite Hempty).
    vm_compute in Hl. discriminate.
  - intros Hall. destruct (Hall 1) as [Hl|Hl]; [lia| |];
      vm_compute in Hl; discriminate.
  - exists slots. split; [exact Hstep|exact Hlen].
Defined.

(** The claim as worded fails on the empty payload: all its hour keys are
    absent, yet the group gets no record for the day, pending or other. *)
Lemma github_empty_payload_counterexample :
  all_absent_or_yes ∅
  ∧ extract_github_schedules (H := example_runtime)
      {[ 1700000000 := {[ "GPV12.1" := ∅ ]} ]} ["GPV12.1"]
    = Some {[ "GPV12.1" := ∅ ]}.
Proof.
  split.
  - intros hour _. left. apply lookup_empty.
  - vm_compute. reflexivity.
Qed.

Lemma flat_map_hour_codes (day_data : gmap string string) (hours : list Z) :
  flat_map (fun hour => [(hour_halves (hour_code day_data hour)).1;
                         (hour_halves (hour_code day_data hour)).2]) hours
  = flat_map (fun code => [(hour_halves code).1; (hour_halves code).2])
             (map (hour_code day_data) hours).
Proof. induction hours as [|hour hours IH]; simpl; [done|]. by rewrite IH. Qed.

Lemma map_constant {A B} (f : A → B) (c : B) (l : list A) :
  Forall (fun x => f x = c) l → map f l = replicate (length l) c.
Proof. induction 1 as [|x l Hx _ IH]; simpl; [done|]. by rewrite Hx, IH. Qed.

(** The hour codes of a payload with hour 1 [no] and no other outage. *)
Lemma hour_codes_only_first_no (day_data : gmap string string) :
  day_data !! "1" = Some "no" →
  (∀ hour, 2 <= hour <= 24 →
     day_data !! str_int hour = None ∨ day_data !! str_int hour = Some "yes") →
  map (hour_code day_data) (range 1 25) = "no" :: replicate 23 "yes".
Proof.
  intros Hfirst Hrest.
  change (range 1 25) with (1 :: range 2 25). cbn [map]. f_equal.
  - unfold hour_code, get_default. change (str_int 1) with "1".
    by rewrite Hfirst.
  - rewrite (map_constant _ "yes"); [by rewrite range_length by lia|].
    apply Forall_forall. intros hour Hin. apply elem_of_range in Hin.
    apply get_default_yes, Hrest. lia.
Qed.

(** C9. End to end: a day payload with hour 1 [no] and every other hour
    [yes] or absent is normalized, once its timestamp is turned into a
    date, to a [normal] record whose slots compress to exactly two periods,
    00:00-01:00 off for 1.0 hours and 01:00-24:00 on for 23.0 hours. *)
Theorem github_first_hour_off_periods `{Runtime}
    (fact_data : gmap Z (gmap string (gmap string string)))
    (group : string) (result : gmap string (gmap string Entry)) (day_ts : Z)
    (day_data : gmap string string) :
  default ∅ (fact_data !! day_ts) !! group = Some day_data →
  day_data !! "1" = Some "no" →
  (∀ hour, 2 <= hour <= 24 →
     day_data !! str_int hour = None ∨ day_data !! str_int hour = Some "yes") →
  github_day_step fact_data group result day_ts
  = (date ← fromtimestamp day_ts;
     Some (set_record result group (strftime date "%Y-%m-%d")
             (mkEntry (Some (parse_github_day day_data)) date "normal")))
  ∧ slots_to_periods (parse_github_day day_data)
    = [mkPeriod "00:00" "01:00" false 1%Q; mkPeriod "01:00" "24:00" true 23%Q].
Proof.
  intros Hget Hfirst Hrest. split.
  - rewrite (github_day_step_present _ _ _ _ day_data Hget).
    + destruct (is_all_yes day_data) eqn:Hall; [|done].
      apply is_all_yes_spec in Hall. destruct (Hall 1) as [Hl|Hl]; [lia| |].
      * change (str_int 1) with "1" in Hl. congruence.
      * change (str_int 1) with "1" in Hl. congruence.
    + intros ->. by rewrite lookup_empty in Hfirst.
  - rewrite parse_github_day_flat_map, flat_map_hour_codes.
    rewrite (hour_codes_only_first_no _ Hfirst Hrest).
    vm_compute. reflexivity.
Qed.

Lemma github_first_hour_off_periods_witness :
  let day_data : gmap string string := {[ "1" := "no"; "2" := "yes" ]} in
  let fact_data : gmap Z (gmap string (gmap string string)) :=
    {[ 1700000000 := {[ "G1" := day_data ]} ]} in
  day_data !! "1" = Some "no"
  ∧ github_day_step (H := example_runtime) fact_data "G1"
      {[ "G1" := ∅ ]} 1700000000
    = Some (set_record {[ "G1" := ∅ ]} "G1" "1700000000"
              (mkEntry (H := example_runtime)
                 (Some (parse_github_day day_data)) "1700000000" "normal"))
  ∧ slots_to_periods (parse_github_day day_data)
    = [mkPeriod "00:00" "01:00" false 1%Q; mkPeriod "01:00" "24:00" true 23%Q].
Proof.
  intros day_data fact_data.
  assert (Hfirst : day_data !! "1" = Some "no") by (vm_compute; reflexivity).
  split; [exact Hfirst|].
  apply (github_first_hour_off_periods (H := example_runtime)
           fact_data "G1" {[ "G1" := ∅ ]} 1700000000 day_data).
  - vm_compute. reflexivity.
  - exact Hfirst.
  - intros hour Hhour.
    assert (Hin : hour ∈ range 2 25) by (apply elem_of_range; lia).
    assert (Hall : Forall (fun h =>
              day_data !! str_int h = None ∨ day_data !! str_int h = Some "yes")
              (range 2 25)).
    { change (range 2 25) with
        [2;3;4;5;6;7;8;9;10;11;12;13;14;15;16;17;18;19;20;21;22;23;24].
      repeat (apply Forall_cons; split;
              [first [left; vm_compute; reflexivity
                     |right; vm_compute; reflexivity]|]).
      apply Forall_nil. done. }
    exact (proj1 (Forall_forall _ _) Hall hour Hin).
Defined.

(** ** Duration text *)

Lemma int_of_float_inject (x : float) (n : Z) :
  Qeq x (inject_Z n) → int_of_float x = n.
Proof.
  unfold Qeq, int_of_float. destruct x as [a b]. simpl. intros Hx.
  rewrite Z.mul_1_r in Hx. subst a. apply Z.quot_mul. lia.
Qed.

(** An exact integer is rebound to an [int] before the word is chosen. *)
Lemma format_hours_int `{Runtime} (hours : number) (n : Z) :
  number_is_int hours n → format_hours hours = format_hours (Int n).
Proof.
  destruct hours as [m|x]; simpl; intros Hn.
  - by subst m.
  - unfold format_hours. simpl.
    rewrite (int_of_float_inject x n Hn).
    assert (Qeq_bool x (inject_Z n) = true) as -> by by apply Qeq_bool_iff.
    by rewrite Z.eqb_refl.
Qed.

Lemma format_hours_fraction `{Runtime} (x : float) :
  (∀ n, ¬ Qeq x (inject_Z n)) →
  format_hours (Float x) = str_float x +:+ " години".
Proof.
  intros Hx. unfold format_hours. simpl.
  destruct (Qeq_bool x (inject_Z (int_of_float x))) eqn:Heq; [|done].
  apply Qeq_bool_iff in Heq. by apply Hx in Heq.
Qed.

Lemma int_in_spec (x : Z) (l : list Z) : int_in x l = true ↔ x ∈ l.
Proof.
  unfold int_in. rewrite existsb_exists. split.
  - intros (y & Hin & Heq). apply Z.eqb_eq in Heq. subst y.
    by apply list_elem_of_In.
  - intros Hin. exists x. split; [by apply list_elem_of_In|apply Z.eqb_refl].
Qed.

(** C7, as the code has it. An exact integer [n] takes the singular word
    when [n % 10] is 1 and [n % 100] is not 11, the word of 2-4 when
    [n % 10] is 2, 3 or 4 and [n % 100] is not 12, 13 or 14, and the
    generic plural otherwise; a value that is no integer is printed as a
    float followed by the word of 2-4, whatever its fractional part. *)
Theorem format_hours_declension `{Runtime} (hours : number) :
  (∀ n, number_is_int hours n →
     (n mod 10 = 1 → n mod 100 ≠ 11 →
        format_hours hours = str_int n +:+ " година")
     ∧ (2 <= n mod 10 <= 4 → ¬ 12 <= n mod 100 <= 14 →
        format_hours hours = str_int n +:+ " години")
     ∧ (¬ (n mod 10 = 1 ∧ n mod 100 ≠ 11) →
        ¬ (2 <= n mod 10 <= 4 ∧ ¬ 12 <= n mod 100 <= 14) →
        format_hours hours = str_int n +:+ " годин"))
  ∧ ((∀ n, ¬ number_is_int hours n) →
     ∃ x, hours = Float x
          ∧ format_hours hours = str_float x +:+ " години").
Proof.
  split.
  - intros n Hn. rewrite (format_hours_int hours n Hn).
    unfold format_hours. cbn [number_eq_int int_of_number].
    rewrite Z.eqb_refl.
    destruct (n mod 10 =? 1) eqn:H1; destruct (n mod 100 =? 11) eqn:H11;
      destruct (int_in (n mod 10) [2; 3; 4]) eqn:H234;
      destruct (int_in (n mod 100) [12; 13; 14]) eqn:H1234; simpl;
      repeat match goal with
      | Hb : (_ =? _) = true |- _ => apply Z.eqb_eq in Hb
      | Hb : (_ =? _) = false |- _ => apply Z.eqb_neq in Hb
      | Hb : int_in _ _ = true |- _ =>
          apply int_in_spec in Hb; set_unfold in Hb
      | Hb : int_in _ _ = false |- _ =>
          apply not_true_iff_false in Hb; rewrite int_in_spec in Hb;
          set_unfold in Hb
      end;
      (split; [|split]); intros; first [done | exfalso; lia].
  - intros Hno. destruct hours as [m|x].
    + by destruct (Hno m).
    + exists x. split; [done|]. by apply format_hours_fraction.
Qed.

Lemma format_hours_declension_witness :
  number_is_int (Float (inject_Z 21)) 21
  ∧ 21 mod 10 = 1 ∧ 21 mod 100 ≠ 11
  ∧ format_hours (H := example_runtime) (Float (inject_Z 21))
    = str_int 21 +:+ " година".
Proof.
  assert (Hint : number_is_int (Float (inject_Z 21)) 21) by reflexivity.
  assert (Hmod : 21 mod 10 = 1) by reflexivity.
  assert (Hne : 21 mod 100 ≠ 11) by (intros Heq; discriminate Heq).
  split; [exact Hint|]. split; [exact Hmod|]. split; [exact Hne|].
  exact (proj1 (proj1 (format_hours_declension (H := example_runtime)
                         (Float (inject_Z 21))) 21 Hint) Hmod Hne).
Defined.

(** The claim as worded fails on a half hour: it is printed with the word
    of 2-4 ([2 години]), not with the generic plural that 12 takes. *)
Lemma format_hours_fraction_counterexample :
  format_hours (H := example_runtime) (Float (Qmake 1 2)) = "0.5 години"
  ∧ format_hours (H := example_runtime) (Float (inject_Z 2)) = "2 години"
  ∧ format_hours (H := example_runtime) (Float (inject_Z 12)) = "12 годин".
Proof. repeat split; vm_compute; reflexivity. Qed.

(** ** Yasno-style normalizer *)

Lemma list_setitem_in_range {A} (l : list A) (i : Z) (v : A) :
  0 <= i < Z.of_nat (length l) →
  list_setitem l i v = Some (<[Z.to_nat i := v]> l).
Proof.
  intros Hi. unfold list_setitem.
  destruct (0 <=? i) eqn:H0; [|lia].
  destruct (i <? Z.of_nat (length l)) eqn:H1; [done|lia].
Qed.

(** Writing one value at in-range indices never raises, and is the same
    as inserting at each of them. *)
Lemma for_each_setitem {A} (indices : list Z) (v : A) :
  ∀ l : list A,
    Forall (fun i => 0 <= i < Z.of_nat (length l)) indices →
    for_each indices (fun l i => list_setitem l i v) l
    = Some (foldl (fun l i => <[Z.to_nat i := v]> l) l indices).
Proof.
  induction indices as [|i indices IH]; intros l Hall; simpl; [done|].
  apply Forall_cons in Hall as [Hi Hall].
  rewrite list_setitem_in_range by done. apply IH.
  by rewrite length_insert.
Qed.

Lemma foldl_insert_length {A} (indices : list Z) (v : A) :
  ∀ l : list A,
    length (foldl (fun l i => <[Z.to_nat i := v]> l) l indices) = length l.
Proof.
  induction indices as [|i indices IH]; intros l; simpl; [done|].
  by rewrite IH, length_insert.
Qed.

Lemma foldl_insert_lookup_other {A} (indices : list Z) (v : A) (j : nat) :
  ∀ l : list A,
    Forall (fun i => 0 <= i) indices → Z.of_nat j ∉ indices →
    foldl (fun l i => <[Z.to_nat i := v]> l) l indices !! j = l !! j.
Proof.
  induction indices as [|i indices IH]; intros l Hall Hj; simpl; [done|].
  apply Forall_cons in Hall as [Hi Hall].
  apply not_elem_of_cons in Hj as [Hne Hj].
  rewrite IH by done. apply list_lookup_insert_ne. lia.
Qed.

Lemma foldl_insert_lookup_written {A} (indices : list Z) (v : A) (j : nat) :
  ∀ l : list A,
    Forall (fun i => 0 <= i) indices → Z.of_nat j ∈ indices →
    (j < length l)%nat →
    foldl (fun l i => <[Z.to_nat i := v]> l) l indices !! j = Some v.
Proof.
  induction indices as [|i indices IH]; intros l Hall Hj Hlen; simpl.
  - by apply elem_of_nil in Hj.
  - apply Forall_cons in Hall as [Hi Hall].
    destruct (decide (Z.of_nat j ∈ indices)) as [Hin|Hnotin].
    + apply IH; [done|done|]. by rewrite length_insert.
    + apply elem_of_cons in Hj as [Hj|Hj]; [|done].
      rewrite foldl_insert_lookup_other by done. subst i.
      rewrite Nat2Z.id. by apply list_lookup_insert_eq.
Qed.

(** An interval that starts at a non-negative minute is applied without
    error, and writes [is_on] exactly at the slots from [start // 30] up
    to [min(end // 30, 48)]. *)
Lemma apply_interval_confined (slots : list bool) (slot : YasnoInterval) :
  length slots = 48%nat →
  0 <= default 0 (iv_start slot) →
  let start_idx := default 0 (iv_start slot) / 30 in
  let end_idx := default 0 (iv_end slot) / 30 in
  ∃ slots',
    apply_interval slots slot = Some slots'
    ∧ length slots' = 48%nat
    ∧ ∀ j : nat,
        slots' !! j
        = if decide (start_idx <= Z.of_nat j < Z.min end_idx 48)
          then Some (bool_decide (iv_type slot = Some "NotPlanned"))
          else slots !! j.
Proof.
  intros Hlen Hstart start_idx end_idx.
  assert (Hidx : 0 <= start_idx) by (apply Z.div_pos; lia).
  assert (Hrange : Forall (fun i => 0 <= i < Z.of_nat (length slots))
                     (range start_idx (Z.min end_idx 48))).
  { apply Forall_forall. intros i Hi. apply elem_of_range in Hi. lia. }
  eexists. split; [|split].
  - unfold apply_interval. by apply for_each_setitem.
  - by rewrite foldl_insert_length.
  - intros j.
    assert (Hpos : Forall (fun i => 0 <= i)
                     (range start_idx (Z.min end_idx 48))).
    { eapply Forall_impl; [exact Hrange|]. simpl. lia. }
    destruct (decide _) as [Hj|Hj].
    + apply foldl_insert_lookup_written; [done| |lia].
      by apply elem_of_range.
    + apply foldl_insert_lookup_other; [done|].
      by rewrite elem_of_range.
Qed.

(** C6, at the input where the code departs from the claim. An interval
    whose start lies more than a day before midnight makes the first write
    [slots[-49] = ...] raise [IndexError]; one that starts an hour before
    midnight is written at the last two slots of the day, which lie
    outside the interval. Only [end // 30] is clamped. *)
Theorem parse_yasno_day_negative_start :
  parse_yasno_day
    (mkYasnoDay (Some "2025-01-15T00:00:00+02:00") (Some "ScheduleApplies")
       (Some [mkInterval (Some (-1470)) (Some 60) (Some "Definite")]))
  = None
  ∧ parse_yasno_day
      (mkYasnoDay (Some "2025-01-15T00:00:00+02:00") (Some "ScheduleApplies")
         (Some [mkInterval (Some (-60)) (Some 60) (Some "Definite")]))
    = Some (Some (replicate 2 false ++ replicate 44 true ++ replicate 2 false),
            "normal").
Proof. split; vm_compute; reflexivity. Qed.

Lemma replace_GPV_numeric (suffix : string) :
  numeric_suffix suffix → replace_GPV suffix = suffix.
Proof.
  induction suffix as [|c rest IH]; simpl; [done|]. intros [Hc Hrest].
  rewrite (IH Hrest).
  destruct (decide (c = "G"%char)) as [->|Hne].
  - destruct Hc as [[d Hd]|Hc]; [vm_compute in Hd|]; discriminate.
  - destruct c as [[] [] [] [] [] [] [] []]; try done.
Qed.

Lemma set_record_dom {V} (result : gmap string (gmap string V))
    (group date_str : string) (v : V) :
  dom (set_record result group date_str v) = {[ group ]} ∪ dom result.
Proof. unfold set_record. by rewrite dom_insert_L. Qed.

Lemma yasno_day_step_dom `{Runtime} (group_data : gmap string YasnoDay)
    (group day_key : string) (result result' : gmap string (gmap string Entry)) :
  yasno_day_step group_data group result day_key = Some result' →
  group ∈ dom result → dom result' = dom result.
Proof.
  unfold yasno_day_step. intros Hstep Hin.
  destruct (group_data !! day_key) as [day_data|]; [|by simplify_eq].
  destruct (yd_date day_data) as [date_str_full|]; [|by simplify_eq].
  destruct (fromisoformat date_str_full) as [date|]; [|done].
  destruct (parse_yasno_day day_data) as [[slots status]|]; [|done].
  simpl in Hstep. simplify_eq. rewrite set_record_dom. set_solver.
Qed.

Lemma for_each_preserves {A S} (P : S → Prop) (body : S → A → option S)
    (xs : list A) :
  (∀ s x s', P s → body s x = Some s' → P s') →
  ∀ s s', P s → for_each xs body s = Some s' → P s'.
Proof.
  intros Hbody. induction xs as [|x xs IH]; intros s s' Hs Hloop; simpl in *.
  - by simplify_eq.
  - destruct (body s x) as [s1|] eqn:Hx; [|done]. eauto.
Qed.

Lemma yasno_group_step_dom `{Runtime}
    (data : gmap string (gmap string YasnoDay))
    (result result' : gmap string (gmap string Entry)) (group : string) :
  yasno_group_step data result group = Some result' →
  dom result'
  = match data !! replace_GPV group with
    | Some _ => {[ group ]} ∪ dom result
    | None => dom result
    end.
Proof.
  unfold yasno_group_step.
  destruct (data !! replace_GPV group) as [group_data|]; [|by intros [= <-]].
  intros Hloop.
  apply (for_each_preserves
           (fun r => dom r = {[ group ]} ∪ dom result)
           (yasno_day_step group_data group) ["today"; "tomorrow"])
    in Hloop; [done| |by rewrite dom_insert_L].
  intros r day_key r' Hr Hstep.
  rewrite (yasno_day_step_dom _ _ _ _ _ Hstep); [done|].
  rewrite Hr. set_solver.
Qed.

Lemma yasno_groups_loop_dom `{Runtime}
    (data : gmap string (gmap string YasnoDay)) (groups : list string) :
  ∀ result result' : gmap string (gmap string Entry),
    for_each groups (yasno_group_step data) result = Some result' →
    ∀ group, group ∈ dom result'
             ↔ group ∈ dom result
               ∨ (group ∈ groups ∧ is_Some (data !! replace_GPV group)).
Proof.
  induction groups as [|g groups IH]; intros result result' Hloop group;
    simpl in Hloop.
  - simplify_eq. set_solver.
  - destruct (yasno_group_step data result g) as [r1|] eqn:Hstep; [|done].
    rewrite (IH _ _ Hloop). apply yasno_group_step_dom in Hstep.
    rewrite Hstep. rewrite elem_of_cons.
    destruct (data !! replace_GPV g) as [gd|] eqn:Hg.
    + rewrite elem_of_union, elem_of_singleton.
      assert (is_Some (data !! replace_GPV g)) by (by rewrite Hg).
      naive_solver.
    + assert (¬ is_Some (data !! replace_GPV g))
        by (rewrite Hg; by intros [? ?]).
      naive_solver.
Qed.

Lemma yasno_groups_loop_skip `{Runtime}
    (data : gmap string (gmap string YasnoDay)) (group : string)
    (groups : list string) :
  data !! replace_GPV group = None →
  ∀ result : gmap string (gmap string Entry),
    for_each groups (yasno_group_step data) result
    = for_each (filter (fun g => g ≠ group) groups)
               (yasno_group_step data) result.
Proof.
  intros Hkey. induction groups as [|g groups IH]; intros result; [done|].
  rewrite filter_cons. destruct (decide (g ≠ group)) as [Hne|Heq].
  - simpl. destruct (yasno_group_step data result g); [apply IH|done].
  - apply dec_stable in Heq. subst g. simpl.
    unfold yasno_group_step at 1. rewrite Hkey. apply IH.
Qed.

(** C8, as the code has it. The lookup key of a group is its identifier
    with every occurrence of the text [GPV] dropped, which for [GPV]
    followed by a numeric suffix is that suffix. The result has an entry
    for exactly the configured groups whose key the payload contains; a
    group whose key is missing is passed over as if it were not
    configured, so it raises nothing and gets no entry. *)
Theorem yasno_group_lookup `{Runtime}
    (data : gmap string (gmap string YasnoDay)) (groups : list string) :
  (∀ suffix, numeric_suffix suffix → replace_GPV ("GPV" +:+ suffix) = suffix)
  ∧ (∀ result group,
       extract_yasno_schedules data groups = Some result →
       (is_Some (result !! group)
        ↔ group ∈ groups ∧ is_Some (data !! replace_GPV group)))
  ∧ (∀ group,
       data !! replace_GPV group = None →
       extract_yasno_schedules data groups
       = extract_yasno_schedules data (filter (fun g => g ≠ group) groups)).
Proof.
  split; [|split].
  - intros suffix Hs. simpl. by apply replace_GPV_numeric.
  - intros result group. unfold extract_yasno_schedules.
    destruct (decide (data = ∅)) as [->|Hne].
    + intros [= <-]. rewrite !lookup_empty. split.
      * by intros [? ?].
      * by intros [_ [? ?]].
    + intros Hloop. rewrite <- elem_of_dom.
      rewrite (yasno_groups_loop_dom _ _ _ _ Hloop). set_solver.
  - intros group Hkey. unfold extract_yasno_schedules.
    destruct (decide (data = ∅)); [done|].
    by apply yasno_groups_loop_skip.
Qed.

Lemma yasno_group_lookup_witness :
  let day := mkYasnoDay (Some "2025-01-15T00:00:00+02:00") None None in
  let data : gmap string (gmap string YasnoDay) :=
    {[ "12.1" := {[ "today" := day ]} ]} in
  let groups := ["GPV12.1"; "GPV18.1"] in
  data !! replace_GPV "GPV18.1" = None
  ∧ extract_yasno_schedules (H := example_runtime) data groups
    = extract_yasno_schedules (H := example_runtime) data
        (filter (fun g => g ≠ "GPV18.1") groups).
Proof.
  intros day data groups.
  assert (Hkey : data !! replace_GPV "GPV18.1" = None)
    by (vm_compute; reflexivity).
  split; [exact Hkey|].
  exact (proj2 (proj2 (yasno_group_lookup (H := example_runtime) data groups))
           "GPV18.1" Hkey).
Defined.

(** The claim as worded fails on a group with another alphabetic prefix:
    [G1] is looked up under [G1], not under its numeric suffix [1], so the
    group is passed over although the payload has the key [1]. *)
Lemma yasno_other_prefix_counterexample :
  replace_GPV "G1" = "G1"
  ∧ extract_yasno_schedules (H := example_runtime)
      {[ "1" := {[ "today" :=
           mkYasnoDay (Some "2025-01-15T00:00:00+02:00") None None ]} ]}
      ["G1"]
    = Some ∅.
Proof. split; vm_compute; reflexivity. Qed.

(** ** Presenter *)

Lemma join_two_lines (a b : string) (l : list string) :
  ∃ c s, join nl (a :: b :: l) = String c s.
Proof.
  change (join nl (a :: b :: l))
    with (a +:+ String "010"%char (join nl (b :: l))).
  destruct a as [|c a]; simpl; eauto.
Qed.

Lemma list_period_loop_lines `{Runtime} (CONFIG : Config)
    (periods : list Period) :
  ∀ lines total_on total_off,
    ∃ more total_on' total_off',
      foldl (list_period_step CONFIG) (lines, total_on, total_off) periods
      = (lines ++ more, total_on', total_off').
Proof.
  induction periods as [|p periods IH]; intros lines total_on total_off; simpl.
  - exists [], total_on, total_off. by rewrite app_nil_r.
  - destruct (p_is_on p);
      match goal with
      | |- context [foldl _ (?l ++ [?x], ?a, ?b) periods] =>
          destruct (IH (l ++ [x]) a b) as (more & t1 & t2 & ->);
          exists (x :: more), t1, t2; by rewrite <- app_assoc
      end.
Qed.

Lemma table_period_loop_lines `{Runtime} (periods : list Period) :
  ∀ lines total_on total_off,
    ∃ more total_on' total_off',
      foldl table_period_step (lines, total_on, total_off) periods
      = (lines ++ more, total_on', total_off').
Proof.
  induction periods as [|p periods IH]; intros lines total_on total_off; simpl.
  - exists [], total_on, total_off. by rewrite app_nil_r.
  - destruct (p_is_on p);
      match goal with
      | |- context [foldl _ (?l ++ [?x], ?a, ?b) periods] =>
          destruct (IH (l ++ [x]) a b) as (more & t1 & t2 & ->);
          exists (x :: more), t1, t2; by rewrite <- app_assoc
      end.
Qed.

(** A rendered block is never the empty string: it has at least the header
    line and the blank line after it. *)
Lemma format_schedule_message_nonempty `{Runtime} (CONFIG : Config)
    (periods : list Period) (date : datetime) (sources : list string)
    (special_status : option string) :
  ∃ c s,
    format_schedule_message CONFIG periods date sources special_status
    = String c s.
Proof.
  unfold format_schedule_message.
  destruct (String.eqb (display_format CONFIG) "table").
  - unfold format_schedule_table. cbv zeta.
    destruct (special_lines CONFIG special_status) as [special|].
    + apply join_two_lines.
    + match goal with
      | |- context [foldl _ (?l, ?a, ?b) periods] =>
          destruct (table_period_loop_lines periods l a b)
            as (more & t1 & t2 & ->)
      end.
      apply join_two_lines.
  - unfold format_schedule_list. cbv zeta.
    destruct (special_lines CONFIG special_status) as [special|].
    + apply join_two_lines.
    + match goal with
      | |- context [foldl _ (?l, ?a, ?b) periods] =>
          destruct (list_period_loop_lines CONFIG periods l a b)
            as (more & t1 & t2 & ->)
      end.
      apply join_two_lines.
Qed.

Lemma truthy_msg_rendered `{Runtime} (CONFIG : Config)
    (periods : list Period) (date : datetime) (sources : list string)
    (special_status : option string) :
  truthy_msg
    (Some (format_schedule_message CONFIG periods date sources special_status))
  = [format_schedule_message CONFIG periods date sources special_status].
Proof.
  destruct (format_schedule_message_nonempty
              CONFIG periods date sources special_status) as (c & s & ->).
  done.
Qed.

(** ** Reconciler *)

(** Two arrays match only when both are there, non-empty and equal. *)
Lemma schedules_match_spec (slots1 slots2 : option (list bool)) :
  schedules_match slots1 slots2 = true
  ↔ ∃ s, s ≠ [] ∧ slots1 = Some s ∧ slots2 = Some s.
Proof.
  unfold schedules_match. split.
  - destruct slots1 as [[|b1 s1]|], slots2 as [[|b2 s2]|]; simpl; try done.
    rewrite bool_decide_eq_true. intros [= -> ->]. by exists (b2 :: s2).
  - intros ([|b s] & Hs & -> & ->); [done|]. simpl.
    by rewrite bool_decide_eq_true.
Qed.

(** The test that selects the combined block is the specification's
    condition. *)
Lemma combined_test_spec `{Runtime} (github_data yasno_data : option Entry) :
  bool_decide (e_status <$> github_data = Some "normal")
  && bool_decide (e_status <$> yasno_data = Some "normal")
  && truthy (github_data ≫= e_slots) && truthy (yasno_data ≫= e_slots)
  && schedules_match (github_data ≫= e_slots) (yasno_data ≫= e_slots) = true
  ↔ providers_agree github_data yasno_data.
Proof.
  unfold providers_agree, schedules_match. split.
  - rewrite !andb_true_iff, !bool_decide_eq_true.
    intros [[[[Hg Hy] Htg] Hty] Hmatch].
    destruct github_data as [g|], yasno_data as [y|]; simplify_eq/=.
    rewrite Htg, Hty in Hmatch. simpl in Hmatch.
    apply bool_decide_eq_true in Hmatch.
    destruct (e_slots g) as [[|b s]|] eqn:Hs; try done.
    exists g, y, (b :: s). by rewrite <- Hmatch.
  - intros (g & y & s & -> & -> & Hg & Hy & Hs & Hgs & Hys). simpl.
    rewrite Hg, Hy, Hgs, Hys. destruct s as [|b s]; [done|]. simpl.
    by rewrite !bool_decide_eq_true_2.
Qed.

(** A provider's valid record is rendered as its own unit. *)
Lemma single_source_unit `{Runtime} (CONFIG : Config) (data : Entry)
    (date : datetime) (source : string) :
  is_day_schedule data →
  single_source_messages CONFIG (Some data) date source
  = [render_unit CONFIG (own_unit data date source)].
Proof.
  unfold single_source_messages, format_single_source_message, own_unit,
    render_unit, periods_of.
  intros [[Hstatus Hslots]|[[Hstatus|Hstatus] Hslots]];
    rewrite Hstatus; simpl; [rewrite Hslots|..]; simpl;
    apply truthy_msg_rendered.
Qed.

(** C3. For one group and one date: when both providers are [normal] with
    non-empty, element-wise identical arrays, the day is one combined unit
    that names both providers and is built from that array; in every other
    case it is the units of the providers that have a record for the date,
    each on its own, and a provider without a record adds none. *)
Theorem reconciler_decision `{Runtime} (CONFIG : Config)
    (github_data yasno_data : option Entry) :
  is_day_schedule_opt github_data → is_day_schedule_opt yasno_data →
  (providers_agree github_data yasno_data →
     ∃ g s, github_data = Some g ∧ e_slots g = Some s
            ∧ day_source_messages CONFIG github_data yasno_data
              = [render_unit CONFIG
                   (mkUnit (slots_to_periods s) (e_date g)
                      [github_name CONFIG; yasno_name CONFIG] None)])
  ∧ (¬ providers_agree github_data yasno_data →
     day_source_messages CONFIG github_data yasno_data
     = map (render_unit CONFIG)
           (separate_units CONFIG github_data yasno_data))
  ∧ (∀ slots1 slots2,
       schedules_match slots1 slots2 = true
       ↔ ∃ s, s ≠ [] ∧ slots1 = Some s ∧ slots2 = Some s).
Proof.
  intros Hgithub Hyasno. split; [|split]; [| |apply schedules_match_spec].
  - intros Hagree. pose proof Hagree as Htest.
    apply combined_test_spec in Htest.
    destruct Hagree as (g & y & s & -> & -> & Hg & Hy & Hs & Hgs & Hys).
    exists g, s. split; [done|]. split; [done|].
    unfold day_source_messages. cbv zeta. rewrite Htest.
    unfold render_unit, periods_of. simpl. by rewrite Hgs.
  - intros Hagree.
    assert (Htest := combined_test_spec github_data yasno_data).
    unfold day_source_messages, separate_units. cbv zeta.
    destruct (_ && schedules_match _ _); [by destruct Hagree; apply Htest|].
    destruct github_data as [g|], yasno_data as [y|]; simpl in *;
      repeat match goal with
      | |- context [truthy_msg (format_single_source_message CONFIG ?e ?d ?s)] =>
          change (truthy_msg (format_single_source_message CONFIG e d s))
            with (single_source_messages CONFIG (Some e) d s);
          rewrite single_source_unit by done
      end; done.
Qed.

Lemma reconciler_decision_witness :
  let e := mkEntry (H := example_runtime)
             (Some (replicate 48 true)) "2025-01-15" "normal" in
  is_day_schedule_opt (Some e)
  ∧ providers_agree (Some e) (Some e)
  ∧ ∃ g s, Some e = Some g ∧ e_slots g = Some s
           ∧ day_source_messages DEFAULT_CONFIG (Some e) (Some e)
             = [render_unit DEFAULT_CONFIG
                  (mkUnit (slots_to_periods s) (e_date g)
                     [github_name DEFAULT_CONFIG; yasno_name DEFAULT_CONFIG]
                     None)].
Proof.
  intros e.
  assert (Hvalid : is_day_schedule_opt (Some e)) by (left; split; reflexivity).
  assert (Hagree : providers_agree (Some e) (Some e)).
  { exists e, e, (replicate 48 true). repeat split; try reflexivity.
    intros Hnil. discriminate Hnil. }
  split; [exact Hvalid|]. split; [exact Hagree|].
  exact (proj1 (reconciler_decision DEFAULT_CONFIG (Some e) (Some e)
                  Hvalid Hvalid) Hagree).
Defined.

(** C10. A record with status [normal] whose slots are empty or absent is
    given no block: [format_single_source_message] returns [None] for it,
    and the record adds nothing to the day's messages. *)
Theorem normal_without_slots_is_dropped `{Runtime} (CONFIG : Config)
    (data : Entry) (date : datetime) (source : string) :
  e_status data = "normal" →
  e_slots data = None ∨ e_slots data = Some [] →
  format_single_source_message CONFIG data date source = None
  ∧ single_source_messages CONFIG (Some data) date source = [].
Proof.
  intros Hstatus Hslots.
  assert (Hnone : format_single_source_message CONFIG data date source = None).
  { unfold format_single_source_message. rewrite Hstatus.
    by destruct Hslots as [-> | ->]. }
  split; [exact Hnone|].
  unfold single_source_messages. by rewrite Hnone.
Qed.

Lemma normal_without_slots_is_dropped_witness :
  let data := mkEntry (H := example_runtime) (Some []) "2025-01-15" "normal" in
  e_status data = "normal"
  ∧ format_single_source_message DEFAULT_CONFIG data "2025-01-15" "yasno" = None.
Proof.
  intros data. split; [reflexivity|].
  apply (normal_without_slots_is_dropped DEFAULT_CONFIG data
           "2025-01-15" "yasno").
  - reflexivity.
  - right. reflexivity.
Defined.

(** ** Change detector *)

Lemma same_dict_eq {V} (same : V → V → Prop) :
  (∀ v1 v2, same v1 v2 ↔ v1 = v2) →
  ∀ m1 m2 : gmap string V, same_dict same m1 m2 ↔ m1 = m2.
Proof.
  intros Hsame m1 m2. unfold same_dict. rewrite map_eq_iff.
  split; intros Hall k; specialize (Hall k);
    destruct (m1 !! k) as [v1|], (m2 !! k) as [v2|]; try done.
  - f_equal. by apply Hsame.
  - apply Hsame. congruence.
Qed.

Lemma same_entry_eq (e1 e2 : CacheEntry) : same_entry e1 e2 ↔ e1 = e2.
Proof.
  unfold same_entry. destruct e1, e2; simpl. split.
  - by intros [-> ->].
  - by intros [= -> ->].
Qed.

Lemma same_cache_eq (c1 c2 : Cache) : same_cache c1 c2 ↔ c1 = c2.
Proof.
  unfold same_cache.
  apply same_dict_eq, same_dict_eq, same_dict_eq, same_entry_eq.
Qed.

Lemma schedules_changed_false (new_cache old_cache : Cache) :
  schedules_changed new_cache old_cache = false ↔ new_cache = old_cache.
Proof.
  unfold schedules_changed. rewrite negb_false_iff. apply bool_decide_eq_true.
Qed.

Lemma schedules_changed_true (new_cache old_cache : Cache) :
  schedules_changed new_cache old_cache = true ↔ new_cache ≠ old_cache.
Proof.
  unfold schedules_changed. rewrite negb_true_iff. apply bool_decide_eq_false.
Qed.

Lemma cache_lookup_alter_entry (f : CacheEntry → CacheEntry)
    (provider group date_str : string) (c : Cache) :
  cache_lookup (alter_entry f provider group date_str c) provider group date_str
  = f <$> cache_lookup c provider group date_str.
Proof.
  unfold cache_lookup, cache_group, alter_entry. rewrite lookup_alter_eq.
  destruct (c !! provider) as [groups|]; simpl; [|done].
  rewrite lookup_alter_eq.
  destruct (groups !! group) as [dates|]; simpl; [|done].
  by rewrite lookup_alter_eq.
Qed.

Lemma cache_lookup_remove_date (provider group date_str : string) (c : Cache) :
  cache_lookup (remove_date provider group date_str c) provider group date_str
  = None.
Proof.
  unfold cache_lookup, cache_group, remove_date. rewrite lookup_alter_eq.
  destruct (c !! provider) as [groups|]; simpl; [|done].
  rewrite lookup_alter_eq.
  destruct (groups !! group) as [dates|]; simpl; [|done].
  by rewrite lookup_delete_eq.
Qed.

Lemma flip_slot_differs (i : nat) (e : CacheEntry) (l : list bool) :
  c_slots e = Some l → (i < length l)%nat → flip_slot i e ≠ e.
Proof.
  intros Hslots Hi Heq. destruct e as [slots status]. simpl in Hslots.
  subst slots. unfold flip_slot in Heq. simpl in Heq.
  injection Heq as Heq.
  destruct (lookup_lt_is_Some_2 l i Hi) as [b Hb].
  assert (Hflip : alter negb i l !! i = Some (negb b))
    by (by rewrite list_lookup_alter_eq, Hb).
  rewrite Heq, Hb in Hflip. by destruct b.
Qed.

(** C4. [schedules_changed] is false exactly when the new reduced snapshot
    and the cached one are deeply equal. So a snapshot compared with
    itself is unchanged; a flipped slot, a different status, a date or a
    group present on one side only each count as a change; and on a first
    run, where no cache file is read, any snapshot with a group in it is a
    change. *)
Theorem schedules_changed_deep_equality `{Runtime} :
  (∀ new_cache old_cache,
     schedules_changed new_cache old_cache = false
     ↔ same_cache new_cache old_cache)
  ∧ (∀ c, schedules_changed c c = false)
  ∧ (∀ c provider group date_str e l i,
       cache_lookup c provider group date_str = Some e →
       c_slots e = Some l → (i < length l)%nat →
       schedules_changed
         (alter_entry (flip_slot i) provider group date_str c) c = true)
  ∧ (∀ c provider group date_str e status,
       cache_lookup c provider group date_str = Some e →
       status ≠ c_status e →
       schedules_changed
         (alter_entry (with_status status) provider group date_str c) c = true)
  ∧ (∀ c provider group date_str e,
       cache_lookup c provider group date_str = Some e →
       schedules_changed (remove_date provider group date_str c) c = true
       ∧ schedules_changed c (remove_date provider group date_str c) = true)
  ∧ (∀ c provider group dates,
       cache_group c provider group = Some dates →
       schedules_changed (remove_group provider group c) c = true
       ∧ schedules_changed c (remove_group provider group c) = true)
  ∧ (∀ github_schedules yasno_schedules : gmap string (gmap string Entry),
       github_schedules ≠ ∅ ∨ yasno_schedules ≠ ∅ →
       schedules_changed
         (schedules_to_cache_format github_schedules yasno_schedules)
         (load_cached_schedules None) = true).
Proof.
  repeat apply conj.
  - intros new_cache old_cache.
    by rewrite schedules_changed_false, same_cache_eq.
  - intros c. by apply schedules_changed_false.
  - intros c provider group date_str e l i Hget Hslots Hi.
    apply schedules_changed_true. intros Heq.
    pose proof (cache_lookup_alter_entry (flip_slot i) provider group date_str c)
      as Hnew.
    rewrite Heq, Hget in Hnew. simpl in Hnew. injection Hnew as Hnew.
    by eapply flip_slot_differs.
  - intros c provider group date_str e status Hget Hstatus.
    apply schedules_changed_true. intros Heq.
    pose proof (cache_lookup_alter_entry (with_status status)
                  provider group date_str c) as Hnew.
    rewrite Heq, Hget in Hnew. simpl in Hnew. injection Hnew as Hnew.
    apply Hstatus. by rewrite Hnew at 1.
  - intros c provider group date_str e Hget.
    assert (remove_date provider group date_str c ≠ c).
    { intros Heq.
      pose proof (cache_lookup_remove_date provider group date_str c) as Hnew.
      rewrite Heq, Hget in Hnew. done. }
    split; by apply schedules_changed_true.
  - intros c provider group dates Hget.
    assert (remove_group provider group c ≠ c).
    { intros Heq. rewrite <- Heq in Hget.
      unfold cache_group, remove_group in Hget.
      rewrite lookup_alter_eq in Hget.
      destruct (c !! provider) as [groups|]; simpl in Hget; [|done].
      by rewrite lookup_delete_eq in Hget. }
    split; by apply schedules_changed_true.
  - intros github_schedules yasno_schedules Hnonempty.
    apply schedules_changed_true. intros Heq.
    unfold schedules_to_cache_format, load_cached_schedules in Heq.
    destruct Hnonempty as [Hne|Hne]; apply Hne.
    + apply (f_equal (fun c => c !! "github")) in Heq.
      rewrite lookup_insert_ne, !lookup_insert_eq in Heq by done.
      rewrite lookup_insert_ne, lookup_insert_eq in Heq by done.
      injection Heq as Heq. by apply fmap_empty_inv in Heq.
    + apply (f_equal (fun c => c !! "yasno")) in Heq.
      rewrite !lookup_insert_eq in Heq.
      injection Heq as Heq. by apply fmap_empty_inv in Heq.
Qed.

Lemma schedules_changed_deep_equality_witness :
  let e := mkCacheEntry (Some (replicate 48 true)) "normal" in
  let c : Cache :=
    <["yasno" := ∅]>
      (<["github" := {[ "GPV12.1" := {[ "2025-01-15" := e ]} ]}]> ∅) in
  cache_lookup c "github" "GPV12.1" "2025-01-15" = Some e
  ∧ c_slots e = Some (replicate 48 true)
  ∧ (3 < length (replicate 48 true))%nat
  ∧ schedules_changed
      (alter_entry (flip_slot 3) "github" "GPV12.1" "2025-01-15" c) c = true.
Proof.
  intros e c.
  assert (Hget : cache_lookup c "github" "GPV12.1" "2025-01-15" = Some e)
    by (vm_compute; reflexivity).
  assert (Hslots : c_slots e = Some (replicate 48 true)) by reflexivity.
  assert (Hi : (3 < length (replicate 48 true))%nat) by (simpl; lia).
  split; [exact Hget|]. split; [exact Hslots|]. split; [exact Hi|].
  exact (proj1 (proj2 (proj2
           (schedules_changed_deep_equality (H := example_runtime))))
           c "github" "GPV12.1" "2025-01-15" e (replicate 48 true) 3%nat
           Hget Hslots Hi).
Defined.

(** ** The normalizers produce DaySchedules *)

Lemma foldl_preserves {A S} (P : S → Prop) (body : S → A → S) (xs : list A) :
  (∀ s x, P s → P (body s x)) → ∀ s, P s → P (foldl body s xs).
Proof.
  intros Hbody. induction xs as [|x xs IH]; intros s Hs; simpl; eauto.
Qed.

Lemma all_day_schedules_empty `{Runtime} : all_day_schedules ∅.
Proof. intros group dates date_str e Hg. by rewrite lookup_empty in Hg. Qed.

Lemma all_day_schedules_new_group `{Runtime}
    (schedules : gmap string (gmap string Entry)) (group : string) :
  all_day_schedules schedules → all_day_schedules (<[group := ∅]> schedules).
Proof.
  intros Hall g dates date_str e Hg He.
  destruct (decide (group = g)) as [->|Hne].
  - rewrite lookup_insert_eq in Hg. injection Hg as <-.
    by rewrite lookup_empty in He.
  - rewrite lookup_insert_ne in Hg by done. eauto.
Qed.

Lemma all_day_schedules_set_record `{Runtime}
    (schedules : gmap string (gmap string Entry)) (group date_str : string)
    (e : Entry) :
  all_day_schedules schedules →
  is_day_schedule e →
  (∀ slots, e_slots e = Some slots → length slots = 48%nat) →
  all_day_schedules (set_record schedules group date_str e).
Proof.
  intros Hall He Hlen g dates d e' Hg Hd. unfold set_record in Hg.
  destruct (decide (group = g)) as [->|Hne].
  - rewrite lookup_insert_eq in Hg. simplify_eq.
    destruct (decide (date_str = d)) as [->|Hned].
    + rewrite lookup_insert_eq in Hd. by simplify_eq.
    + rewrite lookup_insert_ne in Hd by done.
      destruct (schedules !! g) as [dates|] eqn:Hgd; simpl in Hd.
      * eauto.
      * by rewrite lookup_empty in Hd.
  - rewrite lookup_insert_ne in Hg by done. eauto.
Qed.

Lemma truthy_of_length {A} (l : list A) :
  length l = 48%nat → truthy (Some l) = true.
Proof. by destruct l. Qed.

(** Whenever the GitHub-style normalizer returns, every record it stored
    is a DaySchedule: [pending] without slots, or [normal] with an array of
    48 slots. *)
Theorem extract_github_schedules_valid `{Runtime}
    (fact_data : gmap Z (gmap string (gmap string string)))
    (groups : list string) (result : gmap string (gmap string Entry)) :
  extract_github_schedules fact_data groups = Some result →
  all_day_schedules result.
Proof.
  unfold extract_github_schedules.
  destruct (decide (fact_data = ∅));
    [intros [= <-]; apply all_day_schedules_empty|].
  apply (for_each_preserves all_day_schedules);
    [|apply all_day_schedules_empty].
  intros r group r' Hr. unfold github_group_step.
  apply (for_each_preserves all_day_schedules);
    [|by apply all_day_schedules_new_group].
  clear r r' Hr. intros r day_ts r' Hr.
  unfold github_day_step.
  destruct (default ∅ (fact_data !! day_ts) !! group) as [day_data|];
    [|by intros [= <-]].
  destruct (decide (day_data = ∅)); [by intros [= <-]|].
  destruct (fromtimestamp day_ts) as [date|]; simpl; [|done].
  destruct (is_all_yes day_data); intros [= <-].
  - apply all_day_schedules_set_record; [done| |done].
    right. split; [by left|done].
  - apply all_day_schedules_set_record; [done| |].
    + left. split; [done|]. simpl.
      apply truthy_of_length, parse_github_day_length.
    + simpl. intros slots [= <-]. apply parse_github_day_length.
Qed.

Lemma extract_github_schedules_valid_witness :
  let fact_data : gmap Z (gmap string (gmap string string)) :=
    {[ 1700000000 := {[ "GPV12.1" := {[ "1" := "no" ]} ]};
       1700086400 := {[ "GPV12.1" := {[ "1" := "yes" ]} ]} ]} in
  let result : gmap string (gmap string (Entry (H := example_runtime))) :=
    {[ "GPV12.1" :=
         {[ "1700000000" :=
              mkEntry (H := example_runtime)
                (Some (replicate 2 false ++ replicate 46 true))
                "1700000000" "normal";
            "1700086400" :=
              mkEntry (H := example_runtime) None "1700086400" "pending"
         ]} ]} in
  extract_github_schedules (H := example_runtime) fact_data ["GPV12.1"]
  = Some result
  ∧ all_day_schedules result.
Proof.
  intros fact_data result.
  assert (Hresult : extract_github_schedules (H := example_runtime)
                      fact_data ["GPV12.1"] = Some result)
    by (vm_cast_no_check (@eq_refl _ (Some result))).
  split; [exact Hresult|].
  exact (extract_github_schedules_valid (H := example_runtime)
           fact_data ["GPV12.1"] result Hresult).
Defined.

Lemma list_setitem_length {A} (l l' : list A) (i : Z) (v : A) :
  list_setitem l i v = Some l' → length l' = length l.
Proof.
  unfold list_setitem. intros Hset.
  repeat case_match; simplify_eq; by rewrite length_insert.
Qed.

Lemma apply_interval_length (slots slots' : list bool) (slot : YasnoInterval) :
  apply_interval slots slot = Some slots' → length slots' = length slots.
Proof.
  unfold apply_interval. intros Hloop.
  eapply (for_each_preserves (fun l => length l = length slots)) in Hloop;
    [done| |done].
  intros l i l' Hl Hset. apply list_setitem_length in Hset. congruence.
Qed.

(** What [parse_yasno_day] returns, when it returns, is a DaySchedule. *)
Lemma parse_yasno_day_valid (day_data : YasnoDay) (slots : option (list bool))
    (status : string) :
  parse_yasno_day day_data = Some (slots, status) →
  (status = "normal" ∧ ∃ l, slots = Some l ∧ length l = 48%nat)
  ∨ ((status = "pending" ∨ status = "emergency") ∧ slots = None).
Proof.
  unfold parse_yasno_day.
  destruct (String.eqb _ "EmergencyShutdowns").
  { intros [= <- <-]. right. split; [by right|done]. }
  destruct (yd_slots day_data) as [[|slot intervals]|].
  - intros [= <- <-]. right. split; [by left|done].
  - destruct (for_each _ _ _) as [l|] eqn:Hloop; [|done].
    intros [= <- <-]. left. split; [done|]. exists l. split; [done|].
    eapply (for_each_preserves (fun l => length l = 48%nat)) in Hloop;
      [done| |by rewrite length_replicate].
    intros l1 slot' l2 Hl1 Hstep. apply apply_interval_length in Hstep.
    congruence.
  - intros [= <- <-]. right. split; [by left|done].
Qed.

(** Every record the Yasno-style normalizer stores is a DaySchedule:
    [emergency] or [pending] without slots, or [normal] with an array of
    48 slots. *)
Theorem extract_yasno_schedules_valid `{Runtime}
    (data : gmap string (gmap string YasnoDay)) (groups : list string)
    (result : gmap string (gmap string Entry)) :
  extract_yasno_schedules data groups = Some result →
  all_day_schedules result.
Proof.
  unfold extract_yasno_schedules.
  destruct (decide (data = ∅)).
  { intros [= <-]. apply all_day_schedules_empty. }
  apply (for_each_preserves all_day_schedules);
    [|apply all_day_schedules_empty].
  clear result. intros result group result' Hresult.
  unfold yasno_group_step.
  destruct (data !! replace_GPV group) as [group_data|]; [|by intros [= <-]].
  apply (for_each_preserves all_day_schedules);
    [|by apply all_day_schedules_new_group].
  clear result result' Hresult. intros result day_key result' Hresult.
  unfold yasno_day_step.
  destruct (group_data !! day_key) as [day_data|]; [|by intros [= <-]].
  destruct (yd_date day_data) as [date_str_full|]; [|by intros [= <-]].
  destruct (fromisoformat date_str_full) as [date|]; [|done]. simpl.
  destruct (parse_yasno_day day_data) as [[slots status]|] eqn:Hparse; [|done].
  simpl. intros [= <-]. apply parse_yasno_day_valid in Hparse.
  apply all_day_schedules_set_record; [done| |].
  - destruct Hparse as [[-> (l & -> & Hlen)]|[Hstatus ->]].
    + left. split; [done|]. simpl. by apply truthy_of_length.
    + by right.
  - simpl. intros l ->.
    destruct Hparse as [[_ (l' & [= <-] & Hlen)]|[_ ?]]; done.
Qed.

Lemma extract_yasno_schedules_valid_witness :
  let day :=
    mkYasnoDay (Some "2025-01-15T00:00:00+02:00") (Some "ScheduleApplies")
      (Some [mkInterval (Some 480) (Some 720) (Some "Definite")]) in
  let data : gmap string (gmap string YasnoDay) :=
    {[ "12.1" := {[ "today" := day ]} ]} in
  let result : gmap string (gmap string (Entry (H := example_runtime))) :=
    {[ "GPV12.1" :=
         {[ "2025-01-15" :=
              mkEntry (H := example_runtime)
                (Some (replicate 16 true ++ replicate 8 false
                       ++ replicate 24 true))
                "2025-01-15" "normal" ]} ]} in
  extract_yasno_schedules (H := example_runtime) data ["GPV12.1"]
  = Some result
  ∧ all_day_schedules result.
Proof.
  intros day data result.
  assert (Hresult : extract_yasno_schedules (H := example_runtime)
                      data ["GPV12.1"] = Some result)
    by (vm_cast_no_check (@eq_refl _ (Some result))).
  split; [exact Hresult|].
  exact (extract_yasno_schedules_valid (H := example_runtime)
           data ["GPV12.1"] result Hresult).
Defined.

Lemma apply_interval_confined_witness :
  let slots := replicate 48 true in
  let slot := mkInterval (Some 480) (Some 3000) (Some "Definite") in
  length slots = 48%nat
  ∧ 0 <= default 0 (iv_start slot)
  ∧ ∃ slots',
      apply_interval slots slot = Some slots'
      ∧ length slots' = 48%nat
      ∧ ∀ j : nat,
          slots' !! j
          = if decide (480 / 30 <= Z.of_nat j < Z.min (3000 / 30) 48)
            then Some (bool_decide (iv_type slot = Some "NotPlanned"))
            else slots !! j.
Proof.
  intros slots slot.
  assert (Hlen : length slots = 48%nat) by reflexivity.
  assert (Hstart : 0 <= default 0 (iv_start slot)) by (simpl; lia).
  split; [exact Hlen|]. split; [exact Hstart|].
  exact (apply_interval_confined slots slot Hlen Hstart).
Defined.

(** A day marked [EmergencyShutdowns] is [emergency] whatever else it
    holds, and any other day whose interval list is missing or empty is
    [pending]; neither has slots. *)
Theorem parse_yasno_day_special (day_data : YasnoDay) :
  (yd_status day_data = Some "EmergencyShutdowns" →
     parse_yasno_day day_data = Some (None, "emergency"))
  ∧ (yd_status day_data ≠ Some "EmergencyShutdowns" →
     yd_slots day_data = None ∨ yd_slots day_data = Some [] →
     parse_yasno_day day_data = Some (None, "pending")).
Proof.
  unfold parse_yasno_day. split.
  - by intros ->.
  - intros Hstatus Hslots.
    destruct (String.eqb _ _) eqn:Heq.
    + apply String.eqb_eq in Heq. destruct (yd_status day_data); simplify_eq/=.
    + by destruct Hslots as [-> | ->].
Qed.

Lemma parse_yasno_day_special_witness :
  let day_data :=
    mkYasnoDay (Some "2025-01-15T00:00:00+02:00") (Some "EmergencyShutdowns")
      (Some [mkInterval (Some 0) (Some 60) (Some "Definite")]) in
  yd_status day_data = Some "EmergencyShutdowns"
  ∧ parse_yasno_day day_data = Some (None, "emergency").
Proof.
  intros day_data. split; [reflexivity|].
  exact (proj1 (parse_yasno_day_special day_data) eq_refl).
Defined.

Lemma flat_map_pairs_lookup {A B} (f g : A → B) (l : list A) :
  ∀ k : nat,
    flat_map (fun x => [f x; g x]) l !! (2 * k)%nat = f <$> l !! k
    ∧ flat_map (fun x => [f x; g x]) l !! (2 * k + 1)%nat = g <$> l !! k.
Proof.
  induction l as [|x l IH]; intros k; [done|].
  destruct k as [|k]; [done|].
  replace (2 * S k)%nat with (S (S (2 * k))) by lia.
  replace (S (S (2 * k)) + 1)%nat with (S (S (2 * k + 1))) by lia.
  simpl flat_map. simpl lookup. apply IH.
Qed.

(** Hour [h] of the payload fills slots [2(h-1)] and [2(h-1)+1] with the
    halves of its code: on/on for [yes], off/off for [no], off/on for
    [first], on/off for [second], and on/on for every other code. *)
Theorem parse_github_day_hour (day_data : gmap string string) (hour : Z) :
  1 <= hour <= 24 →
  let halves := hour_halves (hour_code day_data hour) in
  parse_github_day day_data !! Z.to_nat (2 * (hour - 1)) = Some halves.1
  ∧ parse_github_day day_data !! Z.to_nat (2 * (hour - 1) + 1) = Some halves.2
  ∧ hour_halves "yes" = (true, true)
  ∧ hour_halves "no" = (false, false)
  ∧ hour_halves "first" = (false, true)
  ∧ hour_halves "second" = (true, false)
  ∧ hour_halves "maybe" = (true, true)
  ∧ hour_halves "mfirst" = (true, true)
  ∧ hour_halves "msecond" = (true, true).
Proof.
  intros Hhour halves.
  assert (Hlookup : range 1 25 !! Z.to_nat (hour - 1) = Some hour).
  { unfold range. rewrite lookup_seqZ. split; lia. }
  rewrite parse_github_day_flat_map.
  destruct (flat_map_pairs_lookup
              (fun h => (hour_halves (hour_code day_data h)).1)
              (fun h => (hour_halves (hour_code day_data h)).2)
              (range 1 25) (Z.to_nat (hour - 1))) as [Hfirst Hsecond].
  replace (Z.to_nat (2 * (hour - 1))) with (2 * Z.to_nat (hour - 1))%nat by lia.
  replace (Z.to_nat (2 * (hour - 1) + 1))
    with (2 * Z.to_nat (hour - 1) + 1)%nat by lia.
  rewrite Hfirst, Hsecond, Hlookup. repeat split.
Qed.

Lemma parse_github_day_hour_witness :
  let day_data : gmap string string := {[ "3" := "first" ]} in
  1 <= 3 <= 24
  ∧ parse_github_day day_data !! 4%nat = Some false
  ∧ parse_github_day day_data !! 5%nat = Some true.
Proof.
  intros day_data.
  assert (Hhour : 1 <= 3 <= 24) by lia.
  split; [exact Hhour|].
  destruct (parse_github_day_hour day_data 3 Hhour) as (H1 & H2 & _).
  split; [exact H1|exact H2].
Defined.

(** ** Totals of the presenter *)

Lemma Qred_idempotent (x : Q) : Qred (Qred x) = Qred x.
Proof. apply Qred_complete, Qred_correct. Qed.

Lemma Qred_plus_zero (t : Q) : Qred t = t → Qred (Qplus t (Qmake 0 1)) = t.
Proof.
  intros Ht. rewrite <- Ht at 2. apply Qred_complete, Qplus_0_r.
Qed.

Lemma float_add_total (t h rest : Q) :
  Qred (Qplus (float_add t h) rest) = Qred (Qplus t (Qplus h rest)).
Proof.
  apply Qred_complete. unfold float_add. rewrite Qred_correct.
  symmetry. apply Qplus_assoc.
Qed.

Ltac period_loop_totals IH :=
  match goal with
  | |- context [foldl _ (?l ++ [?x], ?a, ?b) ?ps] =>
      destruct (IH (l ++ [x]) a b) as (more & Hfold & Hlen);
      [first [apply Qred_idempotent | assumption]
      |first [apply Qred_idempotent | assumption]
      |exists (x :: more); rewrite Hfold, <- app_assoc;
       split; [|simpl; by rewrite Hlen]]
  end.

(** The running totals of the list format are the reduced sums of the
    hours of the on and of the off periods, and each period adds a line. *)
Lemma list_period_loop_totals `{Runtime} (CONFIG : Config)
    (periods : list Period) :
  ∀ (lines : list string) (total_on total_off : float),
    Qred total_on = total_on → Qred total_off = total_off →
    ∃ more,
      foldl (list_period_step CONFIG) (lines, total_on, total_off) periods
      = (lines ++ more,
         Qred (Qplus total_on (hours_total true periods)),
         Qred (Qplus total_off (hours_total false periods)))
      ∧ length more = length periods.
Proof.
  induction periods as [|p periods IH]; intros lines total_on total_off Hon Hoff.
  - exists []. simpl. by rewrite app_nil_r, !Qred_plus_zero.
  - simpl foldl. simpl hours_total.
    destruct (p_is_on p); simpl Bool.eqb; cbv iota; period_loop_totals IH.
    + by rewrite float_add_total.
    + by rewrite float_add_total.
Qed.

Lemma table_period_loop_totals `{Runtime} (periods : list Period) :
  ∀ (lines : list string) (total_on total_off : float),
    Qred total_on = total_on → Qred total_off = total_off →
    ∃ more,
      foldl table_period_step (lines, total_on, total_off) periods
      = (lines ++ more,
         Qred (Qplus total_on (hours_total true periods)),
         Qred (Qplus total_off (hours_total false periods)))
      ∧ length more = length periods.
Proof.
  induction periods as [|p periods IH]; intros lines total_on total_off Hon Hoff.
  - exists []. simpl. by rewrite app_nil_r, !Qred_plus_zero.
  - simpl foldl. simpl hours_total.
    destruct (p_is_on p); simpl Bool.eqb; cbv iota; period_loop_totals IH.
    + by rewrite float_add_total.
    + by rewrite float_add_total.
Qed.

Lemma count_slots_app (v : bool) (l1 l2 : list bool) :
  count_slots v (l1 ++ l2) = count_slots v l1 + count_slots v l2.
Proof. unfold count_slots. rewrite filter_app, length_app. lia. Qed.

Lemma count_slots_replicate (v w : bool) (n : nat) :
  count_slots v (replicate n w) = if Bool.eqb w v then Z.of_nat n else 0.
Proof.
  unfold count_slots. induction n as [|n IH]; simpl.
  - by destruct (Bool.eqb w v).
  - rewrite filter_cons. destruct (decide (w = v)) as [->|Hne].
    + rewrite Bool.eqb_reflx in *. simpl. lia.
    + destruct (Bool.eqb w v) eqn:Heq; [by apply Bool.eqb_prop in Heq|done].
Qed.

Lemma count_slots_total (slots : list bool) :
  count_slots true slots + count_slots false slots = Z.of_nat (length slots).
Proof.
  unfold count_slots. induction slots as [|[] slots IH]; simpl; [done|..];
    rewrite !filter_cons; repeat case_decide; try done; simpl; lia.
Qed.

(** Over periods that tile a stretch of the day, the hours of the on (or
    off) periods add up to half the number of on (or off) slots. *)
Lemma hours_total_partition (v : bool) (periods : list Period) :
  ∀ a c, partitions a periods c → 0 <= a → c <= 48 →
    Qeq (hours_total v periods)
        (Qmult (inject_Z (count_slots v (periods_to_slots periods)))
               (Qmake 1 2)).
Proof.
  induction periods as [|p periods IH]; intros a c Hpart Ha Hc.
  - reflexivity.
  - destruct Hpart as (b & Hab & Hs & He & Hh & Hpart).
    pose proof (partitions_le _ _ _ Hpart) as Hbc.
    specialize (IH b c Hpart ltac:(lia) Hc).
    change (periods_to_slots (p :: periods))
      with (expand_period p ++ periods_to_slots periods).
    assert (Hexp : expand_period p = replicate (Z.to_nat (b - a)) (p_is_on p)).
    { destruct p as [s e on h]. simpl in *. subst s e.
      apply expand_period_rendered; lia. }
    rewrite Hexp, count_slots_app, count_slots_replicate.
    simpl hours_total. destruct (Bool.eqb (p_is_on p) v).
    + rewrite IH, Hh, Z2Nat.id by lia. rewrite inject_Z_plus. ring.
    + rewrite IH. by rewrite Z.add_0_l.
Qed.

(** The block of a day with a 48-slot schedule, in either format, ends with
    a blank line and the two totals: half the number of on slots and half
    the number of off slots, which together make 24 hours. *)
Theorem schedule_block_totals `{Runtime} (CONFIG : Config)
    (slots : list bool) (date : datetime) (sources : list string) :
  length slots = 48%nat →
  let on := count_slots true slots in
  let off := count_slots false slots in
  on + off = 48
  ∧ ∃ lines,
      format_schedule_message CONFIG (slots_to_periods slots) date sources None
      = join nl (lines ++ [""]
                 ++ totals_lines CONFIG (int_times_float on float_half)
                                        (int_times_float off float_half)).
Proof.
  intros Hlen on off.
  split; [unfold on, off; rewrite count_slots_total; lia|].
  destruct (slots_to_periods_inv slots) as (Hpart & Hround & _);
    [by intros ->|lia|].
  assert (Htotal : ∀ v,
    Qred (Qplus float_zero (hours_total v (slots_to_periods slots)))
    = int_times_float (count_slots v slots) float_half).
  { intros v. apply Qred_complete. rewrite Qplus_0_l.
    rewrite (hours_total_partition v _ 0 _ Hpart) by lia.
    by rewrite Hround. }
  unfold format_schedule_message.
  destruct (String.eqb (display_format CONFIG) "table").
  - unfold format_schedule_table. cbv zeta. simpl special_lines.
    match goal with
    | |- context [foldl _ (?l, ?a, ?b) ?ps] =>
        destruct (table_period_loop_totals ps l a b) as (more & -> & _);
        [done|done|exists ((l ++ more) ++ [separator_table_row CONFIG])]
    end.
    rewrite !Htotal. by rewrite <- !app_assoc.
  - unfold format_schedule_list. cbv zeta. simpl special_lines.
    match goal with
    | |- context [foldl _ (?l, ?a, ?b) ?ps] =>
        destruct (list_period_loop_totals CONFIG ps l a b) as (more & -> & _);
        [done|done|exists (l ++ more)]
    end.
    by rewrite !Htotal.
Qed.

Lemma schedule_block_totals_witness :
  let slots := replicate 14 true ++ replicate 8 false ++ replicate 26 true in
  length slots = 48%nat
  ∧ count_slots true slots + count_slots false slots = 48.
Proof.
  intros slots.
  assert (Hlen : length slots = 48%nat) by reflexivity.
  split; [exact Hlen|].
  exact (proj1 (schedule_block_totals (H := example_runtime) DEFAULT_CONFIG
                  slots "2025-01-15" ["yasno"] Hlen)).
Defined.

(** ** Time rendering, minute by minute *)

(** Every minute of the day is rendered as a five-character [HH:MM] text
    from which it can be read back, so distinct minutes give distinct
    texts; from 24:00 on, up to 24:59, the minutes are dropped and the
    text is [24:00]. *)
Theorem format_time_round_trip (minutes : Z) :
  (0 <= minutes < 1440 →
     minutes_of_time (format_time minutes) = Some minutes
     ∧ String.length (format_time minutes) = 5%nat)
  ∧ (1440 <= minutes < 1500 → format_time minutes = "24:00").
Proof.
  split.
  - intros Hm.
    assert (Hall : forallb
              (fun m => bool_decide
                 (minutes_of_time (format_time m) = Some m
                  ∧ String.length (format_time m) = 5%nat))
              (seqZ 0 1440) = true) by (vm_compute; reflexivity).
    rewrite forallb_forall in Hall.
    specialize (Hall minutes). rewrite bool_decide_eq_true in Hall.
    apply Hall, list_elem_of_In, elem_of_seqZ. lia.
  - intros Hm. unfold format_time.
    assert (24 = minutes / 60) as <-; [|done].
    apply Z.div_unique with (r := minutes - 1440); lia.
Qed.

Lemma format_time_round_trip_witness :
  0 <= 570 < 1440
  ∧ minutes_of_time (format_time 570) = Some 570
  ∧ 1440 <= 1470 < 1500
  ∧ format_time 1470 = "24:00".
Proof.
  assert (H1 : 0 <= 570 < 1440) by lia.
  assert (H2 : 1440 <= 1470 < 1500) by lia.
  split; [exact H1|]. split.
  - exact (proj1 (proj1 (format_time_round_trip 570) H1)).
  - split; [exact H2|]. exact (proj2 (format_time_round_trip 1470) H2).
Defined.

(** ** The days the GitHub-style normalizer considers *)

(** The days considered are the two earliest timestamps of the payload, in
    ascending order. *)
Theorem sorted_days_earliest {V} (fact_data : gmap Z V) :
  length (sorted_days fact_data) = Nat.min 2 (size fact_data)
  ∧ NoDup (sorted_days fact_data)
  ∧ StronglySorted Z.le (sorted_days fact_data)
  ∧ (∀ ts, ts ∈ sorted_days fact_data → is_Some (fact_data !! ts))
  ∧ (∀ ts k, ts ∈ sorted_days fact_data → is_Some (fact_data !! k) →
       k ∉ sorted_days fact_data → ts <= k).
Proof.
  unfold sorted_days.
  set (l := merge_sort Z.le (elements (dom fact_data))).
  assert (Hperm : l ≡ₚ elements (dom fact_data))
    by apply merge_sort_Permutation.
  assert (Hsorted : StronglySorted Z.le l)
    by (apply StronglySorted_merge_sort; apply _).
  assert (Hnodup : NoDup l) by (rewrite Hperm; apply NoDup_elements).
  assert (Hin : ∀ k, k ∈ l ↔ is_Some (fact_data !! k)).
  { intros k. by rewrite Hperm, elem_of_elements, elem_of_dom. }
  assert (Hlen : length l = size fact_data).
  { rewrite Hperm. rewrite <- size_dom. done. }
  rewrite <- (take_drop 2 l) in Hsorted, Hnodup, Hin.
  repeat split.
  - rewrite length_take, Hlen. lia.
  - by apply NoDup_app in Hnodup as (? & _ & _).
  - by apply StronglySorted_app_1_l in Hsorted.
  - intros ts Hts. apply Hin, elem_of_app. by left.
  - intros ts k Hts Hk Hnot. apply Hin, elem_of_app in Hk as [Hk|Hk]; [done|].
    by eapply StronglySorted_app_1_elem_of.
Qed.

Lemma sorted_days_length {V} (fact_data : gmap Z V) :
  (length (sorted_days fact_data) ≤ 2)%nat.
Proof. unfold sorted_days. rewrite length_take. lia. Qed.

(** ** Yasno intervals: what is written, and when the parser raises *)

Lemma foldl_insert_positions_length {A} (positions : list nat) (v : A) :
  ∀ l : list A,
    length (foldl (fun l p => <[p := v]> l) l positions) = length l.
Proof.
  induction positions as [|p positions IH]; intros l; simpl; [done|].
  by rewrite IH, length_insert.
Qed.

Lemma foldl_insert_positions_lookup {A} (positions : list nat) (v : A)
    (j : nat) :
  ∀ l : list A,
    (j < length l)%nat →
    foldl (fun l p => <[p := v]> l) l positions !! j
    = if decide (j ∈ positions) then Some v else l !! j.
Proof.
  induction positions as [|p positions IH]; intros l Hj; simpl.
  - destruct (decide (j ∈ [])) as [Hin|_]; [by apply elem_of_nil in Hin|done].
  - rewrite IH by (by rewrite length_insert).
    destruct (decide (j ∈ positions)) as [Hin|Hnotin];
      destruct (decide (j ∈ p :: positions)) as [Hin'|Hnotin'].
    + done.
    + destruct Hnotin'. by right.
    + apply elem_of_cons in Hin' as [->|?]; [|done].
      by apply list_lookup_insert_eq.
    + apply list_lookup_insert_ne. intros ->. apply Hnotin'. by left.
Qed.

Lemma list_setitem_position {A} (l : list A) (i : Z) (v : A) :
  - Z.of_nat (length l) <= i < Z.of_nat (length l) →
  list_setitem l i v = Some (<[index_position (length l) i := v]> l).
Proof.
  intros Hi. unfold list_setitem, index_position.
  destruct (0 <=? i) eqn:H0; simpl.
  - destruct (i <? Z.of_nat (length l)) eqn:H1; [done|lia].
  - destruct (- Z.of_nat (length l) <=? i) eqn:H1; [|lia].
    destruct (i <? 0) eqn:H2; [done|lia].
Qed.

Lemma list_setitem_raises {A} (l : list A) (i : Z) (v : A) :
  i < - Z.of_nat (length l) → list_setitem l i v = None.
Proof.
  intros Hi. unfold list_setitem.
  destruct (0 <=? i) eqn:H0; [lia|]. simpl.
  destruct (- Z.of_nat (length l) <=? i) eqn:H1; [lia|done].
Qed.

Lemma for_each_setitem_positions {A} (indices : list Z) (v : A) (n : nat) :
  ∀ l : list A,
    length l = n →
    Forall (fun i => - Z.of_nat n <= i < Z.of_nat n) indices →
    for_each indices (fun l i => list_setitem l i v) l
    = Some (foldl (fun l p => <[p := v]> l) l
                  (index_position n <$> indices)).
Proof.
  induction indices as [|i indices IH]; intros l Hlen Hall; simpl; [done|].
  apply Forall_cons in Hall as [Hi Hall].
  rewrite list_setitem_position by (rewrite Hlen; lia).
  rewrite Hlen. apply IH; [|done]. by rewrite length_insert.
Qed.

Lemma interval_raises_spec (slot : YasnoInterval) :
  interval_raises slot = true
  ↔ interval_start_idx slot < -48
    ∧ interval_start_idx slot < Z.min (interval_end_idx slot) 48.
Proof.
  unfold interval_raises. rewrite andb_true_iff, !Z.ltb_lt. done.
Qed.

Lemma interval_writes_position (slot : YasnoInterval) (j : nat) :
  (j < 48)%nat →
  - 48 <= interval_start_idx slot →
  interval_writes slot (Z.of_nat j) = true
  ↔ j ∈ index_position 48
          <$> range (interval_start_idx slot)
                    (Z.min (interval_end_idx slot) 48).
Proof.
  intros Hj Hstart. unfold interval_writes.
  rewrite orb_true_iff, !andb_true_iff, !Z.leb_le, !Z.ltb_lt.
  rewrite list_elem_of_fmap. split.
  - intros [[H1 H2]|[H1 H2]].
    + exists (Z.of_nat j). rewrite elem_of_range. split; [|lia].
      unfold index_position. destruct (0 <=? Z.of_nat j) eqn:H0; lia.
    + exists (Z.of_nat j - 48). rewrite elem_of_range. split; [|lia].
      unfold index_position.
      destruct (0 <=? Z.of_nat j - 48) eqn:H0; lia.
  - intros (i & Hpos & Hi). apply elem_of_range in Hi.
    unfold index_position in Hpos.
    destruct (0 <=? i) eqn:H0; [left|right]; lia.
Qed.

(** The complete behaviour of one interval on a 48-slot array. *)
Lemma apply_interval_cases (slots : list bool) (slot : YasnoInterval) :
  length slots = 48%nat →
  if interval_raises slot then apply_interval slots slot = None
  else ∃ slots',
         apply_interval slots slot = Some slots'
         ∧ length slots' = 48%nat
         ∧ ∀ j : nat, (j < 48)%nat →
             slots' !! j
             = if interval_writes slot (Z.of_nat j)
               then Some (interval_is_on slot) else slots !! j.
Proof.
  intros Hlen. unfold apply_interval.
  fold (interval_start_idx slot) (interval_end_idx slot) (interval_is_on slot).
  destruct (interval_raises slot) eqn:Hraises.
  - apply interval_raises_spec in Hraises as [Hlow Hnonempty].
    unfold range.
    rewrite seqZ_cons by lia. simpl.
    by rewrite list_setitem_raises by (rewrite Hlen; lia).
  - assert (Hcases : - 48 <= interval_start_idx slot
                     ∨ Z.min (interval_end_idx slot) 48
                       <= interval_start_idx slot).
    { apply not_true_iff_false in Hraises.
      rewrite interval_raises_spec in Hraises. lia. }
    destruct Hcases as [Hstart|Hempty].
    + rewrite (for_each_setitem_positions _ _ 48); [|done|].
      * eexists. split; [done|]. split.
        -- by rewrite foldl_insert_positions_length.
        -- intros j Hj.
           rewrite foldl_insert_positions_lookup by lia.
           destruct (interval_writes slot (Z.of_nat j)) eqn:Hw.
           ++ apply interval_writes_position in Hw; [|done|done].
              by rewrite decide_True.
           ++ rewrite decide_False; [done|].
              rewrite <- interval_writes_position by done. congruence.
      * apply Forall_forall. intros i Hi. apply elem_of_range in Hi. lia.
    + unfold range. rewrite seqZ_nil by lia. simpl.
      exists slots. split; [done|]. split; [done|].
      intros j Hj. unfold interval_writes.
      rewrite (proj2 (andb_false_iff _ _)), (proj2 (andb_false_iff _ _));
        [done| |].
      * rewrite Z.leb_gt, Z.ltb_ge. lia.
      * rewrite Z.leb_gt, Z.ltb_ge. lia.
Qed.

(** One interval on a 48-slot array: it raises exactly when it has an
    index to write and starts before index -48; otherwise the array keeps
    its length, and a slot is set to the interval's value when its index,
    or its index counted from the end, lies between the start index and
    [min(end index, 48)], and is left as it was when not. *)
Theorem apply_interval_spec (slots : list bool) (slot : YasnoInterval) :
  length slots = 48%nat →
  (apply_interval slots slot = None ↔ interval_raises slot = true)
  ∧ (interval_raises slot = false →
     ∃ slots',
       apply_interval slots slot = Some slots'
       ∧ length slots' = 48%nat
       ∧ ∀ j : nat, (j < 48)%nat →
           slots' !! j
           = if interval_writes slot (Z.of_nat j)
             then Some (interval_is_on slot) else slots !! j).
Proof.
  intros Hlen. pose proof (apply_interval_cases slots slot Hlen) as Hcases.
  destruct (interval_raises slot).
  - split; [by rewrite Hcases|done].
  - destruct Hcases as (slots' & Hs & ?). split; [|by eauto].
    rewrite Hs. split; done.
Qed.

Lemma apply_interval_spec_witness :
  let slots := replicate 48 true in
  let slot := mkInterval (Some (-60)) (Some 60) (Some "Definite") in
  length slots = 48%nat
  ∧ interval_raises slot = false
  ∧ ∃ slots',
      apply_interval slots slot = Some slots'
      ∧ length slots' = 48%nat
      ∧ ∀ j : nat, (j < 48)%nat →
          slots' !! j
          = if interval_writes slot (Z.of_nat j)
            then Some (interval_is_on slot) else slots !! j.
Proof.
  intros slots slot.
  assert (Hlen : length slots = 48%nat) by reflexivity.
  assert (Hraises : interval_raises slot = false) by reflexivity.
  split; [exact Hlen|]. split; [exact Hraises|].
  exact (proj2 (apply_interval_spec slots slot Hlen) Hraises).
Defined.

(** Applying a list of intervals none of which raises. *)
Lemma apply_intervals_last_write (intervals : list YasnoInterval) :
  ∀ slots : list bool,
    length slots = 48%nat →
    Forall (fun slot => interval_raises slot = false) intervals →
    ∃ slots',
      for_each intervals apply_interval slots = Some slots'
      ∧ length slots' = 48%nat
      ∧ ∀ (j : nat) (b : bool), slots !! j = Some b →
          slots' !! j = Some (last_write intervals b (Z.of_nat j)).
Proof.
  induction intervals as [|slot intervals IH]; intros slots Hlen Hall.
  - exists slots. by repeat split.
  - apply Forall_cons in Hall as [Hslot Hall].
    pose proof (apply_interval_cases slots slot Hlen) as Hcases.
    rewrite Hslot in Hcases. destruct Hcases as (slots1 & Hs1 & Hlen1 & Hw).
    destruct (IH slots1 Hlen1 Hall) as (slots' & Hs' & Hlen' & Hlast).
    exists slots'. simpl. rewrite Hs1. split; [done|]. split; [done|].
    intros j b Hj.
    assert (Hjlt : (j < 48)%nat) by (rewrite <- Hlen; by eapply lookup_lt_Some).
    specialize (Hw j Hjlt). unfold last_write. simpl.
    destruct (interval_writes slot (Z.of_nat j)).
    + by apply Hlast.
    + apply Hlast. by rewrite Hw.
Qed.

Lemma apply_intervals_raise (intervals : list YasnoInterval) :
  ∀ slots : list bool,
    length slots = 48%nat →
    Exists (fun slot => interval_raises slot = true) intervals →
    for_each intervals apply_interval slots = None.
Proof.
  induction intervals as [|slot intervals IH]; intros slots Hlen Hex.
  - by apply Exists_nil in Hex.
  - simpl. pose proof (apply_interval_cases slots slot Hlen) as Hcases.
    destruct (interval_raises slot) eqn:Hslot.
    + by rewrite Hcases.
    + destruct Hcases as (slots1 & -> & Hlen1 & _).
      apply IH; [done|]. apply Exists_cons in Hex as [Hex|Hex]; [|done].
      congruence.
Qed.

(** Overlapping intervals: the last one in payload order wins. For a day
    that is not an emergency and whose intervals do not raise, the result
    is [normal] with 48 slots, and each slot holds the value of the last
    interval that writes it, or on when none does. *)
Theorem parse_yasno_day_last_write (day_data : YasnoDay)
    (intervals : list YasnoInterval) :
  yd_status day_data ≠ Some "EmergencyShutdowns" →
  yd_slots day_data = Some intervals →
  intervals ≠ [] →
  Forall (fun slot => interval_raises slot = false) intervals →
  ∃ slots,
    parse_yasno_day day_data = Some (Some slots, "normal")
    ∧ length slots = 48%nat
    ∧ ∀ j : nat, (j < 48)%nat →
        slots !! j = Some (last_write intervals true (Z.of_nat j)).
Proof.
  intros Hstatus Hslots Hne Hall. unfold parse_yasno_day.
  destruct (String.eqb _ _) eqn:Heq.
  { apply String.eqb_eq in Heq. destruct (yd_status day_data); simplify_eq/=. }
  rewrite Hslots. destruct intervals as [|slot intervals]; [done|].
  destruct (apply_intervals_last_write (slot :: intervals) (replicate 48 true))
    as (slots & -> & Hlen & Hlast); [by rewrite length_replicate|done|].
  exists slots. split; [done|]. split; [done|].
  intros j Hj. apply Hlast. by apply lookup_replicate_2.
Qed.

Lemma parse_yasno_day_last_write_witness :
  let intervals :=
    [mkInterval (Some 0) (Some 600) (Some "Definite");
     mkInterval (Some 300) (Some 420) (Some "NotPlanned")] in
  let day_data :=
    mkYasnoDay (Some "2025-01-15T00:00:00+02:00") (Some "ScheduleApplies")
      (Some intervals) in
  Forall (fun slot => interval_raises slot = false) intervals
  ∧ ∃ slots,
      parse_yasno_day day_data = Some (Some slots, "normal")
      ∧ length slots = 48%nat
      ∧ ∀ j : nat, (j < 48)%nat →
          slots !! j = Some (last_write intervals true (Z.of_nat j)).
Proof.
  intros intervals day_data.
  assert (Hall : Forall (fun slot => interval_raises slot = false) intervals).
  { repeat (apply Forall_cons; split; [reflexivity|]). apply Forall_nil. done. }
  split; [exact Hall|].
  apply (parse_yasno_day_last_write day_data intervals).
  - intros Heq. discriminate Heq.
  - reflexivity.
  - intros Heq. discriminate Heq.
  - exact Hall.
Defined.

(** [parse_yasno_day] raises exactly on a day that is not an emergency and
    has an interval that raises. *)
Theorem parse_yasno_day_raises_iff (day_data : YasnoDay) :
  parse_yasno_day day_data = None
  ↔ yd_status day_data ≠ Some "EmergencyShutdowns"
    ∧ ∃ intervals,
        yd_slots day_data = Some intervals
        ∧ Exists (fun slot => interval_raises slot = true) intervals.
Proof.
  unfold parse_yasno_day.
  destruct (String.eqb _ _) eqn:Heq.
  { apply String.eqb_eq in Heq. split; [done|]. intros [Hstatus _].
    destruct (yd_status day_data); simplify_eq/=. }
  assert (Hstatus : yd_status day_data ≠ Some "EmergencyShutdowns").
  { intros Hs. rewrite Hs in Heq. simpl in Heq. done. }
  destruct (yd_slots day_data) as [[|slot intervals]|].
  - split; [done|]. intros (_ & l & [= <-] & Hex). by apply Exists_nil in Hex.
  - destruct (decide (Exists (fun slot => interval_raises slot = true)
                             (slot :: intervals))) as [Hex|Hnex].
    + rewrite apply_intervals_raise by (done || by rewrite length_replicate).
      split; [|done]. intros _. split; [done|]. by exists (slot :: intervals).
    + destruct (apply_intervals_last_write (slot :: intervals)
                  (replicate 48 true)) as (slots & -> & _);
        [by rewrite length_replicate| |].
      * apply Forall_forall. intros s Hs.
        apply not_true_is_false. intros Hr. apply Hnex.
        apply Exists_exists. eauto.
      * split; [done|]. intros (_ & l & [= <-] & Hex). done.
  - split; [done|]. intros (_ & l & ? & _). done.
Qed.

(** ** The Yasno-style normalizer: when it raises, and what it keeps *)

Lemma for_each_none_iff {A S} (F : A → Prop) (body : S → A → option S)
    (xs : list A) :
  (∀ s x, body s x = None ↔ F x) →
  ∀ s, for_each xs body s = None ↔ Exists F xs.
Proof.
  intros Hbody. induction xs as [|x xs IH]; intros s; simpl.
  - split; [done|]. intros Hex. by apply Exists_nil in Hex.
  - rewrite Exists_cons. destruct (body s x) as [s'|] eqn:Hx.
    + rewrite IH. split; [by right|]. intros [HF|?]; [|done].
      apply Hbody with (s := s) in HF. congruence.
    + split; [|done]. intros _. left. by eapply Hbody.
Qed.

Lemma yasno_day_step_none `{Runtime} (group_data : gmap string YasnoDay)
    (group : string) (result : gmap string (gmap string Entry))
    (day_key : string) :
  yasno_day_step group_data group result day_key = None
  ↔ yasno_day_fails group_data day_key.
Proof.
  unfold yasno_day_step, yasno_day_fails.
  destruct (group_data !! day_key) as [day_data|].
  2: { split; [done|]. by intros (? & ? & ? & _). }
  destruct (yd_date day_data) as [date_str_full|] eqn:Hdate.
  2: { split; [done|]. intros (? & ? & [= <-] & ? & _). congruence. }
  destruct (fromisoformat date_str_full) as [date|] eqn:Hiso; simpl.
  2: { split; [|done]. intros _. exists day_data, date_str_full. by eauto. }
  destruct (parse_yasno_day day_data) as [[slots status]|] eqn:Hparse; simpl.
  - split; [done|]. intros (? & ? & [= <-] & ? & [?|?]); congruence.
  - split; [|done]. intros _. exists day_data, date_str_full. by eauto.
Qed.

Lemma yasno_group_step_none `{Runtime}
    (data : gmap string (gmap string YasnoDay))
    (result : gmap string (gmap string Entry)) (group : string) :
  yasno_group_step data result group = None
  ↔ ∃ group_data,
      data !! replace_GPV group = Some group_data
      ∧ Exists (yasno_day_fails group_data) ["today"; "tomorrow"].
Proof.
  unfold yasno_group_step.
  destruct (data !! replace_GPV group) as [group_data|].
  2: { split; [done|]. by intros (? & ? & _). }
  rewrite (for_each_none_iff (yasno_day_fails group_data)).
  - split; [by exists group_data|]. by intros (? & [= <-] & ?).
  - intros s x. apply yasno_day_step_none.
Qed.

(** The Yasno-style normalizer raises exactly when a configured group that
    the payload covers has a [today] or [tomorrow] entry with a date that
    does not parse or with intervals that raise. *)
Theorem extract_yasno_schedules_raises_iff `{Runtime}
    (data : gmap string (gmap string YasnoDay)) (groups : list string) :
  extract_yasno_schedules data groups = None
  ↔ ∃ group group_data day_key,
      group ∈ groups
      ∧ data !! replace_GPV group = Some group_data
      ∧ day_key ∈ ["today"; "tomorrow"]
      ∧ yasno_day_fails group_data day_key.
Proof.
  unfold extract_yasno_schedules.
  destruct (decide (data = ∅)) as [->|Hne].
  { split; [done|]. intros (g & gd & _ & _ & Hg & _).
    by rewrite lookup_empty in Hg. }
  rewrite (for_each_none_iff
             (fun group => ∃ group_data,
                data !! replace_GPV group = Some group_data
                ∧ Exists (yasno_day_fails group_data) ["today"; "tomorrow"])).
  - rewrite Exists_exists. split.
    + intros (g & Hg & gd & Hgd & Hex). apply Exists_exists in Hex.
      destruct Hex as (dk & ? & ?). by exists g, gd, dk.
    + intros (g & gd & dk & ? & ? & ? & ?). exists g. split; [done|].
      exists gd. split; [done|]. apply Exists_exists. eauto.
  - intros s x. apply yasno_group_step_none.
Qed.

Lemma yasno_record_origin_mono `{Runtime} (group_data : gmap string YasnoDay)
    (keys keys' : list string) (date_str : string) (e : Entry) :
  keys ⊆ keys' →
  yasno_record_origin group_data keys date_str e →
  yasno_record_origin group_data keys' date_str e.
Proof.
  intros Hsub (dk & day & s & date & Hdk & ?).
  exists dk, day, s, date. split; [by apply Hsub|done].
Qed.

Lemma yasno_day_step_cases `{Runtime} (group_data : gmap string YasnoDay)
    (group : string) (result result' : gmap string (gmap string Entry))
    (day_key : string) :
  yasno_day_step group_data group result day_key = Some result' →
  result' = result
  ∨ ∃ date_str e,
      yasno_record_origin group_data [day_key] date_str e
      ∧ result' = set_record result group date_str e.
Proof.
  unfold yasno_day_step.
  destruct (group_data !! day_key) as [day_data|] eqn:Hday;
    [|intros [= <-]; by left].
  destruct (yd_date day_data) as [date_str_full|] eqn:Hdate;
    [|intros [= <-]; by left].
  destruct (fromisoformat date_str_full) as [date|] eqn:Hiso; [|done]. simpl.
  destruct (parse_yasno_day day_data) as [[slots status]|] eqn:Hparse; [|done].
  simpl. intros [= <-]. right. eexists _, _. split; [|reflexivity].
  exists day_key, day_data, date_str_full, date.
  repeat split; try done. by apply list_elem_of_singleton.
Qed.

Lemma yasno_days_loop `{Runtime} (group_data : gmap string YasnoDay)
    (group : string) (day_keys : list string) :
  ∀ (seen : list string) (result result' : gmap string (gmap string Entry)),
    yasno_days_inv group_data group seen result →
    for_each day_keys (yasno_day_step group_data group) result = Some result' →
    yasno_days_inv group_data group (seen ++ day_keys) result'
    ∧ ∀ g, g ≠ group → result' !! g = result !! g.
Proof.
  induction day_keys as [|day_key day_keys IH];
    intros seen result result' Hinv Hloop; simpl in Hloop.
  - injection Hloop as <-. by rewrite app_nil_r.
  - destruct (yasno_day_step group_data group result day_key)
      as [result1|] eqn:Hstep; [|done].
    replace (seen ++ day_key :: day_keys)
      with ((seen ++ [day_key]) ++ day_keys) by (by rewrite <- app_assoc).
    destruct Hinv as (dates & Hdates & Hsize & Horigin).
    apply yasno_day_step_cases in Hstep as [->|(d0 & e0 & He0 & ->)].
    + eapply IH; [|exact Hloop]. exists dates. split; [done|]. split.
      * rewrite length_app. simpl. lia.
      * intros d e Hd. eapply yasno_record_origin_mono; [|by eapply Horigin].
        set_solver.
    + destruct (IH (seen ++ [day_key]) (set_record result group d0 e0) result')
        as [Hinv' Hframe]; [|exact Hloop|].
      * unfold set_record. rewrite Hdates. simpl.
        eexists. split; [apply lookup_insert_eq|]. split.
        -- rewrite length_app, map_size_insert.
           destruct (dates !! d0); simpl; lia.
        -- intros d e Hd. destruct (decide (d0 = d)) as [<-|Hne].
           ++ rewrite lookup_insert_eq in Hd. injection Hd as <-.
              eapply yasno_record_origin_mono; [|exact He0]. set_solver.
           ++ rewrite lookup_insert_ne in Hd by done.
              eapply yasno_record_origin_mono; [|by eapply Horigin].
              set_solver.
      * split; [done|]. intros g Hg. rewrite Hframe by done.
        unfold set_record. by rewrite lookup_insert_ne.
Qed.

Lemma yasno_group_step_inv `{Runtime}
    (data : gmap string (gmap string YasnoDay))
    (result result' : gmap string (gmap string Entry)) (group : string) :
  yasno_groups_inv data result →
  yasno_group_step data result group = Some result' →
  yasno_groups_inv data result'.
Proof.
  intros Hinv. unfold yasno_group_step.
  destruct (data !! replace_GPV group) as [group_data|] eqn:Hkey;
    [|by intros [= <-]].
  intros Hloop.
  apply (yasno_days_loop group_data group _ []) in Hloop as [Hdays Hframe].
  - intros g dates Hg. destruct (decide (g = group)) as [->|Hne].
    + destruct Hdays as (dates' & Hg' & Hsize & Horigin).
      rewrite Hg in Hg'. injection Hg' as <-. by exists group_data.
    + rewrite Hframe, lookup_insert_ne in Hg by done. by apply Hinv.
  - exists ∅. split; [apply lookup_insert_eq|]. split; [done|].
    intros d e Hd. by rewrite lookup_empty in Hd.
Qed.

(** What the Yasno-style normalizer keeps, when it returns: each entry
    belongs to a group the payload covers and has at most two records, and
    every record comes from the group's [today] or [tomorrow] entry: it is
    stored under that entry's date and holds what [parse_yasno_day]
    returned for it. *)
Theorem extract_yasno_schedules_shape `{Runtime}
    (data : gmap string (gmap string YasnoDay)) (groups : list string)
    (result : gmap string (gmap string Entry)) :
  extract_yasno_schedules data groups = Some result →
  yasno_groups_inv data result.
Proof.
  unfold extract_yasno_schedules.
  destruct (decide (data = ∅)).
  { intros [= <-] g dates Hg. by rewrite lookup_empty in Hg. }
  apply (for_each_preserves (yasno_groups_inv data)).
  - intros r g r' Hr Hstep. by eapply yasno_group_step_inv.
  - intros g dates Hg. by rewrite lookup_empty in Hg.
Qed.

Lemma extract_yasno_schedules_shape_witness :
  let today :=
    mkYasnoDay (Some "2025-01-15T00:00:00+02:00") (Some "ScheduleApplies")
      (Some [mkInterval (Some 480) (Some 720) (Some "Definite")]) in
  let tomorrow :=
    mkYasnoDay (Some "2025-01-16T00:00:00+02:00") (Some "EmergencyShutdowns")
      None in
  let data : gmap string (gmap string YasnoDay) :=
    {[ "12.1" := {[ "today" := today; "tomorrow" := tomorrow ]} ]} in
  let result : gmap string (gmap string (Entry (H := example_runtime))) :=
    {[ "GPV12.1" :=
         {[ "2025-01-15" :=
              mkEntry (H := example_runtime)
                (Some (replicate 16 true ++ replicate 8 false
                       ++ replicate 24 true))
                "2025-01-15" "normal";
            "2025-01-16" :=
              mkEntry (H := example_runtime) None "2025-01-16" "emergency"
         ]} ]} in
  extract_yasno_schedules (H := example_runtime) data ["GPV12.1"; "GPV3.2"]
  = Some result
  ∧ yasno_groups_inv (H := example_runtime) data result.
Proof.
  intros today tomorrow data result.
  assert (Hresult : extract_yasno_schedules (H := example_runtime)
                      data ["GPV12.1"; "GPV3.2"] = Some result)
    by (vm_cast_no_check (@eq_refl _ (Some result))).
  split; [exact Hresult|].
  exact (extract_yasno_schedules_shape (H := example_runtime)
           data ["GPV12.1"; "GPV3.2"] result Hresult).
Defined.

(** ** The GitHub-style normalizer: when it raises, and what it keeps *)





Lemma github_record_origin_mono `{Runtime}
    (fact_data : gmap Z (gmap string (gmap string string)))
    (days days' : list Z) (group date_str : string) (e : Entry) :
  days ⊆ days' →
  github_record_origin fact_data days group date_str e →
  github_record_origin fact_data days' group date_str e.
Proof.
  intros Hsub (ts & dd & date & Hts & ?). exists ts, dd, date.
  split; [by apply Hsub|done].
Qed.

Lemma github_day_step_cases `{Runtime}
    (fact_data : gmap Z (gmap string (gmap string string)))
    (group : string) (result result' : gmap string (gmap string Entry))
    (day_ts : Z) :
  github_day_step fact_data group result day_ts = Some result' →
  result' = result
  ∨ ∃ date_str e,
      github_record_origin fact_data [day_ts] group date_str e
      ∧ result' = set_record result group date_str e.
Proof.
  unfold github_day_step.
  destruct (default ∅ (fact_data !! day_ts) !! group) as [day_data|] eqn:Hget;
    [|intros [= <-]; by left].
  destruct (decide (day_data = ∅)); [intros [= <-]; by left|].
  destruct (fromtimestamp day_ts) as [date|] eqn:Hdate; simpl; [|done].
  destruct (is_all_yes day_data) eqn:Hall; intros [= <-]; right;
    eexists _, _; (split; [|reflexivity]);
    exists day_ts, day_data, date; rewrite Hall;
    repeat split; try done; by apply list_elem_of_singleton.
Qed.

(** The day loop only touches the entry of its group, where it adds at
    most one record per day. *)
Lemma github_days_loop `{Runtime}
    (fact_data : gmap Z (gmap string (gmap string string)))
    (group : string) (days : list Z) :
  ∀ (seen : list Z) (result result' : gmap string (gmap string Entry)),
    github_days_inv fact_data group seen result →
    for_each days (github_day_step fact_data group) result = Some result' →
    github_days_inv fact_data group (seen ++ days) result'
    ∧ ∀ g, g ≠ group → result' !! g = result !! g.
Proof.
  induction days as [|day_ts days IH];
    intros seen result result' Hinv Hloop; simpl in Hloop.
  - injection Hloop as <-. by rewrite app_nil_r.
  - destruct (github_day_step fact_data group result day_ts)
      as [result1|] eqn:Hstep; [|done].
    replace (seen ++ day_ts :: days) with ((seen ++ [day_ts]) ++ days)
      by (by rewrite <- app_assoc).
    destruct Hinv as (dates & Hdates & Hsize & Horigin).
    apply github_day_step_cases in Hstep as [->|(d0 & e0 & He0 & ->)].
    + eapply IH; [|exact Hloop]. exists dates. split; [done|]. split.
      * rewrite length_app. simpl. lia.
      * intros d e Hd. eapply github_record_origin_mono; [|by eapply Horigin].
        set_solver.
    + destruct (IH (seen ++ [day_ts]) (set_record result group d0 e0) result')
        as [Hinv' Hframe]; [|exact Hloop|].
      * unfold set_record. rewrite Hdates. simpl.
        eexists. split; [apply lookup_insert_eq|]. split.
        -- rewrite length_app, map_size_insert.
           destruct (dates !! d0); simpl; lia.
        -- intros d e Hd. destruct (decide (d0 = d)) as [<-|Hne].
           ++ rewrite lookup_insert_eq in Hd. injection Hd as <-.
              eapply github_record_origin_mono; [|exact He0]. set_solver.
           ++ rewrite lookup_insert_ne in Hd by done.
              eapply github_record_origin_mono; [|by eapply Horigin].
              set_solver.
      * split; [done|]. intros g Hg. rewrite Hframe by done.
        unfold set_record. by rewrite lookup_insert_ne.
Qed.

(** One turn of the group loop. *)
Lemma github_group_step_inv `{Runtime}
    (fact_data : gmap Z (gmap string (gmap string string)))
    (group : string) (result result' : gmap string (gmap string Entry)) :
  github_group_step fact_data result group = Some result' →
  github_days_inv fact_data group (sorted_days fact_data) result'
  ∧ ∀ g, g ≠ group → result' !! g = result !! g.
Proof.
  unfold github_group_step. intros Hloop.
  apply (github_days_loop fact_data group _ []) in Hloop as [Hinv Hframe].
  - split; [done|]. intros g Hg. rewrite Hframe by done.
    by rewrite lookup_insert_ne.
  - exists ∅. split; [apply lookup_insert_eq|]. split; [done|].
    intros d e Hd. by rewrite lookup_empty in Hd.
Qed.

Lemma github_groups_loop `{Runtime}
    (fact_data : gmap Z (gmap string (gmap string string)))
    (groups : list string) :
  ∀ result result' : gmap string (gmap string Entry),
    (∀ g, is_Some (result !! g) →
       github_days_inv fact_data g (sorted_days fact_data) result) →
    for_each groups (github_group_step fact_data) result = Some result' →
    (∀ g, is_Some (result' !! g) ↔ is_Some (result !! g) ∨ g ∈ groups)
    ∧ (∀ g, is_Some (result' !! g) →
         github_days_inv fact_data g (sorted_days fact_data) result').
Proof.
  induction groups as [|group groups IH];
    intros result result' Hresult Hloop; simpl in Hloop.
  - injection Hloop as <-. split; [|done]. intros g. set_solver.
  - destruct (github_group_step fact_data result group)
      as [result1|] eqn:Hstep; [|done].
    apply github_group_step_inv in Hstep as [Hinv Hframe].
    destruct (IH result1 result') as [Hdom Hall]; [|exact Hloop|].
    + intros g Hg. destruct (decide (g = group)) as [->|Hne]; [done|].
      rewrite Hframe in Hg by done.
      destruct (Hresult g Hg) as (dates & Hd & ?).
      exists dates. by rewrite Hframe.
    + split; [|done]. intros g. rewrite Hdom, elem_of_cons.
      destruct (decide (g = group)) as [->|Hne].
      * destruct Hinv as (dates & -> & _). naive_solver.
      * rewrite Hframe by done. naive_solver.
Qed.

(** What the GitHub-style normalizer keeps, when it returns: nothing for
    an empty payload; otherwise an entry for exactly the configured groups,
    each with at most two records, and every record comes from one of the
    two earliest days under which its group has a non-empty payload: it is
    stored under that day's date, and is [pending] without slots for a
    payload that is all [yes] and [normal] with the slots of
    [parse_github_day] for any other. *)
Theorem extract_github_schedules_shape `{Runtime}
    (fact_data : gmap Z (gmap string (gmap string string)))
    (groups : list string) (result : gmap string (gmap string Entry)) :
  extract_github_schedules fact_data groups = Some result →
  (fact_data = ∅ → result = ∅)
  ∧ (fact_data ≠ ∅ → ∀ g, is_Some (result !! g) ↔ g ∈ groups)
  ∧ (∀ g dates, result !! g = Some dates →
       (size dates ≤ 2)%nat
       ∧ ∀ date_str e, dates !! date_str = Some e →
           github_record_origin fact_data (sorted_days fact_data)
             g date_str e).
Proof.
  unfold extract_github_schedules.
  destruct (decide (fact_data = ∅)) as [Hempty|Hne].
  { intros [= <-]. split; [done|]. split; [done|]. intros g dates Hg.
    by rewrite lookup_empty in Hg. }
  intros Hloop.
  apply github_groups_loop in Hloop as [Hdom Hall].
  2: { intros g [? Hg]. by rewrite lookup_empty in Hg. }
  split; [done|]. split.
  - intros _ g. rewrite Hdom, lookup_empty. split; [|by right].
    intros [[? ?]|?]; done.
  - intros g dates Hg.
    destruct (Hall g) as (dates' & Hg' & Hsize & Horigin); [by rewrite Hg|].
    rewrite Hg in Hg'. injection Hg' as <-. split; [|done].
    pose proof (sorted_days_length fact_data). lia.
Qed.

Lemma extract_github_schedules_shape_witness :
  let fact_data : gmap Z (gmap string (gmap string string)) :=
    {[ 1700000000 := {[ "GPV12.1" := {[ "1" := "no" ]} ]};
       1700086400 := {[ "GPV12.1" := {[ "1" := "yes" ]} ]};
       1700172800000 := {[ "GPV12.1" := {[ "1" := "no" ]} ]} ]} in
  let result : gmap string (gmap string (Entry (H := example_runtime))) :=
    {[ "GPV12.1" :=
         {[ "1700000000" :=
              mkEntry (H := example_runtime)
                (Some (replicate 2 false ++ replicate 46 true))
                "1700000000" "normal";
            "1700086400" :=
              mkEntry (H := example_runtime) None "1700086400" "pending"
         ]};
       "GPV3.2" := ∅ ]} in
  extract_github_schedules (H := example_runtime) fact_data
    ["GPV12.1"; "GPV3.2"]
  = Some result
  ∧ (∀ g, is_Some (result !! g) ↔ g ∈ ["GPV12.1"; "GPV3.2"])
  ∧ (∀ g dates, result !! g = Some dates →
       (size dates ≤ 2)%nat
       ∧ ∀ date_str e, dates !! date_str = Some e →
           github_record_origin (H := example_runtime) fact_data
             (sorted_days fact_data) g date_str e).
Proof.
  intros fact_data result.
  assert (Hresult : extract_github_schedules (H := example_runtime)
                      fact_data ["GPV12.1"; "GPV3.2"] = Some result)
    by (vm_cast_no_check (@eq_refl _ (Some result))).
  split; [exact Hresult|].
  destruct (extract_github_schedules_shape (H := example_runtime)
              fact_data ["GPV12.1"; "GPV3.2"] result Hresult)
    as (_ & Hgroups & Hrecords).
  split; [|exact Hrecords].
  apply Hgroups. intros Hempty.
  assert (Hl : fact_data !! 1700000000 = None) by (by rewrite Hempty).
  vm_compute in Hl. discriminate.
Defined.

(** ** Cache format *)

Lemma fmap_cache_eq `{Runtime} (s1 s2 : gmap string (gmap string Entry)) :
  fmap (M := gmap string) (fmap (M := gmap string) to_cache_entry) s1
  = fmap (M := gmap string) (fmap (M := gmap string) to_cache_entry) s2
  ↔ same_schedules s1 s2.
Proof.
  unfold same_schedules, get_record. rewrite map_eq_iff. split.
  - intros Heq group. specialize (Heq group). rewrite !lookup_fmap in Heq.
    destruct (s1 !! group) as [d1|], (s2 !! group) as [d2|]; simpl in *.
    + injection Heq as Heq. split; [done|]. intros date_str.
      apply (f_equal (fun m => m !! date_str)) in Heq.
      by rewrite !lookup_fmap in Heq.
    + discriminate Heq.
    + discriminate Heq.
    + split; [done|]. intros date_str. done.
  - intros Hsame group. destruct (Hsame group) as [Hdom Hrec].
    rewrite !lookup_fmap.
    destruct (s1 !! group) as [d1|], (s2 !! group) as [d2|]; simpl in *.
    + f_equal. apply map_eq. intros date_str. rewrite !lookup_fmap.
      apply Hrec.
    + destruct Hdom as [Hdom _]. by destruct Hdom.
    + destruct Hdom as [_ Hdom]. by destruct Hdom.
    + done.
Qed.

(** Two runs are told apart only by the groups a provider has, and by the
    slots and the status under each group and date: the [date] objects of
    the records play no part. Under the provider's name the cache holds,
    for each group and date, the record's slots and status. *)
Theorem cache_format_ignores_dates `{Runtime}
    (github1 yasno1 github2 yasno2 : gmap string (gmap string Entry)) :
  (schedules_changed (schedules_to_cache_format github1 yasno1)
                     (schedules_to_cache_format github2 yasno2) = false
   ↔ same_schedules github1 github2 ∧ same_schedules yasno1 yasno2)
  ∧ (∀ group date_str,
       cache_lookup (schedules_to_cache_format github1 yasno1)
         "github" group date_str
       = to_cache_entry <$> get_record github1 group date_str
       ∧ cache_lookup (schedules_to_cache_format github1 yasno1)
           "yasno" group date_str
         = to_cache_entry <$> get_record yasno1 group date_str).
Proof.
  split.
  - rewrite schedules_changed_false, <- !fmap_cache_eq.
    unfold schedules_to_cache_format. split.
    + intros Heq. split.
      * apply (f_equal (fun c => c !! "github")) in Heq.
        rewrite !(lookup_insert_ne _ "yasno" "github") in Heq by done.
        rewrite !lookup_insert_eq in Heq. by injection Heq.
      * apply (f_equal (fun c => c !! "yasno")) in Heq.
        rewrite !lookup_insert_eq in Heq. by injection Heq.
    + by intros [-> ->].
  - intros group date_str.
    unfold cache_lookup, cache_group, schedules_to_cache_format, get_record.
    rewrite !(lookup_insert_ne _ "yasno" "github") by done.
    rewrite !lookup_insert_eq. simpl. rewrite !lookup_fmap.
    split.
    + destruct (github1 !! group); simpl; [by rewrite lookup_fmap|].
      by rewrite lookup_empty.
    + destruct (yasno1 !! group); simpl; [by rewrite lookup_fmap|].
      by rewrite lookup_empty.
Qed.

(** ** Group and full messages *)

Lemma append_nonempty (a : string) (c : ascii) (s : string) :
  ∃ c' s', a +:+ String c s = String c' s'.
Proof. destruct a; simpl; eauto. Qed.

Lemma day_source_messages_nonempty `{Runtime} (CONFIG : Config)
    (github_data yasno_data : option Entry) :
  is_day_schedule_opt github_data → is_day_schedule_opt yasno_data →
  is_Some github_data ∨ is_Some yasno_data →
  day_source_messages CONFIG github_data yasno_data ≠ [].
Proof.
  intros Hg Hy Hsome. unfold day_source_messages.
  destruct github_data as [g|], yasno_data as [y|]; simpl in *;
    try (destruct Hsome as [[? ?]|[? ?]]; done);
    try match goal with
    | |- context [if ?b then _ else _] => destruct b; [done|]
    end;
    repeat match goal with
    | |- context [truthy_msg (format_single_source_message CONFIG ?e ?d ?s)] =>
        change (truthy_msg (format_single_source_message CONFIG e d s))
          with (single_source_messages CONFIG (Some e) d s);
        rewrite single_source_unit by done
    end; done.
Qed.

Lemma get_record_valid `{Runtime}
    (schedules : gmap string (gmap string Entry)) (group date_str : string) :
  all_day_schedules schedules →
  is_day_schedule_opt (get_record schedules group date_str).
Proof.
  intros Hall. unfold get_record.
  destruct (schedules !! group) as [dates|] eqn:Hg; simpl.
  - destruct (dates !! date_str) as [e|] eqn:Hd; [|done].
    by destruct (Hall group dates date_str e).
  - by rewrite lookup_empty.
Qed.

Lemma no_records_dom `{Runtime}
    (schedules : gmap string (gmap string Entry)) (group : string) :
  no_records schedules group ↔ dom (default ∅ (schedules !! group)) = ∅.
Proof.
  unfold no_records, get_record. split.
  - intros Hnone. apply dom_empty_iff_L, map_eq. intros d.
    by rewrite lookup_empty.
  - intros Hdom d. apply dom_empty_iff_L in Hdom. by rewrite Hdom.
Qed.

(** The day blocks, once one has been added, stay non-empty. *)
Lemma day_blocks_loop_nonempty {A} (body : A → list string) (sep : string)
    (dates : list A) :
  ∀ day_blocks : list string,
    (day_blocks ≠ [] ∨ ∃ d, d ∈ dates ∧ body d ≠ []) →
    foldl (fun day_blocks d =>
             match body d with
             | [] => day_blocks
             | _ :: _ => day_blocks ++ [join sep (body d)]
             end) day_blocks dates ≠ [].
Proof.
  induction dates as [|d dates IH]; intros day_blocks Hne; simpl.
  - destruct Hne as [?|(d & Hd & _)]; [done|]. by apply elem_of_nil in Hd.
  - apply IH. destruct Hne as [Hne|(d' & Hd' & Hbody)].
    + left. destruct (body d); [done|]. by destruct day_blocks.
    + apply elem_of_cons in Hd' as [->|Hd'].
      * left. destruct (body d); [done|]. by destruct day_blocks.
      * right. eauto.
Qed.

Lemma format_group_message_cases `{Runtime} (CONFIG : Config)
    (group : string)
    (github_schedules yasno_schedules : gmap string (gmap string Entry)) :
  all_day_schedules github_schedules → all_day_schedules yasno_schedules →
  (format_group_message CONFIG group github_schedules yasno_schedules = None
   ↔ no_records github_schedules group ∧ no_records yasno_schedules group)
  ∧ (∀ msg,
       format_group_message CONFIG group github_schedules yasno_schedules
       = Some msg →
       ∃ days_text,
         msg = str_format (template_group_header CONFIG)
                 [("group", replace_GPV group)] +:+ nl +:+ days_text).
Proof.
  intros Hgithub Hyasno. rewrite !no_records_dom.
  unfold format_group_message. cbv zeta.
  set (all_dates := dom (default ∅ (github_schedules !! group))
                    ∪ dom (default ∅ (yasno_schedules !! group))).
  destruct (decide (all_dates = ∅)) as [Hempty|Hnonempty].
  { split; [|done]. split; [|done]. intros _.
    unfold all_dates in Hempty. by apply empty_union_L in Hempty. }
  set (sorted_dates := take 2 (merge_sort String.le (elements all_dates))).
  assert (Hex : ∃ d, d ∈ sorted_dates
                     ∧ day_source_messages CONFIG
                         (get_record github_schedules group d)
                         (get_record yasno_schedules group d) ≠ []).
  { assert (Hperm : merge_sort String.le (elements all_dates)
                    ≡ₚ elements all_dates) by apply merge_sort_Permutation.
    unfold sorted_dates.
    destruct (merge_sort String.le (elements all_dates)) as [|d0 rest].
    - apply Permutation_nil_l in Hperm. symmetry in Hperm.
      by apply elements_empty_inv, leibniz_equiv in Hperm.
    - exists d0. split; [by left|].
      assert (Hd0 : d0 ∈ all_dates).
      { apply elem_of_elements. rewrite <- Hperm. by left. }
      apply day_source_messages_nonempty; try by apply get_record_valid.
      unfold all_dates in Hd0. apply elem_of_union in Hd0.
      unfold get_record. rewrite !elem_of_dom in Hd0. done. }
  match goal with
  | |- context [foldl ?f [] sorted_dates] =>
      pose proof (day_blocks_loop_nonempty
        (fun date_str =>
           day_source_messages CONFIG
             (get_record github_schedules group date_str)
             (get_record yasno_schedules group date_str))
        (nl +:+ separator_source CONFIG +:+ nl) sorted_dates []
        (or_intror Hex)) as Hblocks;
      change (foldl f [] sorted_dates ≠ []) in Hblocks;
      destruct (foldl f [] sorted_dates) as [|block blocks]; [done|]
  end.
  split.
  - split; [done|]. intros [Hg Hy]. destruct Hnonempty.
    unfold all_dates. by rewrite Hg, Hy, union_empty_l_L.
  - intros msg [= <-]. eauto.
Qed.

(** For schedules made of DaySchedules, a group gets a message exactly
    when one of the providers has a record for it; the message then opens
    with the group header. *)
Theorem format_group_message_none_iff `{Runtime} (CONFIG : Config)
    (group : string)
    (github_schedules yasno_schedules : gmap string (gmap string Entry)) :
  all_day_schedules github_schedules → all_day_schedules yasno_schedules →
  (format_group_message CONFIG group github_schedules yasno_schedules = None
   ↔ no_records github_schedules group ∧ no_records yasno_schedules group)
  ∧ (∀ msg,
       format_group_message CONFIG group github_schedules yasno_schedules
       = Some msg →
       ∃ days_text,
         msg = str_format (template_group_header CONFIG)
                 [("group", replace_GPV group)] +:+ nl +:+ days_text).
Proof. apply format_group_message_cases. Qed.

Lemma format_group_message_none_iff_witness :
  let e := mkEntry (H := example_runtime) None "2025-01-15" "pending" in
  let github_schedules :=
    set_record (<["GPV12.1" := ∅]> ∅) "GPV12.1" "2025-01-15" e in
  all_day_schedules github_schedules
  ∧ all_day_schedules (H := example_runtime) ∅
  ∧ (format_group_message DEFAULT_CONFIG "GPV12.1" github_schedules ∅ = None
     ↔ no_records github_schedules "GPV12.1"
       ∧ no_records (H := example_runtime) ∅ "GPV12.1").
Proof.
  intros e github_schedules.
  assert (Hgithub : all_day_schedules github_schedules).
  { apply all_day_schedules_set_record.
    - apply all_day_schedules_new_group, all_day_schedules_empty.
    - right. split; [left; reflexivity|reflexivity].
    - intros slots Hslots. discriminate Hslots. }
  assert (Hyasno : all_day_schedules (H := example_runtime) ∅)
    by apply all_day_schedules_empty.
  split; [exact Hgithub|]. split; [exact Hyasno|].
  exact (proj1 (format_group_message_none_iff DEFAULT_CONFIG "GPV12.1"
                  github_schedules ∅ Hgithub Hyasno)).
Defined.

Lemma group_messages_loop `{Runtime} (CONFIG : Config)
    (github_schedules yasno_schedules : gmap string (gmap string Entry))
    (groups : list string) :
  all_day_schedules github_schedules → all_day_schedules yasno_schedules →
  ∀ all_group_messages : list string,
    foldl
      (fun all_group_messages group =>
         match format_group_message CONFIG group
                 github_schedules yasno_schedules with
         | Some (String c s) => all_group_messages ++ [String c s]
         | _ => all_group_messages
         end)
      all_group_messages groups = []
    ↔ all_group_messages = []
      ∧ ∀ group, group ∈ groups →
          no_records github_schedules group
          ∧ no_records yasno_schedules group.
Proof.
  intros Hgithub Hyasno.
  induction groups as [|group groups IH]; intros acc; simpl.
  - split; [|by intros [? _]]. intros ->. split; [done|].
    intros g Hg. by apply elem_of_nil in Hg.
  - rewrite IH.
    destruct (format_group_message_cases CONFIG group
                github_schedules yasno_schedules Hgithub Hyasno)
      as [Hnone Hsome].
    destruct (format_group_message CONFIG group
                github_schedules yasno_schedules) as [msg|] eqn:Hmsg.
    + destruct (Hsome msg eq_refl) as (days_text & ->).
      destruct (append_nonempty
                  (str_format (template_group_header CONFIG)
                     [("group", replace_GPV group)])
                  "010"%char days_text) as (c & s & Hcs).
      change (nl +:+ days_text) with (String "010"%char days_text).
      rewrite Hcs. split.
      * intros [Happ _]. by destruct acc.
      * intros [_ Hall]. destruct (Hall group) as [Hg Hy]; [by left|].
        discriminate (proj2 Hnone (conj Hg Hy)).
    + split.
      * intros [-> Hall]. split; [done|]. intros g Hg.
        apply elem_of_cons in Hg as [->|Hg]; [by apply Hnone|by apply Hall].
      * intros [-> Hall]. split; [done|]. intros g Hg. apply Hall. by right.
Qed.

(** For schedules made of DaySchedules, the whole message is missing
    exactly when no configured group has a record with either provider;
    otherwise it ends with the footer that carries the time of the
    update. *)
Theorem format_full_message_none_iff `{Runtime} (CONFIG : Config)
    (now : datetime)
    (github_schedules yasno_schedules : gmap string (gmap string Entry))
    (groups : list string) :
  all_day_schedules github_schedules → all_day_schedules yasno_schedules →
  (format_full_message CONFIG now github_schedules yasno_schedules groups
   = None
   ↔ ∀ group, group ∈ groups →
       no_records github_schedules group ∧ no_records yasno_schedules group)
  ∧ (∀ msg,
       format_full_message CONFIG now github_schedules yasno_schedules groups
       = Some msg →
       ∃ blocks,
         msg = blocks +:+ nl +:+ nl +:+ icon_clock CONFIG +:+ " "
               +:+ label_updated CONFIG +:+ ": "
               +:+ strftime now "%d.%m.%Y ⠅%H:%M" +:+ " (Київ)").
Proof.
  intros Hgithub Hyasno. unfold format_full_message. cbv zeta.
  pose proof (group_messages_loop CONFIG github_schedules yasno_schedules
                groups Hgithub Hyasno []) as Hloop.
  match type of Hloop with
  | ?l = [] ↔ _ => destruct l as [|block blocks]
  end.
  - split; [|done]. split; [|done]. intros _. by apply Hloop.
  - split; [|intros msg [= <-]; eauto].
    split; [done|]. intros Hall.
    assert (block :: blocks = []) by (apply Hloop; done). done.
Qed.

Lemma format_full_message_none_iff_witness :
  all_day_schedules (H := example_runtime) ∅
  ∧ (format_full_message (H := example_runtime) DEFAULT_CONFIG
       "2025-01-15" ∅ ∅ ["GPV12.1"] = None
     ↔ ∀ group, group ∈ ["GPV12.1"] →
         no_records (H := example_runtime) ∅ group
         ∧ no_records (H := example_runtime) ∅ group).
Proof.
  assert (Hempty : all_day_schedules (H := example_runtime) ∅)
    by apply all_day_schedules_empty.
  split; [exact Hempty|].
  exact (proj1 (format_full_message_none_iff (H := example_runtime)
                  DEFAULT_CONFIG "2025-01-15" ∅ ∅ ["GPV12.1"] Hempty Hempty)).
Defined.

(** ** Message bookkeeping *)

Lemma run_bind_effects {A B} (m : Run A) (k : A → Run B) :
  (run_bind m k).1
  = m.1 ++ match m.2 with Some x => (k x).1 | None => [] end.
Proof.
  destruct m as [effects [x|]]; simpl.
  - by destruct (k x).
  - by rewrite app_nil_r.
Qed.

Lemma run_bind_result {A B} (m : Run A) (k : A → Run B) :
  (run_bind m k).2 = match m.2 with Some x => (k x).2 | None => None end.
Proof. destruct m as [effects [x|]]; simpl; [by destruct (k x)|done]. Qed.

Lemma delete_message_run `{Runtime} (world : World) (message_id : Z) :
  delete_message world message_id
  = (if telegram_credentials world then [TelegramDelete message_id] else [],
     Some tt).
Proof. unfold delete_message. by destruct (telegram_credentials world). Qed.

(** The trimming loop with a limit that is not negative: the oldest ids
    beyond the limit are deleted, oldest first, and the rest is kept. *)
Lemma trim_message_ids_run `{Runtime} (world : World) (max_messages : Z)
    (message_ids : list Z) :
  0 <= max_messages →
  let excess := (length message_ids - Z.to_nat max_messages)%nat in
  trim_message_ids world max_messages message_ids
  = (if telegram_credentials world
     then TelegramDelete <$> take excess message_ids else [],
     Some (drop excess message_ids)).
Proof.
  intros Hmax. induction message_ids as [|old_id rest IH];
    cbn [trim_message_ids];
    match goal with
    | |- context [?a >? max_messages] =>
        destruct (a >? max_messages) eqn:Hgt
    end; rewrite Z.gtb_ltb in Hgt;
    first [apply Z.ltb_lt in Hgt | apply Z.ltb_ge in Hgt];
    cbn [length] in Hgt.
  - lia.
  - simpl. by destruct (telegram_credentials world).
  - rewrite IH, delete_message_run. unfold run_bind. cbn [length].
      replace (S (length rest) - Z.to_nat max_messages)%nat
        with (S (length rest - Z.to_nat max_messages)) by lia.
      simpl. by destruct (telegram_credentials world).
  - cbn [length].
    replace (S (length rest) - Z.to_nat max_messages)%nat with 0%nat by lia.
    simpl. by destruct (telegram_credentials world).
Qed.

(** With a negative limit the loop deletes every id and then raises on
    [pop] from the emptied list. *)
Lemma trim_message_ids_negative `{Runtime} (world : World) (max_messages : Z)
    (message_ids : list Z) :
  max_messages < 0 →
  trim_message_ids world max_messages message_ids
  = (if telegram_credentials world
     then TelegramDelete <$> message_ids else [],
     None).
Proof.
  intros Hmax. induction message_ids as [|old_id rest IH];
    cbn [trim_message_ids];
    match goal with
    | |- context [?a >? max_messages] =>
        destruct (a >? max_messages) eqn:Hgt
    end; rewrite Z.gtb_ltb in Hgt;
    first [apply Z.ltb_lt in Hgt | apply Z.ltb_ge in Hgt];
    cbn [length] in Hgt; try lia.
  - simpl. by destruct (telegram_credentials world).
  - rewrite IH, delete_message_run. unfold run_bind. simpl.
    by destruct (telegram_credentials world).
Qed.

Lemma pin_message_run `{Runtime} (SETTINGS : Settings) (world : World)
    (message_id : Z) :
  pin_message SETTINGS world message_id
  = (if pin_messages SETTINGS && telegram_credentials world
     then [TelegramPin message_id] else [],
     Some tt).
Proof.
  unfold pin_message.
  by destruct (pin_messages SETTINGS), (telegram_credentials world).
Qed.

(** Bookkeeping after a message was sent. With a limit that is not
    negative, the new message is pinned (when pinning is on), the ids
    beyond the limit are deleted oldest first, and the ids saved are the
    latest ones, at most [max_messages] of them, the new one last unless
    the limit is zero. With a negative limit every message, the new one
    included, is deleted, [pop] raises, and nothing is saved. *)
Theorem manage_messages_keeps_latest `{Runtime} (SETTINGS : Settings)
    (world : World) (new_message_id : Z) :
  let message_ids := load_message_ids world ++ [new_message_id] in
  let excess := (length message_ids - Z.to_nat (max_messages SETTINGS))%nat in
  let pin :=
    if pin_messages SETTINGS && telegram_credentials world
    then [TelegramPin new_message_id] else [] in
  (0 <= max_messages SETTINGS →
     manage_messages SETTINGS world new_message_id
     = (pin
        ++ (if telegram_credentials world
            then TelegramDelete <$> take excess message_ids else [])
        ++ [SaveMessageIds (drop excess message_ids)],
        Some tt)
     ∧ Z.of_nat (length (drop excess message_ids)) <= max_messages SETTINGS
     ∧ take excess message_ids ++ drop excess message_ids = message_ids)
  ∧ (max_messages SETTINGS < 0 →
     manage_messages SETTINGS world new_message_id
     = (pin
        ++ (if telegram_credentials world
            then TelegramDelete <$> message_ids else []),
        None)).
Proof.
  intros message_ids excess pin. unfold manage_messages. cbv zeta.
  fold message_ids. rewrite pin_message_run. fold pin. split.
  - intros Hmax. rewrite trim_message_ids_run by done. fold excess.
    split; [|split].
    + unfold run_bind, run_emit. simpl. done.
    + rewrite length_drop. unfold excess. lia.
    + apply take_drop.
  - intros Hmax. rewrite trim_message_ids_negative by done.
    unfold run_bind. simpl. done.
Qed.

Lemma manage_messages_keeps_latest_witness :
  let SETTINGS := mkSettings ["GPV12.1"] true true 3 true in
  let world :=
    @mkWorld example_runtime true None None None (Some [11; 12; 13])
      (fun _ => None) "2025-01-15" in
  0 <= max_messages SETTINGS
  ∧ manage_messages SETTINGS world 14
    = ([TelegramPin 14; TelegramDelete 11; SaveMessageIds [12; 13; 14]],
       Some tt).
Proof.
  intros SETTINGS world.
  assert (Hmax : 0 <= max_messages SETTINGS) by (simpl; lia).
  split; [exact Hmax|].
  exact (proj1 (proj1 (manage_messages_keeps_latest SETTINGS world 14) Hmax)).
Defined.

Lemma forall_housekeeping_deletes (creds : bool) (ids : list Z) :
  Forall is_housekeeping (if creds then TelegramDelete <$> ids else []).
Proof.
  destruct creds; [|done]. apply Forall_fmap, Forall_forall. done.
Qed.

(** Bookkeeping sends no message and saves no cache, and it completes
    unless the limit is negative. *)
Lemma manage_messages_housekeeping `{Runtime} (SETTINGS : Settings)
    (world : World) (new_message_id : Z) :
  Forall is_housekeeping (manage_messages SETTINGS world new_message_id).1
  ∧ ((manage_messages SETTINGS world new_message_id).2 = Some tt
     ∨ ((manage_messages SETTINGS world new_message_id).2 = None
        ∧ max_messages SETTINGS < 0)).
Proof.
  unfold manage_messages. cbv zeta. rewrite pin_message_run.
  destruct (Z.lt_ge_cases (max_messages SETTINGS) 0) as [Hneg|Hpos].
  - rewrite trim_message_ids_negative by done. unfold run_bind. simpl.
    split; [|by right]. apply Forall_app. split.
    + by destruct (_ && _); repeat constructor.
    + apply forall_housekeeping_deletes.
  - rewrite trim_message_ids_run by done. unfold run_bind, run_emit. simpl.
    split; [|by left]. apply Forall_app. split.
    + by destruct (_ && _); repeat constructor.
    + apply Forall_app. split; [apply forall_housekeeping_deletes|].
      by repeat constructor.
Qed.

Lemma run_bind_pure {A B} (x : A) (k : A → Run B) :
  run_bind ([], Some x) k = k x.
Proof. unfold run_bind. by destruct (k x). Qed.

(** ** The run *)

Lemma manage_messages_result `{Runtime} (SETTINGS : Settings) (world : World)
    (new_message_id : Z) :
  (0 <= max_messages SETTINGS →
     (manage_messages SETTINGS world new_message_id).2 = Some tt)
  ∧ (max_messages SETTINGS < 0 →
     (manage_messages SETTINGS world new_message_id).2 = None).
Proof.
  unfold manage_messages. cbv zeta. rewrite pin_message_run. split; intros Hmax.
  - rewrite trim_message_ids_run by done. unfold run_bind. by simpl.
  - rewrite trim_message_ids_negative by done. unfold run_bind. by simpl.
Qed.

(** With no answer from either source the run ends at once. *)
Lemma main_not_fetched `{Runtime} (CONFIG : Config) (SETTINGS : Settings)
    (world : World) :
  fetch_github_data SETTINGS world = None →
  fetch_yasno_data SETTINGS world = None →
  main CONFIG SETTINGS world = ([], Some tt).
Proof.
  intros Hgithub Hyasno. unfold main. cbv zeta.
  destruct (negb (github_enabled SETTINGS) && negb (yasno_enabled SETTINGS));
    [done|].
  rewrite Hgithub, Hyasno.
  rewrite !bool_decide_eq_false_2 by (by intros ?). done.
Qed.

(** [main] after the two requests, one of which was answered. *)
Lemma main_fetched `{Runtime} (CONFIG : Config) (SETTINGS : Settings)
    (world : World) :
  fetch_github_data SETTINGS world ≠ None
  ∨ fetch_yasno_data SETTINGS world ≠ None →
  let groups := cfg_groups SETTINGS in
  main CONFIG SETTINGS world
  = match
      match fetch_github_data SETTINGS world with
      | Some data => extract_github_schedules data groups
      | None => Some ∅
      end
    with
    | None => ([], None)
    | Some github_schedules =>
        match
          match fetch_yasno_data SETTINGS world with
          | Some data => extract_yasno_schedules data groups
          | None => Some ∅
          end
        with
        | None => ([], None)
        | Some yasno_schedules =>
            let new_cache :=
              schedules_to_cache_format github_schedules yasno_schedules in
            if schedules_changed new_cache
                 (load_cached_schedules (cache_file world))
            then
              match format_full_message CONFIG (clock world)
                      github_schedules yasno_schedules groups with
              | Some (String c s) =>
                  if telegram_credentials world then
                    match telegram_reply world (String c s) with
                    | Some message_id =>
                        if message_id =? 0
                        then ([TelegramSend (String c s)], Some tt)
                        else
                          let bookkeeping :=
                            manage_messages SETTINGS world message_id in
                          (TelegramSend (String c s)
                             :: bookkeeping.1
                             ++ match bookkeeping.2 with
                                | Some _ => [SaveCache new_cache]
                                | None => []
                                end,
                           bookkeeping.2)
                    | None => ([TelegramSend (String c s)], Some tt)
                    end
                  else ([], Some tt)
              | _ => ([], Some tt)
              end
            else ([], Some tt)
        end
    end.
Proof.
  intros Hfetched groups. unfold main. cbv zeta. fold groups.
  destruct (negb (github_enabled SETTINGS) && negb (yasno_enabled SETTINGS))
    eqn:Henabled.
  { apply andb_true_iff in Henabled as [Hg Hy].
    unfold fetch_github_data, fetch_yasno_data in Hfetched.
    rewrite Hg, Hy in Hfetched. by destruct Hfetched. }
  destruct (negb (bool_decide (fetch_github_data SETTINGS world ≠ None))
            && negb (bool_decide (fetch_yasno_data SETTINGS world ≠ None)))
    eqn:Hok.
  { apply andb_true_iff in Hok as [Hg Hy].
    apply negb_true_iff, bool_decide_eq_false in Hg.
    apply negb_true_iff, bool_decide_eq_false in Hy.
    by destruct Hfetched. }
  assert (Hgithub :
    match fetch_github_data SETTINGS world with
    | Some data => run_lift (extract_github_schedules data groups)
    | None => run_ret ∅
    end
    = ([], match fetch_github_data SETTINGS world with
           | Some data => extract_github_schedules data groups
           | None => Some ∅
           end)).
  { by destruct (fetch_github_data SETTINGS world). }
  assert (Hyasno :
    match fetch_yasno_data SETTINGS world with
    | Some data => run_lift (extract_yasno_schedules data groups)
    | None => run_ret ∅
    end
    = ([], match fetch_yasno_data SETTINGS world with
           | Some data => extract_yasno_schedules data groups
           | None => Some ∅
           end)).
  { by destruct (fetch_yasno_data SETTINGS world). }
  rewrite Hgithub, Hyasno. clear Hgithub Hyasno.
  destruct (match fetch_github_data SETTINGS world with
            | Some data => extract_github_schedules data groups
            | None => Some ∅
            end) as [github_schedules|]; [|done].
  rewrite run_bind_pure.
  destruct (match fetch_yasno_data SETTINGS world with
            | Some data => extract_yasno_schedules data groups
            | None => Some ∅
            end) as [yasno_schedules|]; [|done].
  rewrite run_bind_pure.
  destruct (schedules_changed _ _); simpl negb; cbv iota; [|done].
  destruct (format_full_message CONFIG (clock world) github_schedules
              yasno_schedules groups) as [[|c s]|]; [done| |done].
  unfold send_telegram_message.
  destruct (telegram_credentials world); simpl negb; cbv iota; [|done].
  unfold run_emit, run_ret. cbn [run_bind app].
  destruct (telegram_reply world (String c s)) as [message_id|]; [|done].
  destruct (message_id =? 0); [done|].
  destruct (manage_messages SETTINGS world message_id)
    as [housekeeping [[]|]]; simpl; [|by rewrite app_nil_r].
  done.
Qed.

(** When the run sends. With an answer from a source, both normalizers
    returning, a snapshot that differs from the cache, a message built from
    it and the Telegram credentials set, the message is sent, and it is the
    first effect. With no message id in the reply, or the id zero, nothing
    follows and the cache is not saved, so the next run sends again. With
    another id the bookkeeping follows, which only pins, deletes and saves
    the list of ids, and the cache is saved last, with the new snapshot;
    with a negative [max_messages] the bookkeeping raises and the cache is
    not saved. *)
Theorem main_effects `{Runtime} (CONFIG : Config) (SETTINGS : Settings)
    (world : World)
    (github_schedules yasno_schedules : gmap string (gmap string Entry))
    (message : string) :
  let groups := cfg_groups SETTINGS in
  let new_cache :=
    schedules_to_cache_format github_schedules yasno_schedules in
  let run := main CONFIG SETTINGS world in
  fetch_github_data SETTINGS world ≠ None
  ∨ fetch_yasno_data SETTINGS world ≠ None →
  match fetch_github_data SETTINGS world with
  | Some data => extract_github_schedules data groups
  | None => Some ∅
  end = Some github_schedules →
  match fetch_yasno_data SETTINGS world with
  | Some data => extract_yasno_schedules data groups
  | None => Some ∅
  end = Some yasno_schedules →
  schedules_changed new_cache (load_cached_schedules (cache_file world))
  = true →
  format_full_message CONFIG (clock world) github_schedules yasno_schedules
    groups = Some message →
  message ≠ "" →
  telegram_credentials world = true →
  (telegram_reply world message = None
   ∨ telegram_reply world message = Some 0 →
   run = ([TelegramSend message], Some tt))
  ∧ (∀ message_id,
       telegram_reply world message = Some message_id → message_id ≠ 0 →
       let bookkeeping := manage_messages SETTINGS world message_id in
       Forall is_housekeeping bookkeeping.1
       ∧ (0 <= max_messages SETTINGS →
          run = (TelegramSend message :: bookkeeping.1
                   ++ [SaveCache new_cache],
                 Some tt))
       ∧ (max_messages SETTINGS < 0 →
          run = (TelegramSend message :: bookkeeping.1, None))).
Proof.
  intros groups new_cache run Hfetched Hgithub Hyasno Hchanged Hmessage
    Hnonempty Hcreds.
  subst run. rewrite main_fetched by done. cbv zeta. fold groups.
  rewrite Hgithub, Hyasno. fold new_cache. rewrite Hchanged, Hmessage.
  destruct message as [|c s]; [done|]. rewrite Hcreds. split.
  - by intros [->| ->].
  - intros message_id -> Hid.
    apply Z.eqb_neq in Hid. rewrite Hid.
    destruct (manage_messages_result SETTINGS world message_id)
      as [Hdone Hraise].
    split; [apply manage_messages_housekeeping|]. split; intros Hmax.
    + by rewrite (Hdone Hmax).
    + rewrite (Hraise Hmax). by rewrite app_nil_r.
Qed.

Lemma main_effects_witness :
  let SETTINGS := mkSettings ["GPV12.1"] true false 1 true in
  let fact_data : gmap Z (gmap string (gmap string string)) :=
    {[ 1700000000 := {[ "GPV12.1" := {[ "1" := "no" ]} ]} ]} in
  let world :=
    @mkWorld example_runtime true (Some fact_data) None None (Some [11])
      (fun _ => Some 14) "2025-01-15" in
  let github_schedules
      : gmap string (gmap string (Entry (H := example_runtime))) :=
    {[ "GPV12.1" :=
         {[ "1700000000" :=
              mkEntry (H := example_runtime)
                (Some (replicate 2 false ++ replicate 46 true))
                "1700000000" "normal" ]} ]} in
  ∃ message,
    format_full_message (H := example_runtime) DEFAULT_CONFIG (clock world)
      github_schedules ∅ ["GPV12.1"] = Some message
    ∧ main DEFAULT_CONFIG SETTINGS world
      = ([TelegramSend message; TelegramPin 14; TelegramDelete 11;
          SaveMessageIds [14];
          SaveCache (schedules_to_cache_format github_schedules ∅)],
         Some tt).
Proof.
  intros SETTINGS fact_data world github_schedules.
  assert (Hmessage : ∃ message,
            format_full_message (H := example_runtime) DEFAULT_CONFIG
              (clock world) github_schedules ∅ ["GPV12.1"] = Some message
            ∧ message ≠ "").
  { eexists. split; [vm_compute; reflexivity|discriminate]. }
  destruct Hmessage as (message & Hmessage & Hnonempty).
  exists message. split; [exact Hmessage|].
  assert (Hfetched : fetch_github_data SETTINGS world ≠ None
                     ∨ fetch_yasno_data SETTINGS world ≠ None)
    by (left; discriminate).
  assert (Hgithub :
            match fetch_github_data SETTINGS world with
            | Some data =>
                extract_github_schedules (H := example_runtime) data
                  (cfg_groups SETTINGS)
            | None => Some ∅
            end = Some github_schedules)
    by (vm_cast_no_check (@eq_refl _ (Some github_schedules))).
  assert (Hyasno :
            match fetch_yasno_data SETTINGS world with
            | Some data =>
                extract_yasno_schedules (H := example_runtime) data
                  (cfg_groups SETTINGS)
            | None => Some ∅
            end = Some ∅) by reflexivity.
  assert (Hchanged :
            schedules_changed (schedules_to_cache_format github_schedules ∅)
              (load_cached_schedules (cache_file world)) = true)
    by (vm_compute; reflexivity).
  destruct (main_effects (H := example_runtime) DEFAULT_CONFIG SETTINGS world
              github_schedules ∅ message Hfetched Hgithub Hyasno Hchanged
              Hmessage Hnonempty eq_refl) as [_ Hsend].
  destruct (Hsend 14 eq_refl) as (_ & Hrun & _); [lia|].
  rewrite Hrun by (simpl; lia). reflexivity.
Defined.

(** When the run stays quiet. It makes no Telegram call and writes no file
    exactly when neither source answered, or a normalizer raised, or the
    snapshot is the cached one, or no message could be built, or the
    Telegram credentials are missing. Such a run ends normally unless a
    normalizer raised. *)
Theorem main_quiet `{Runtime} (CONFIG : Config) (SETTINGS : Settings)
    (world : World) :
  let groups := cfg_groups SETTINGS in
  let github_result :=
    match fetch_github_data SETTINGS world with
    | Some data => extract_github_schedules data groups
    | None => Some ∅
    end in
  let yasno_result :=
    match fetch_yasno_data SETTINGS world with
    | Some data => extract_yasno_schedules data groups
    | None => Some ∅
    end in
  let fetched :=
    fetch_github_data SETTINGS world ≠ None
    ∨ fetch_yasno_data SETTINGS world ≠ None in
  let run := main CONFIG SETTINGS world in
  (run.1 = []
   ↔ ¬ fetched
     ∨ github_result = None
     ∨ yasno_result = None
     ∨ ∃ github_schedules yasno_schedules,
         github_result = Some github_schedules
         ∧ yasno_result = Some yasno_schedules
         ∧ (schedules_changed
              (schedules_to_cache_format github_schedules yasno_schedules)
              (load_cached_schedules (cache_file world)) = false
            ∨ format_full_message CONFIG (clock world)
                github_schedules yasno_schedules groups = None
            ∨ format_full_message CONFIG (clock world)
                github_schedules yasno_schedules groups = Some ""
            ∨ telegram_credentials world = false))
  ∧ (run.1 = [] →
     (run.2 = None
      ↔ fetched ∧ (github_result = None ∨ yasno_result = None))).
Proof.
  intros groups github_result yasno_result fetched run.
  assert (Hcase : fetched
                  ∨ (fetch_github_data SETTINGS world = None
                     ∧ fetch_yasno_data SETTINGS world = None)).
  { unfold fetched.
    destruct (fetch_github_data SETTINGS world); [by left; left|].
    destruct (fetch_yasno_data SETTINGS world); [by left; right|by right]. }
  destruct Hcase as [Hfetched|[Hg Hy]].
  2: { subst run. rewrite main_not_fetched by done. simpl.
       assert (Hnot : ¬ fetched).
       { unfold fetched. rewrite Hg, Hy. by intros [?|?]. }
       split; [split; [by left|done]|]. intros _. split; [done|].
       by intros [? _]. }
  subst run. rewrite main_fetched by done. cbv zeta.
  fold groups github_result yasno_result.
  destruct github_result as [github_schedules|].
  2: { simpl. split; [split; [by right; left|done]|].
       intros _. split; [|done]. intros _. split; [done|by left]. }
  destruct yasno_result as [yasno_schedules|].
  2: { simpl. split; [split; [by right; right; left|done]|].
       intros _. split; [|done]. intros _. split; [done|by right]. }
  split; [split|].
  - intros Heffects. right; right; right.
    exists github_schedules, yasno_schedules.
    split; [done|]. split; [done|]. revert Heffects.
    destruct (schedules_changed _ _); [|by left].
    destruct (format_full_message _ _ _ _ _) as [[|c s]|];
      [by right; right; left| |by right; left].
    destruct (telegram_credentials world); [|by right; right; right].
    destruct (telegram_reply world (String c s)) as [message_id|]; [|done].
    by destruct (message_id =? 0).
  - intros [Hnot|[?|[?|(gs & ys & [= <-] & [= <-] & Hwhy)]]]; [done..|].
    destruct (schedules_changed _ _); [|done].
    destruct (format_full_message _ _ _ _ _) as [[|c s]|]; [done| |done].
    destruct (telegram_credentials world); [|done].
    by destruct Hwhy as [?|[?|[?|?]]].
  - intros Heffects. split; [|by intros [_ [?|?]]]. revert Heffects.
    destruct (schedules_changed _ _); [|done].
    destruct (format_full_message _ _ _ _ _) as [[|c s]|]; [done| |done].
    destruct (telegram_credentials world); [|done].
    destruct (telegram_reply world (String c s)) as [message_id|]; [|done].
    by destruct (message_id =? 0).
Qed.

(** ** Configuration merge *)

Lemma deep_merge_lookup {A} (base override : gmap string (Json A))
    (key : string) :
  deep_merge base override !! key
  = match override !! key with
    | None => base !! key
    | Some value => Some (merge_value (base !! key) value)
    end.
Proof.
  unfold deep_merge. cbv zeta. revert key.
  apply (map_fold_weak_ind
           (fun result (m : gmap string (Json A)) =>
              ∀ key, result !! key
                     = match m !! key with
                       | None => base !! key
                       | Some value => Some (merge_value (base !! key) value)
                       end)).
  - intros key. by rewrite lookup_empty.
  - intros i x m r Hi IH key.
    destruct (decide (i = key)) as [->|Hne].
    + rewrite !lookup_insert_eq. by rewrite IH, Hi.
    + rewrite !lookup_insert_ne by done. apply IH.
Qed.

Lemma get_path_untouched {A} (path : list string) :
  ∀ override : gmap string (Json A),
    untouched path override → get_path path override = None.
Proof.
  induction path as [|key rest IH]; intros override Hun; [done|].
  simpl in *. destruct (override !! key) as [[a|d']|]; [done| |done].
  destruct rest as [|key' rest']; [done|]. by apply IH.
Qed.

(** One level of the merge: the result has the keys of both objects; a key
    of [base] alone keeps its value; under a key of [override], two objects
    are merged and anything else is replaced by the value of [override].
    Merging with the empty object changes nothing. *)
Theorem deep_merge_entries {A} (base override : gmap string (Json A)) :
  (∀ key,
     deep_merge base override !! key
     = match override !! key with
       | None => base !! key
       | Some (JDict o) =>
           match base !! key with
           | Some (JDict b) => Some (JDict (deep_merge b o))
           | _ => Some (JDict o)
           end
       | Some (JAtom a) => Some (JAtom a)
       end)
  ∧ dom (deep_merge base override) = dom base ∪ dom override
  ∧ deep_merge base ∅ = base
  ∧ deep_merge ∅ override = override.
Proof.
  split; [|split; [|split]].
  - intros key. rewrite deep_merge_lookup.
    destruct (override !! key) as [[a|o]|]; [|destruct (base !! key) as [[b|b]|]|];
      try done. by destruct (base !! key) as [[?|?]|].
  - apply set_eq. intros key. rewrite elem_of_union, !elem_of_dom.
    rewrite deep_merge_lookup.
    destruct (override !! key) as [value|]; [|by rewrite is_Some_alt; naive_solver].
    split; [by right|by eauto].
  - apply map_eq. intros key. by rewrite deep_merge_lookup, lookup_empty.
  - apply map_eq. intros key. rewrite deep_merge_lookup, lookup_empty.
    by destruct (override !! key) as [[?|?]|].
Qed.

(** A setting that the user's file gives wins: where [override] has a value
    that is not an object, the merged configuration has that value, whatever
    [base] holds on the way. *)
Theorem deep_merge_override_wins {A} (path : list string) (a : A) :
  ∀ base override : gmap string (Json A),
    get_path path override = Some (JAtom a) →
    get_path path (deep_merge base override) = Some (JAtom a).
Proof.
  induction path as [|key rest IH]; intros base override Hget; [done|].
  simpl in *. rewrite deep_merge_lookup.
  destruct (override !! key) as [[a'|o]|]; [| |done].
  - destruct rest; [|done]. by destruct (base !! key) as [[?|?]|].
  - destruct rest as [|key' rest']; [done|].
    destruct (base !! key) as [[b|b]|]; simpl; [done| |done].
    by apply IH.
Qed.

Lemma deep_merge_override_wins_witness :
  let base : gmap string (Json string) :=
    {[ "region" := JAtom "kyiv";
       "display" := JDict {[ "format" := JAtom "list";
                             "show_totals" := JAtom "true" ]} ]} in
  let override : gmap string (Json string) :=
    {[ "display" := JDict {[ "format" := JAtom "table" ]} ]} in
  get_path ["display"; "format"] override = Some (JAtom "table")
  ∧ get_path ["display"; "format"] (deep_merge base override)
    = Some (JAtom "table").
Proof.
  intros base override.
  assert (Hget : get_path ["display"; "format"] override
                 = Some (JAtom "table")) by (vm_compute; reflexivity).
  split; [exact Hget|].
  exact (deep_merge_override_wins ["display"; "format"] "table"
           base override Hget).
Defined.

(** A default that the user's file does not mention is kept: where
    [override] says nothing about a path, the merged configuration has
    there what [base] has. *)
Theorem deep_merge_keeps_defaults {A} (path : list string) :
  ∀ base override : gmap string (Json A),
    untouched path override →
    get_path path (deep_merge base override) = get_path path base.
Proof.
  induction path as [|key rest IH]; intros base override Hun; [done|].
  simpl in *. rewrite deep_merge_lookup.
  destruct (override !! key) as [[a'|o]|]; [done| |done].
  destruct rest as [|key' rest']; [done|].
  destruct (base !! key) as [[b|b]|]; simpl.
  - by apply (get_path_untouched (key' :: rest')).
  - by apply IH.
  - by apply (get_path_untouched (key' :: rest')).
Qed.

Lemma deep_merge_keeps_defaults_witness :
  let base : gmap string (Json string) :=
    {[ "region" := JAtom "kyiv";
       "display" := JDict {[ "format" := JAtom "list";
                             "show_totals" := JAtom "true" ]} ]} in
  let override : gmap string (Json string) :=
    {[ "display" := JDict {[ "format" := JAtom "table" ]} ]} in
  untouched ["display"; "show_totals"] override
  ∧ get_path ["display"; "show_totals"] (deep_merge base override)
    = get_path ["display"; "show_totals"] base.
Proof.
  intros base override.
  assert (Hun : untouched ["display"; "show_totals"] override)
    by (vm_compute; exact I).
  split; [exact Hun|].
  exact (deep_merge_keeps_defaults ["display"; "show_totals"]
           base override Hun).
Defined.
